(** * Rinstaller.py: the [Updater] class of the AlertR installer

    A shallow embedding of [src/Rinstaller.py] (class [Updater]) and the
    properties of its update cycle: manifest retrieval, diff planning,
    permission audit, download with symlink redirection, and the apply
    loop.

    Conventions of the embedding:
    - Python [bytes] are [list byte]; Python [str] is [string].
    - A Python [dict] is an association list read in insertion order
      (the iteration order of [dict.keys()] since Python 3.7).
    - The environment (HTTPS server, clock, storage medium) is a record of
      oracles indexed by a tick counter that advances at every interaction.
    - Methods are state transformers over the object ([Updater]) and the
      world ([World]: file tree, temporary files, event trace, tick); a
      Python exception that leaves a method is the outcome [Raise].
    - [threading.Lock] is not modelled: every run is single-threaded. *)

From Stdlib Require Import ZArith Lia List Bool.
From Stdlib.Strings Require Import Ascii String Byte.
From Stdlib.Floats Require Import SpecFloat.
From stdpp Require Import base tactics option list strings gmap.

Set Warnings "-register-all,-clear-no-such-hyp".

Local Open Scope Z_scope.
Local Open Scope string_scope.
Local Open Scope list_scope.

(** * SHA-256 (hashlib.sha256), FIPS 180-4, on 32-bit words held in [Z] *)

Module SHA256.

Definition w32 (x : Z) : Z := Z.land x 0xFFFFFFFF.

Definition add32 (x y : Z) : Z := w32 (x + y).

Definition rotr (n x : Z) : Z :=
  Z.lor (Z.shiftr x n) (w32 (Z.shiftl x (32 - n))).

Definition Ch (x y z : Z) : Z :=
  Z.lxor (Z.land x y) (Z.land (Z.lxor x 0xFFFFFFFF) z).

Definition Maj (x y z : Z) : Z :=
  Z.lxor (Z.lxor (Z.land x y) (Z.land x z)) (Z.land y z).

Definition bsig0 (x : Z) : Z := Z.lxor (Z.lxor (rotr 2 x) (rotr 13 x)) (rotr 22 x).
Definition bsig1 (x : Z) : Z := Z.lxor (Z.lxor (rotr 6 x) (rotr 11 x)) (rotr 25 x).
Definition ssig0 (x : Z) : Z := Z.lxor (Z.lxor (rotr 7 x) (rotr 18 x)) (Z.shiftr x 3).
Definition ssig1 (x : Z) : Z := Z.lxor (Z.lxor (rotr 17 x) (rotr 19 x)) (Z.shiftr x 10).

(** The first 64 primes. *)
Definition primes : list Z :=
  [ 2; 3; 5; 7; 11; 13; 17; 19; 23; 29; 31; 37; 41; 43; 47; 53; 59; 61; 67; 71;
    73; 79; 83; 89; 97; 101; 103; 107; 109; 113; 127; 131; 137; 139; 149; 151;
    157; 163; 167; 173; 179; 181; 191; 193; 197; 199; 211; 223; 227; 229; 233;
    239; 241; 251; 257; 263; 269; 271; 277; 281; 283; 293; 307; 311 ].

(** The integer cube root of [n] below [2^bits], by bisection from the top
    bit down. *)
Fixpoint cube_root (bits : nat) (n r : Z) : Z :=
  match bits with
  | O => r
  | S bits' =>
      let r' := r + Z.shiftl 1 (Z.of_nat bits') in
      cube_root bits' n (if Z.leb (r' * r' * r') n then r' else r)
  end.

(** The round constants: the first 32 bits of the fractional parts of the
    cube roots of the first 64 primes. *)
Definition K : list Z :=
  Eval vm_compute in map (fun p => w32 (cube_root 36 (Z.shiftl p 96) 0)) primes.

(** The initial hash value: the first 32 bits of the fractional parts of
    the square roots of the first 8 primes. *)
Definition H0 : list Z :=
  Eval vm_compute in map (fun p => w32 (Z.sqrt (Z.shiftl p 64))) (firstn 8 primes).

Definition byteZ (b : byte) : Z := Z.of_N (Byte.to_N b).

Definition Zbyte (z : Z) : byte :=
  match Byte.of_N (Z.to_N (Z.land z 0xFF)) with
  | Some b => b
  | None => x00
  end.

(** Big-endian encoding of the low [n] bytes of [z]. *)
Fixpoint be_bytes (n : nat) (z : Z) : list byte :=
  match n with
  | O => []
  | S n' => be_bytes n' (Z.shiftr z 8) ++ [Zbyte z]
  end.

(** Message padding: 0x80, zeros up to 56 mod 64, then the bit length. *)
Definition pad (msg : list byte) : list byte :=
  let len := Z.of_nat (length msg) in
  let zeros := Z.to_nat ((55 - len) mod 64) in
  msg ++ [x80] ++ repeat x00 zeros ++ be_bytes 8 (8 * len).

(** Big-endian 32-bit words of a byte string (a ragged tail is dropped; the
    padded message has none). *)
Fixpoint words (bs : list byte) : list Z :=
  match bs with
  | a :: b :: c :: d :: rest =>
      (Z.shiftl (byteZ a) 24 + Z.shiftl (byteZ b) 16 + Z.shiftl (byteZ c) 8 + byteZ d)
        :: words rest
  | _ => []
  end.

(** Message schedule: extend the 16 block words to 64. *)
Fixpoint schedule (n : nat) (ws : list Z) : list Z :=
  match n with
  | O => ws
  | S n' =>
      let t := length ws in
      let w := add32 (add32 (ssig1 (nth (t - 2) ws 0)) (nth (t - 7) ws 0))
                     (add32 (ssig0 (nth (t - 15) ws 0)) (nth (t - 16) ws 0)) in
      schedule n' (ws ++ [w])
  end.

Record regs := Regs { ra : Z; rb : Z; rc : Z; rd : Z; re : Z; rf : Z; rg : Z; rh : Z }.

Definition round (s : regs) (kw : Z * Z) : regs :=
  let '(k, w) := kw in
  let t1 := add32 (add32 (add32 (add32 (rh s) (bsig1 (re s))) (Ch (re s) (rf s) (rg s))) k) w in
  let t2 := add32 (bsig0 (ra s)) (Maj (ra s) (rb s) (rc s)) in
  Regs (add32 t1 t2) (ra s) (rb s) (rc s) (add32 (rd s) t1) (re s) (rf s) (rg s).

Definition regs_of (h : list Z) : regs :=
  Regs (nth 0 h 0) (nth 1 h 0) (nth 2 h 0) (nth 3 h 0)
       (nth 4 h 0) (nth 5 h 0) (nth 6 h 0) (nth 7 h 0).

Definition compress (h : list Z) (block : list Z) : list Z :=
  let s := fold_left round (combine K (schedule 48 block)) (regs_of h) in
  [ add32 (nth 0 h 0) (ra s); add32 (nth 1 h 0) (rb s);
    add32 (nth 2 h 0) (rc s); add32 (nth 3 h 0) (rd s);
    add32 (nth 4 h 0) (re s); add32 (nth 5 h 0) (rf s);
    add32 (nth 6 h 0) (rg s); add32 (nth 7 h 0) (rh s) ].

(** Hash the 16-word blocks of [ws] one after the other. *)
Fixpoint blocks (fuel : nat) (h : list Z) (ws : list Z) : list Z :=
  match fuel, ws with
  | S fuel', _ :: _ => blocks fuel' (compress h (firstn 16 ws)) (skipn 16 ws)
  | _, _ => h
  end.

Definition digest (msg : list byte) : list Z :=
  let ws := words (pad msg) in
  blocks (length ws) H0 ws.

Definition hexchar (z : Z) : ascii :=
  nth (Z.to_nat (Z.land z 15)) (list_ascii_of_string "0123456789abcdef") "0"%char.

Fixpoint hex (n : nat) (z : Z) : string :=
  match n with
  | O => ""
  | S n' => hex n' (Z.shiftr z 4) +:+ String (hexchar z) ""
  end.

(** [hashlib.sha256(msg).hexdigest()] *)
Definition hexdigest (msg : list byte) : string :=
  fold_right (fun w acc => hex 8 w +:+ acc) "" (digest msg).

End SHA256.

Definition bytes_of (s : string) : list byte := list_byte_of_string s.


(** * Python strings and POSIX paths *)

Definition slash : ascii := "/"%char.

(** [s.split("/")]: never empty, [""] for the empty string. *)
Fixpoint split_slash (s : string) : list string :=
  match s with
  | EmptyString => [""]
  | String c s' =>
      if Ascii.eqb c slash then "" :: split_slash s'
      else match split_slash s' with
           | [] => [String c ""]
           | w :: ws => String c w :: ws
           end
  end.

Definition startswith_slash (s : string) : bool :=
  match s with
  | String c _ => Ascii.eqb c slash
  | EmptyString => false
  end.

Fixpoint endswith_slash (s : string) : bool :=
  match s with
  | EmptyString => false
  | String c EmptyString => Ascii.eqb c slash
  | String _ s' => endswith_slash s'
  end.

(** One step of [posixpath.join]: [path] extended by the component [b]. *)
Definition join2 (path b : string) : string :=
  if startswith_slash b then b
  else if String.eqb path "" || endswith_slash path then path +:+ b
  else path +:+ "/" +:+ b.

(** [os.path.join(a, *p)] *)
Definition os_path_join (a : string) (p : list string) : string :=
  fold_left join2 p a.

Fixpoint dropwhile_ascii (f : ascii -> bool) (l : list ascii) : list ascii :=
  match l with
  | [] => []
  | c :: l' => if f c then dropwhile_ascii f l' else l
  end.

(** [os.path.dirname(p)]: the text up to the last slash, trailing slashes
    removed unless it consists of slashes only. *)
Definition os_path_dirname (p : string) : string :=
  let r := dropwhile_ascii (fun c => negb (Ascii.eqb c slash)) (rev (list_ascii_of_string p)) in
  let r' := dropwhile_ascii (fun c => Ascii.eqb c slash) r in
  string_of_list_ascii (rev (match r' with [] => r | _ => r' end)).

(** [str.isspace] on the ASCII range. *)
Definition isspace (c : ascii) : bool :=
  let n := nat_of_ascii c in
  ((9 <=? n) && (n <=? 13) || (28 <=? n) && (n <=? 32))%nat.

(** [str.strip()] *)
Definition py_strip (s : string) : string :=
  let l := dropwhile_ascii isspace (list_ascii_of_string s) in
  string_of_list_ascii (rev (dropwhile_ascii isspace (rev l))).

(** [bytes.decode("ascii")]: [None] stands for [UnicodeDecodeError]. *)
Fixpoint decode_ascii (bs : list byte) : option string :=
  match bs with
  | [] => Some ""
  | b :: bs' =>
      if (Byte.to_N b <? 128)%N
      then match decode_ascii bs' with
           | Some s => Some (String (ascii_of_byte b) s)
           | None => None
           end
      else None
  end.

(** * Python values *)

(** A [dict] is kept as its insertion log: [d[k] = v] appends [(k, v)]; the
    value of a key is the one assigned last and the keys iterate in the
    order of their first assignment.  [json.loads] builds its dicts this way
    from the members of an object, a repeated member name included. *)
Definition pydict (V : Type) : Type := list (string * V).

Fixpoint dict_get {V} (d : pydict V) (k : string) : option V :=
  match d with
  | [] => None
  | (k', v) :: d' =>
      match dict_get d' k with
      | Some x => Some x
      | None => if String.eqb k' k then Some v else None
      end
  end.

Definition dict_set {V} (d : pydict V) (k : string) (v : V) : pydict V :=
  d ++ [(k, v)].

(** The elements of [l], each at its first occurrence. *)
Fixpoint nub (l : list string) : list string :=
  match l with
  | [] => []
  | x :: l' => x :: filter (fun y => y <> x) (nub l')
  end.

(** [d.keys()] *)
Definition dict_keys {V} (d : pydict V) : list string := nub (map fst d).

(** [k in d.keys()] *)
Definition dict_has {V} (d : pydict V) (k : string) : bool :=
  bool_decide (k ∈ dict_keys d).

(** [len(d)] *)
Definition dict_len {V} (d : pydict V) : nat := length (dict_keys d).

(** A value returned by [json.loads]; floats are IEEE 754 binary64 data
    ([NaN] and the infinities are read by [json.loads] too). *)
Inductive json : Type :=
| JNull
| JBool (b : bool)
| JInt (z : Z)
| JFloat (f : spec_float)
| JStr (s : string)
| JList (l : list json)
| JDict (d : list (string * json)).

(** The binary64 number [m * 2^e]. *)
Definition py_float (m e : Z) : spec_float := binary_normalize 53 1024 m e false.

(** The exceptions the modelled code can meet. *)
Inductive oserror := ENOENT | EEXIST | EACCES | EISDIR | ENOTDIR | ENOTEMPTY.

Inductive exn :=
| ValueError (msg : string)
| KeyError (key : string)
| TypeError
| AttributeError
| UnicodeDecodeError
| OSError (e : oserror)
| OutOfFuel. (* not a Python exception: a loop bound of the model was hit *)

Inductive outcome (A : Type) : Type :=
| Ok (a : A)
| Raise (e : exn).
Arguments Ok {A} a.
Arguments Raise {A} e.

(** [x[key]] for a string [key] *)
Definition py_getitem (x : json) (key : string) : outcome json :=
  match x with
  | JDict d => match dict_get d key with
               | Some v => Ok v
               | None => Raise (KeyError key)
               end
  | _ => Raise TypeError
  end.

(** [x.keys()] *)
Definition py_keys (x : json) : outcome (list string) :=
  match x with
  | JDict d => Ok (dict_keys d)
  | _ => Raise AttributeError
  end.

Definition isinstance_float (x : json) : bool :=
  match x with JFloat _ => true | _ => false end.

(** [bool] is a subclass of [int]. *)
Definition isinstance_int (x : json) : bool :=
  match x with JInt _ | JBool _ => true | _ => false end.

Definition isinstance_dict (x : json) : bool :=
  match x with JDict _ => true | _ => false end.

Definition isinstance_list (x : json) : bool :=
  match x with JList _ => true | _ => false end.

(** [float(x)] and [int(x)].  The callers validate [x] first, so only a
    float reaches [float] and only an int or a bool reaches [int]; the
    other numeric cases are given for completeness, and parsing a [str] is
    left as a [ValueError]. *)
Definition py_float_of (x : json) : outcome spec_float :=
  match x with
  | JFloat f => Ok f
  | JInt z => Ok (py_float z 0)
  | JBool b => Ok (py_float (if b then 1 else 0) 0)
  | JStr _ => Raise (ValueError "could not convert string to float")
  | _ => Raise TypeError
  end.

Definition py_int_of (x : json) : outcome Z :=
  match x with
  | JInt z => Ok z
  | JBool b => Ok (if b then 1 else 0)
  | JStr _ => Raise (ValueError "invalid literal for int()")
  | _ => Raise TypeError
  end.

(** ["%d" % x] succeeds on ints, bools and finite floats. *)
Definition format_d_ok (x : json) : bool :=
  match x with
  | JInt _ | JBool _ => true
  | JFloat (S754_zero _) | JFloat (S754_finite _ _ _) => true
  | _ => false
  end.

(** Python comparison of floats: [a > b] and [a == b]. *)
Definition float_gt (a b : spec_float) : bool := SFltb b a.
Definition float_eq (a b : spec_float) : bool := SFeqb a b.

(** [x == y] for a string [x] and a JSON value [y]. *)
Definition str_eq_json (x : string) (y : json) : bool :=
  match y with
  | JStr s => String.eqb x s
  | _ => false
  end.

(** [x in l] for a string [x] and a list [l] of JSON values. *)
Definition str_in_list (x : string) (l : list json) : bool :=
  existsb (str_eq_json x) l.

(** [_FileUpdateType] *)
Module _FileUpdateType.
Definition NEW : Z := 1.
Definition DELETE : Z := 2.
Definition MODIFY : Z := 3.
End _FileUpdateType.
Import _FileUpdateType.

(** * The file tree *)

(** A node carries its permission bits ([st_mode & 0o777]); the process owns
    every node and is not the superuser, so the owner bits decide. *)
Inductive node :=
| NFile (mode : Z) (data : list byte)
| NDir (mode : Z).

Definition node_mode (n : node) : Z :=
  match n with NFile m _ => m | NDir m => m end.

Definition S_IRUSR : Z := 256. (* 0o400 *)
Definition S_IWUSR : Z := 128. (* 0o200 *)
Definition S_IXUSR : Z := 64.  (* 0o100 *)
Definition S_IRGRP : Z := 32.  (* 0o040 *)

Definition default_dir_mode : Z := 493.  (* 0o755 *)
Definition default_file_mode : Z := 420. (* 0o644 *)

Definition readable (n : node) : bool := Z.testbit (node_mode n) 8.
Definition writable (n : node) : bool := Z.testbit (node_mode n) 7.

(** The tree maps a resolved path to its node.  A path is resolved
    lexically: empty and ["."] components vanish, [".."] drops the component
    before it, and an absolute path starts with the component ["/"]; a
    relative path starts at the working directory, whose key is [[]]. *)
Definition fskey (p : string) : list string :=
  let step (acc : list string) (c : string) :=
    if String.eqb c "" || String.eqb c "." then acc
    else if String.eqb c ".." then
      match acc with
      | ["/"] => acc
      | _ => removelast acc
      end
    else acc ++ [c] in
  fold_left step (split_slash p) (if startswith_slash p then ["/"] else []).

Definition parent (k : list string) : list string :=
  match k with
  | ["/"] => k
  | _ => removelast k
  end.

Definition is_base (k : list string) : bool :=
  match k with [] | ["/"] => true | _ => false end.

Abbreviation FS := (gmap (list string) node).

Definition os_path_exists (fs : FS) (p : string) : bool :=
  bool_decide (is_Some (fs !! fskey p)).

Definition os_path_isdir (fs : FS) (p : string) : bool :=
  match fs !! fskey p with Some (NDir _) => true | _ => false end.

(** [os.access(p, os.W_OK)] *)
Definition os_access_W (fs : FS) (p : string) : bool :=
  match fs !! fskey p with Some n => writable n | None => false end.

(** What creating or removing the entry [k] of its directory requires. *)
Definition parent_ready (fs : FS) (k : list string) : option oserror :=
  match fs !! parent k with
  | None => Some ENOENT
  | Some (NFile _ _) => Some ENOTDIR
  | Some (NDir m) => if Z.testbit m 7 then None else Some EACCES
  end.

(** [os.listdir(p)], as the keys of the children. *)
Definition os_listdir (fs : FS) (p : string) : oserror + list (list string) :=
  match fs !! fskey p with
  | None => inl ENOENT
  | Some (NFile _ _) => inl ENOTDIR
  | Some (NDir _) =>
      inr (filter (fun k => bool_decide (parent k = fskey p ∧ k ≠ fskey p))
                  (map fst (map_to_list fs)))
  end.

(** [os.mkdir(p)] with the default mode under umask 022. *)
Definition os_mkdir (fs : FS) (p : string) : oserror + FS :=
  let k := fskey p in
  match fs !! k with
  | Some _ => inl EEXIST
  | None =>
      match parent_ready fs k with
      | Some e => inl e
      | None => inr (<[k := NDir default_dir_mode]> fs)
      end
  end.

(** [os.remove(p)] *)
Definition os_remove (fs : FS) (p : string) : oserror + FS :=
  let k := fskey p in
  match fs !! k with
  | None => inl ENOENT
  | Some (NDir _) => inl EISDIR
  | Some (NFile _ _) =>
      match parent_ready fs k with
      | Some e => inl e
      | None => inr (delete k fs)
      end
  end.

(** [os.rmdir(p)] *)
Definition os_rmdir (fs : FS) (p : string) : oserror + FS :=
  let k := fskey p in
  match os_listdir fs p with
  | inl e => inl e
  | inr (_ :: _) => inl ENOTEMPTY
  | inr [] =>
      if is_base k then inl EACCES
      else match parent_ready fs k with
           | Some e => inl e
           | None => inr (delete k fs)
           end
  end.

(** [open(p, 'rb').read()] *)
Definition read_file (fs : FS) (p : string) : oserror + list byte :=
  match fs !! fskey p with
  | None => inl ENOENT
  | Some (NDir _) => inl EISDIR
  | Some (NFile m data) => if Z.testbit m 8 then inr data else inl EACCES
  end.

(** [open(p, 'wb')], the whole of [data] written, [close()]: an existing
    file keeps its mode, a new one gets the default mode under umask 022. *)
Definition write_file (fs : FS) (p : string) (data : list byte) : oserror + FS :=
  let k := fskey p in
  match fs !! k with
  | Some (NDir _) => inl EISDIR
  | Some (NFile m _) =>
      if Z.testbit m 7 then inr (<[k := NFile m data]> fs) else inl EACCES
  | None =>
      match parent_ready fs k with
      | Some e => inl e
      | None => inr (<[k := NFile default_file_mode data]> fs)
      end
  end.

(** [os.chmod(p, mode)] *)
Definition os_chmod (fs : FS) (p : string) (mode : Z) : oserror + FS :=
  let k := fskey p in
  match fs !! k with
  | None => inl ENOENT
  | Some (NFile _ data) => inr (<[k := NFile mode data]> fs)
  | Some (NDir _) => inr (<[k := NDir mode]> fs)
  end.

(** * File objects *)

(** An open binary file: its bytes and the current position. *)
Record fileobj := FileObj { buf : list byte; pos : nat }.

Definition seek (f : fileobj) (n : nat) : fileobj := FileObj (buf f) n.

(** [f.write(chunk)]: the bytes at the position are overwritten, the file
    grows when the chunk passes its end, and it is never truncated. *)
Definition write (f : fileobj) (chunk : list byte) : fileobj :=
  FileObj (firstn (pos f) (buf f) ++ chunk ++ skipn (pos f + length chunk) (buf f))
          (pos f + length chunk).

(** [f.read(n)] *)
Definition read (f : fileobj) (n : nat) : list byte * fileobj :=
  let data := firstn n (skipn (pos f) (buf f)) in
  (data, FileObj (buf f) (pos f + length data)).

Fixpoint upto_newline (l : list byte) : list byte :=
  match l with
  | [] => []
  | b :: l' => if Byte.eqb b x0a then [b] else b :: upto_newline l'
  end.

(** [f.readline()] of a binary file *)
Definition readline (f : fileobj) : list byte * fileobj :=
  let data := upto_newline (skipn (pos f) (buf f)) in
  (data, FileObj (buf f) (pos f + length data)).

(** The [while True] loop of [_sha256File]; the [hashlib] object is the
    list of the bytes fed to [update] so far. *)
Fixpoint sha256_loop (fuel : nat) (f : fileobj) (sha256 : list byte) : list byte :=
  match fuel with
  | O => sha256
  | S fuel' =>
      let (data, f') := read f 128 in
      match data with
      | [] => sha256
      | _ => sha256_loop fuel' f' (sha256 ++ data)
      end
  end.

Definition _sha256File (fileHandle : fileobj) : string :=
  let f := seek fileHandle 0 in
  SHA256.hexdigest (sha256_loop (S (length (buf f))) f []).

(** * The environment *)

Inductive doc_response :=
| DocFailed             (* requests.get or raise_for_status raised *)
| DocNotJson            (* json.loads raised *)
| DocJson (j : json).   (* json.loads returned j *)

(** What the outside world answers at each interaction, by tick. *)
Record Env := {
  http_doc : nat -> string -> doc_response;
  (* the chunks of [r.iter_content]; [None]: an exception inside the [try] *)
  http_file : nat -> string -> option (list (list byte));
  clock : nat -> Z;                        (* int(time.time()) *)
  tmp_ok : nat -> bool;                    (* tempfile.TemporaryFile succeeds *)
  medium : nat -> list byte -> list byte;  (* the bytes that reach the disk *)
  py_str : json -> string                  (* str(x) of a value that is no str *)
}.

Inductive event :=
| EvGetDoc (url : string)
| EvGetFile (url : string)
| EvTmpOpen (id : nat)
| EvTmpClose (id : nat)
| EvMkdir (p : string)
| EvRemove (p : string)
| EvRmdir (p : string)
| EvWrite (p : string)
| EvChmod (p : string) (mode : Z).

(** Events are logged for the operations that succeeded, oldest first. *)
Record World := {
  fs : FS;
  open_temps : list nat;   (* the temporary files not closed yet *)
  next_temp : nat;
  tick : nat;
  trace : list event
}.

Record Updater := {
  instance : string;
  instanceLocation : string;
  url : string;
  newestVersion : spec_float;
  newestRev : Z;
  newestFiles : option (pydict json);
  newestSymlinks : option (list json);
  lastChecked : Z;
  repoInfo : json;                       (* JNull is None *)
  repoInstanceLocation : option string;
  instanceInfo : json;                   (* JNull is None *)
  repo_version : json;
  max_redirections : Z;
  localInstanceInfo : json
}.

Record State := { self : Updater; world : World }.

(** * The monad of methods *)

Definition M (A : Type) : Type := State -> outcome A * State.

Definition ret {A} (a : A) : M A := fun s => (Ok a, s).

Definition bind {A B} (m : M A) (k : A -> M B) : M B :=
  fun s => match m s with
           | (Ok a, s') => k a s'
           | (Raise e, s') => (Raise e, s')
           end.

Definition raise {A} (e : exn) : M A := fun s => (Raise e, s).

(** [try: m  except Exception as e: h e] *)
Definition try_except {A} (m : M A) (h : exn -> M A) : M A :=
  fun s => match m s with
           | (Raise OutOfFuel, s') => (Raise OutOfFuel, s')
           | (Raise e, s') => h e s'
           | r => r
           end.

Declare Scope py_scope.
Delimit Scope py_scope with py.
Notation "x <- m ;; k" := (bind m (fun x => k))
  (at level 100, m at next level, right associativity) : py_scope.
Notation "m ;;; k" := (bind m (fun _ => k))
  (at level 100, right associativity) : py_scope.
Local Open Scope py_scope.

Definition lift {A} (o : outcome A) : M A := fun s => (o, s).

Definition and_then {A B} (o : outcome A) (k : A -> outcome B) : outcome B :=
  match o with
  | Ok a => k a
  | Raise e => Raise e
  end.

Definition lift_os {A} (r : oserror + A) : M A :=
  match r with
  | inl e => raise (OSError e)
  | inr a => ret a
  end.

Definition get_self : M Updater := fun s => (Ok (self s), s).
Definition get_world : M World := fun s => (Ok (world s), s).
Definition get_fs : M FS := fun s => (Ok (fs (world s)), s).
Definition put_self (u : Updater) : M unit := fun s => (Ok tt, {| self := u; world := world s |}).
Definition put_world (w : World) : M unit := fun s => (Ok tt, {| self := self s; world := w |}).

Definition with_fs (w : World) (f : FS) : World :=
  {| fs := f; open_temps := open_temps w; next_temp := next_temp w;
     tick := tick w; trace := trace w |}.

Definition with_event (w : World) (e : event) : World :=
  {| fs := fs w; open_temps := open_temps w; next_temp := next_temp w;
     tick := tick w; trace := trace w ++ [e] |}.

Definition with_tick (w : World) : World :=
  {| fs := fs w; open_temps := open_temps w; next_temp := next_temp w;
     tick := S (tick w); trace := trace w |}.

(** [for x in l: body], the body answering [inl acc] to go on with the
    local variables [acc] and [inr r] to leave the loop with [r]. *)
Fixpoint for_loop {A B R} (l : list A) (body : B -> A -> M (B + R)) (acc : B) : M (B + R) :=
  match l with
  | [] => ret (inl acc)
  | a :: l' =>
      r <- body acc a ;;
      match r with
      | inl acc' => for_loop l' body acc'
      | inr x => ret (inr x)
      end
  end.

Section Primitives.
Variable E : Env.

(** [int(time.time())] *)
Definition time_time : M Z :=
  w <- get_world ;;
  put_world (with_tick w) ;;;
  ret (clock E (tick w)).

(** [requests.get(url).text] followed by [json.loads] *)
Definition requests_get_doc (u : string) : M doc_response :=
  w <- get_world ;;
  put_world (with_tick (with_event w (EvGetDoc u))) ;;;
  ret (http_doc E (tick w) u).

(** [requests.get(url, stream=True)] and its [iter_content] *)
Definition requests_get_stream (u : string) : M (option (list (list byte))) :=
  w <- get_world ;;
  put_world (with_tick (with_event w (EvGetFile u))) ;;;
  ret (http_file E (tick w) u).

(** [tempfile.TemporaryFile(mode='w+b')]; [None] when it raises. *)
Definition TemporaryFile : M (option (nat * fileobj)) :=
  w <- get_world ;;
  if tmp_ok E (tick w) then
    let id := next_temp w in
    put_world {| fs := fs w; open_temps := open_temps w ++ [id];
                 next_temp := S id; tick := S (tick w);
                 trace := trace w ++ [EvTmpOpen id] |} ;;;
    ret (Some (id, FileObj [] 0%nat))
  else
    put_world (with_tick w) ;;;
    ret None.

(** [fileHandle.close()] of a temporary file *)
Definition close_temp (id : nat) : M unit :=
  w <- get_world ;;
  put_world {| fs := fs w; open_temps := filter (fun i => i <> id) (open_temps w);
               next_temp := next_temp w; tick := tick w;
               trace := trace w ++ [EvTmpClose id] |}.

(** A mutation of the file tree: [OSError] when it fails, the new tree and
    the event when it succeeds. *)
Definition fs_mutate (op : FS -> oserror + FS) (ev : event) : M unit :=
  w <- get_world ;;
  f <- lift_os (op (fs w)) ;;
  put_world (with_event (with_fs w f) ev).

Definition mkdir (p : string) : M unit := fs_mutate (fun f => os_mkdir f p) (EvMkdir p).
Definition remove (p : string) : M unit := fs_mutate (fun f => os_remove f p) (EvRemove p).
Definition rmdir (p : string) : M unit := fs_mutate (fun f => os_rmdir f p) (EvRmdir p).
Definition chmod (p : string) (mode : Z) : M unit :=
  fs_mutate (fun f => os_chmod f p mode) (EvChmod p mode).

(** [dest = open(p, 'wb')]: the file is created or emptied. *)
Definition open_wb (p : string) : M unit :=
  fs_mutate (fun f => write_file f p []) (EvWrite p).

(** [shutil.copyfileobj(src, dest); dest.close()]: the bytes of [src] from
    its position on are written; the medium decides what lands. *)
Definition copyfileobj (src : fileobj) (p : string) : M unit :=
  w <- get_world ;;
  let data := medium E (tick w) (skipn (pos src) (buf src)) in
  f <- lift_os (write_file (fs w) p data) ;;
  put_world (with_tick (with_fs w f)).

(** [f = open(p, 'rb')] *)
Definition open_rb (p : string) : M fileobj :=
  f <- get_fs ;;
  data <- lift_os (read_file f p) ;;
  ret (FileObj data 0%nat).

End Primitives.

(** * Assignments to the attributes of [self] *)

Definition set_repoInfo (j : json) (u : Updater) : Updater :=
  {| instance := instance u;
     instanceLocation := instanceLocation u;
     url := url u;
     newestVersion := newestVersion u;
     newestRev := newestRev u;
     newestFiles := newestFiles u;
     newestSymlinks := newestSymlinks u;
     lastChecked := lastChecked u;
     repoInfo := j;
     repoInstanceLocation := repoInstanceLocation u;
     instanceInfo := instanceInfo u;
     repo_version := repo_version u;
     max_redirections := max_redirections u;
     localInstanceInfo := localInstanceInfo u |}.

Definition set_repo_version (j : json) (u : Updater) : Updater :=
  {| instance := instance u;
     instanceLocation := instanceLocation u;
     url := url u;
     newestVersion := newestVersion u;
     newestRev := newestRev u;
     newestFiles := newestFiles u;
     newestSymlinks := newestSymlinks u;
     lastChecked := lastChecked u;
     repoInfo := repoInfo u;
     repoInstanceLocation := repoInstanceLocation u;
     instanceInfo := instanceInfo u;
     repo_version := j;
     max_redirections := max_redirections u;
     localInstanceInfo := localInstanceInfo u |}.

Definition set_repoInstanceLocation (loc : string) (u : Updater) : Updater :=
  {| instance := instance u;
     instanceLocation := instanceLocation u;
     url := url u;
     newestVersion := newestVersion u;
     newestRev := newestRev u;
     newestFiles := newestFiles u;
     newestSymlinks := newestSymlinks u;
     lastChecked := lastChecked u;
     repoInfo := repoInfo u;
     repoInstanceLocation := Some loc;
     instanceInfo := instanceInfo u;
     repo_version := repo_version u;
     max_redirections := max_redirections u;
     localInstanceInfo := localInstanceInfo u |}.

Definition set_instanceInfo (j : json) (u : Updater) : Updater :=
  {| instance := instance u;
     instanceLocation := instanceLocation u;
     url := url u;
     newestVersion := newestVersion u;
     newestRev := newestRev u;
     newestFiles := newestFiles u;
     newestSymlinks := newestSymlinks u;
     lastChecked := lastChecked u;
     repoInfo := repoInfo u;
     repoInstanceLocation := repoInstanceLocation u;
     instanceInfo := j;
     repo_version := repo_version u;
     max_redirections := max_redirections u;
     localInstanceInfo := localInstanceInfo u |}.

Definition set_newest (version : spec_float) (rev : Z) (files : pydict json) (symlinks : list json) (u : Updater) : Updater :=
  {| instance := instance u;
     instanceLocation := instanceLocation u;
     url := url u;
     newestVersion := version;
     newestRev := rev;
     newestFiles := Some files;
     newestSymlinks := Some symlinks;
     lastChecked := lastChecked u;
     repoInfo := repoInfo u;
     repoInstanceLocation := repoInstanceLocation u;
     instanceInfo := instanceInfo u;
     repo_version := repo_version u;
     max_redirections := max_redirections u;
     localInstanceInfo := localInstanceInfo u |}.

Definition set_lastChecked (t : Z) (u : Updater) : Updater :=
  {| instance := instance u;
     instanceLocation := instanceLocation u;
     url := url u;
     newestVersion := newestVersion u;
     newestRev := newestRev u;
     newestFiles := newestFiles u;
     newestSymlinks := newestSymlinks u;
     lastChecked := t;
     repoInfo := repoInfo u;
     repoInstanceLocation := repoInstanceLocation u;
     instanceInfo := instanceInfo u;
     repo_version := repo_version u;
     max_redirections := max_redirections u;
     localInstanceInfo := localInstanceInfo u |}.

(** The assignments at the head of [setInstance]. *)
Definition reset_instance (name : string) (u : Updater) : Updater :=
  {| instance := name;
     instanceLocation := instanceLocation u;
     url := url u;
     newestVersion := newestVersion u;
     newestRev := newestRev u;
     newestFiles := newestFiles u;
     newestSymlinks := newestSymlinks u;
     lastChecked := 0;
     repoInfo := JNull;
     repoInstanceLocation := None;
     instanceInfo := JNull;
     repo_version := repo_version u;
     max_redirections := max_redirections u;
     localInstanceInfo := localInstanceInfo u |}.

Definition assign (f : Updater -> Updater) : M unit :=
  fun s => (Ok tt, {| self := f (self s); world := world s |}).

(** * The constructor *)

Definition lower_ascii (c : ascii) : ascii :=
  let n := nat_of_ascii c in
  if ((65 <=? n) && (n <=? 90))%nat then ascii_of_nat (n + 32) else c.

Fixpoint lower (s : string) : string :=
  match s with
  | EmptyString => EmptyString
  | String c s' => String (lower_ascii c) (lower s')
  end.

(** [Updater(url, instance, targetLocation, localInstanceInfo,
    retrieveInfo=False)] *)
Definition Updater_init (url instance targetLocation : string)
    (localInstanceInfo : option json) : outcome Updater :=
  if negb (String.prefix "https" (lower url))
  then Raise (ValueError "Only 'https' is allowed.")
  else Ok {| instance := instance;
             instanceLocation := targetLocation;
             url := url;
             newestVersion := S754_zero false;
             newestRev := 0;
             newestFiles := None;
             newestSymlinks := None;
             lastChecked := 0;
             repoInfo := JNull;
             repoInstanceLocation := None;
             instanceInfo := JNull;
             repo_version := JInt 1;
             max_redirections := 10;
             localInstanceInfo :=
               match localInstanceInfo with
               | None => JDict [("files", JDict [])]
               | Some d => d
               end |}.

(** * The methods of [Updater] *)

Definition is_none {A} (o : option A) : bool :=
  match o with None => true | Some _ => false end.

Definition is_JNull (j : json) : bool :=
  match j with JNull => true | _ => false end.

Definition str_in (x : string) (l : list string) : bool := bool_decide (x ∈ l).

Section Methods.
Variable E : Env.

(** [_getRepositoryInformation] *)
Definition _getRepositoryInformation : M bool :=
  u <- get_self ;;
  r <- requests_get_doc E (os_path_join (url u) ["repoInfo.json"]) ;;
  match r with
  | DocFailed => ret false
  | DocNotJson => ret false
  | DocJson j =>
      ok <- try_except
              (assign (set_repoInfo j) ;;;
               if negb (isinstance_dict j)
               then raise (ValueError "Received repository information is not of type dict.")
               else
                 keys <- lift (py_keys j) ;;
                 if negb (str_in "instances" keys)
                 then raise (ValueError "Received repository information has no information about the instances.")
                 else
                   instances <- lift (py_getitem j "instances") ;;
                   ikeys <- lift (py_keys instances) ;;
                   if negb (str_in (instance u) ikeys)
                   then raise (ValueError "Instance is not managed by used repository.")
                   else
                     (if str_in "version" keys
                      then v <- lift (py_getitem j "version") ;; assign (set_repo_version v)
                      else ret tt) ;;;
                     u' <- get_self ;;
                     (* logging.debug("... %d" % self.repo_version) *)
                     if format_d_ok (repo_version u') then ret true else raise TypeError)
              (fun _ => ret false) ;;
      if negb ok then ret false
      else
        instances <- lift (py_getitem j "instances") ;;
        entry <- lift (py_getitem instances (instance u)) ;;
        loc <- lift (py_getitem entry "location") ;;
        assign (set_repoInstanceLocation
                  (match loc with JStr s => s | _ => py_str E loc end)) ;;;
        ret true
  end.

(** [_getInstanceInformation] *)
Definition _getInstanceInformation : M bool :=
  u <- get_self ;;
  ok <- (if is_JNull (repoInfo u) || is_none (repoInstanceLocation u)
         then try_except
                (b <- _getRepositoryInformation ;;
                 if b then ret true
                 else raise (ValueError "Not able to get newest repository information."))
                (fun _ => ret false)
         else ret true) ;;
  if negb ok then ret false
  else
    u <- get_self ;;
    match repoInstanceLocation u with
    | None => ret false (* os.path.join raises TypeError inside the try *)
    | Some loc =>
        r <- requests_get_doc E (os_path_join (url u) [loc; "instanceInfo.json"]) ;;
        match r with
        | DocFailed => ret false
        | DocNotJson => ret false
        | DocJson j =>
            try_except
              (assign (set_instanceInfo j) ;;;
               version <- lift (py_getitem j "version") ;;
               if negb (isinstance_float version)
               then raise (ValueError "Key 'version' is not of type float.")
               else
                 rev <- lift (py_getitem j "rev") ;;
                 if negb (isinstance_int rev)
                 then raise (ValueError "Key 'rev' is not of type int.")
                 else
                   dependencies <- lift (py_getitem j "dependencies") ;;
                   if negb (isinstance_dict dependencies)
                   then raise (ValueError "Key 'dependencies' is not of type dict.")
                        (* the test of 'symlinks' follows this raise, inside
                           the same block: it is never reached *)
                   else ret true)
              (fun _ => ret false)
        end
    end.

(** The [try] block of [_getNewestVersionInformation] that reads the
    version information off [self.instanceInfo]. *)
Definition parse_version_information (info : json)
  : outcome (spec_float * Z * pydict json * list json) :=
  and_then (py_getitem info "version") (fun v =>
  and_then (py_float_of v) (fun version =>
  and_then (py_getitem info "rev") (fun r =>
  and_then (py_int_of r) (fun rev =>
  and_then (py_getitem info "files") (fun newestFiles =>
  and_then (py_keys info) (fun keys =>
  and_then (if str_in "symlinks" keys then py_getitem info "symlinks"
            else Ok (JList [])) (fun newestSymlinks =>
  match newestFiles, newestSymlinks with
  | JDict files, JList symlinks => Ok (version, rev, files, symlinks)
  | JDict _, _ => Raise (ValueError "Key 'symlinks' is not of type list.")
  | _, _ => Raise (ValueError "Key 'files' is not of type dict.")
  end))))))).

(** The update of the newest known version information. *)
Definition remember_newest (version : spec_float) (rev : Z) (files : pydict json)
    (symlinks : list json) (u : Updater) : Updater :=
  if float_gt version (newestVersion u)
     || ((rev >? newestRev u) && float_eq version (newestVersion u))
     || is_none (newestFiles u)
     || is_none (newestSymlinks u)
  then set_newest version rev files symlinks u
  else u.

(** [_getNewestVersionInformation] *)
Definition _getNewestVersionInformation : M bool :=
  ok <- try_except
          (b <- _getInstanceInformation ;;
           if b then ret true
           else raise (ValueError "Not able to get newest instance information."))
          (fun _ => ret false) ;;
  if negb ok then ret false
  else
    parsed <- try_except
                (u <- get_self ;;
                 r <- lift (parse_version_information (instanceInfo u)) ;;
                 ret (Some r))
                (fun _ => ret None) ;;
    match parsed with
    | None => ret false
    | Some (version, rev, files, symlinks) =>
        assign (remember_newest version rev files symlinks) ;;;
        t <- time_time E ;;
        assign (set_lastChecked t) ;;;
        ret true
    end.

(** [getInstanceInformation] *)
Definition getInstanceInformation : M json :=
  utcTimestamp <- time_time E ;;
  u <- get_self ;;
  (if (utcTimestamp - lastChecked u >? 60) || is_JNull (instanceInfo u)
   then b <- _getInstanceInformation ;;
        if negb b then raise (ValueError "Not able to get newest instance information.")
        else ret tt
   else ret tt) ;;;
  u <- get_self ;;
  ret (instanceInfo u).

(** [getRepositoryInformation] *)
Definition getRepositoryInformation : M json :=
  utcTimestamp <- time_time E ;;
  u <- get_self ;;
  (if (utcTimestamp - lastChecked u >? 60) || is_JNull (repoInfo u)
   then b <- _getRepositoryInformation ;;
        if negb b then raise (ValueError "Not able to get newest repository information.")
        else ret tt
   else ret tt) ;;;
  u <- get_self ;;
  ret (repoInfo u).

(** [setInstance] *)
Definition setInstance (name : string) (retrieveInfo : bool) : M unit :=
  assign (reset_instance name) ;;;
  if retrieveInfo then
    b <- _getNewestVersionInformation ;;
    if negb b then raise (ValueError "Not able to get newest repository information.")
    else ret tt
  else ret tt.

(** The body of the first loop of [_checkFilesToUpdate], over the files of
    the remote map [files]. *)
Definition plan_remote (u : Updater) (files : pydict json)
    (filesToUpdate : pydict Z) (clientFile : string) : M (pydict Z + Empty_set) :=
  f <- get_fs ;;
  let path := os_path_join (instanceLocation u) [clientFile] in
  if os_path_exists f path then
    fh <- open_rb path ;;
    let sha256Hash := _sha256File fh in
    match dict_get files clientFile with
    | None => raise (KeyError clientFile)
    | Some h =>
        if str_eq_json sha256Hash h then ret (inl filesToUpdate)
        else ret (inl (dict_set filesToUpdate clientFile MODIFY))
    end
  else ret (inl (dict_set filesToUpdate clientFile NEW)).

(** The body of its second loop, over the files of the local record. *)
Definition plan_local (fileList : list string)
    (filesToUpdate : pydict Z) (clientFile : string) : M (pydict Z + Empty_set) :=
  if negb (str_in clientFile fileList)
  then ret (inl (dict_set filesToUpdate clientFile DELETE))
  else ret (inl filesToUpdate).

(** The two loops of [_checkFilesToUpdate]. *)
Definition plan_files (files : pydict json) : M (pydict Z) :=
  u <- get_self ;;
  let fileList := dict_keys files in
  r1 <- for_loop fileList (plan_remote u files) [] ;;
  match r1 with
  | inr e => match e with end
  | inl filesToUpdate =>
      localFiles <- lift (py_getitem (localInstanceInfo u) "files") ;;
      localKeys <- lift (py_keys localFiles) ;;
      r2 <- for_loop localKeys (plan_local fileList) filesToUpdate ;;
      match r2 with
      | inr e => match e with end
      | inl filesToUpdate => ret filesToUpdate
      end
  end.

(** The head of [_checkFilesToUpdate]: the version information is fetched
    again when it is older than 60 seconds or missing. *)
Definition refresh_for_check : M bool :=
  utcTimestamp <- time_time E ;;
  u <- get_self ;;
  if (utcTimestamp - lastChecked u >? 60)
     || is_none (newestFiles u) || is_none (newestSymlinks u)
  then _getNewestVersionInformation
  else ret true.

(** [_checkFilesToUpdate] *)
Definition _checkFilesToUpdate : M (option (pydict Z)) :=
  ok <- refresh_for_check ;;
  if negb ok then ret None
  else
    u <- get_self ;;
    match newestFiles u with
    | None => raise AttributeError
    | Some files =>
        filesToUpdate <- plan_files files ;;
        ret (Some filesToUpdate)
    end.

(** [_checkFilePermissions] *)
Definition _checkFilePermissions (filesToUpdate : pydict Z) : M bool :=
  u <- get_self ;;
  f <- get_fs ;;
  r <- for_loop (dict_keys filesToUpdate)
         (fun (_ : unit) clientFile =>
            match dict_get filesToUpdate clientFile with
            | None => raise (KeyError clientFile)
            | Some action =>
                if (action =? MODIFY)%Z then
                  if negb (os_access_W f (os_path_join (instanceLocation u) [clientFile]))
                  then ret (inr false)
                  else ret (inl tt)
                else if (action =? NEW)%Z then
                  let folderStructure := split_slash clientFile in
                  if (length folderStructure =? 1)%nat then
                    if negb (os_access_W f (instanceLocation u))
                    then ret (inr false)
                    else ret (inl tt)
                  else
                    r <- for_loop folderStructure
                           (fun tempPart filePart =>
                              let p := os_path_join (instanceLocation u) [tempPart; filePart] in
                              if os_path_exists f p then
                                if negb (os_access_W f p) then ret (inr false)
                                else ret (inl (os_path_join tempPart [filePart]))
                              else ret (inl tempPart))
                           "" ;;
                    match r with
                    | inr b => ret (inr b)
                    | inl _ => ret (inl tt)
                    end
                else if (action =? DELETE)%Z then
                  if negb (os_access_W f (os_path_join (instanceLocation u) [clientFile]))
                  then ret (inr false)
                  else ret (inl tt)
                else raise (ValueError "Unknown file update type.")
            end)
         tt ;;
  match r with
  | inr b => ret b
  | inl _ => ret true
  end.

(** [_createSubDirectories] *)
Definition _createSubDirectories (fileLocation targetDirectory : string) : M bool :=
  let folderStructure := split_slash fileLocation in
  if negb (length folderStructure =? 1)%nat then
    try_except
      (for_loop (R := Empty_set) (removelast folderStructure)
         (fun tempPart part =>
            f <- get_fs ;;
            let p := os_path_join targetDirectory [tempPart; part] in
            (if negb (os_path_exists f p) then mkdir p
             else if negb (os_path_isdir f p)
                  then raise (ValueError "Location already exists and is not a directory.")
                  else ret tt) ;;;
            ret (inl (os_path_join tempPart [part])))
         "" ;;;
       ret true)
      (fun _ => ret false)
  else ret true.

(** [_deleteSubDirectories] *)
Definition _deleteSubDirectories (fileLocation targetDirectory : string) : M bool :=
  let folderStructure := removelast (split_slash fileLocation) in
  try_except
    (for_loop (rev (seq 0 (length folderStructure)))
       (fun (_ : unit) i =>
          let tempDir := os_path_join "" (firstn (i + 1) folderStructure) in
          let p := os_path_join targetDirectory [tempDir] in
          f <- get_fs ;;
          entries <- lift_os (os_listdir f p) ;;
          match entries with
          | _ :: _ => ret (inr tt) (* break *)
          | [] => rmdir p ;;; ret (inl tt)
          end)
       tt ;;;
     ret true)
    (fun _ => ret false).

(** [for chunk in r.iter_content(...)]: the chunks that are not empty are
    written one after the other. *)
Definition write_chunks (fileHandle : fileobj) (chunks : list (list byte)) : fileobj :=
  fold_left (fun fh chunk => match chunk with [] => fh | _ => write fh chunk end)
            chunks fileHandle.

(** Why a download gave no file, as the log line says it. *)
Inductive download_failure :=
| TooManyRedirections
| TransportFailed.

(** The [while True] loop of [_downloadFile]. *)
Fixpoint download_loop (fuel : nat) (redirect_ctr : Z) (file_location : string)
    (fileHandle : fileobj) : M (download_failure + fileobj) :=
  match fuel with
  | O => raise OutOfFuel
  | S fuel' =>
      u <- get_self ;;
      if redirect_ctr >? max_redirections u then ret (inl TooManyRedirections)
      else
        match repoInstanceLocation u with
        | None => ret (inl TransportFailed) (* os.path.join raises inside the try *)
        | Some loc =>
            r <- requests_get_stream E (os_path_join (url u) [loc; file_location]) ;;
            match r with
            | None => ret (inl TransportFailed)
            | Some chunks =>
                let fileHandle := write_chunks fileHandle chunks in
                match newestSymlinks u with
                | None => raise TypeError
                | Some symlinks =>
                    if negb (str_in_list file_location symlinks) then ret (inr fileHandle)
                    else
                      let fileHandle := seek fileHandle 0 in
                      let base_path := os_path_dirname file_location in
                      let (line, fileHandle) := readline fileHandle in
                      match decode_ascii line with
                      | None => raise UnicodeDecodeError
                      | Some text =>
                          let file_location := os_path_join base_path [py_strip text] in
                          let fileHandle := seek fileHandle 0 in
                          download_loop fuel' (redirect_ctr + 1) file_location fileHandle
                      end
                end
            end
        end
  end.

(** Iterations that suffice for the loop: one per value of [redirect_ctr]
    from 0 to [max_redirections + 1]. *)
Definition download_fuel (u : Updater) : nat := Z.to_nat (max_redirections u) + 2.

(** [_downloadFile], with the reason of a [None]. *)
Definition downloadFile_why (file_location : string) (file_hash : json)
  : M (option download_failure + (nat * fileobj)) :=
  t <- TemporaryFile E ;;
  match t with
  | None => ret (inl None)
  | Some (id, fileHandle) =>
      u <- get_self ;;
      r <- download_loop (download_fuel u) 0 file_location fileHandle ;;
      match r with
      | inl why => ret (inl (Some why))
      | inr fileHandle =>
          let fileHandle := seek fileHandle 0 in
          let sha256Hash := _sha256File fileHandle in
          let fileHandle := seek fileHandle 0 in
          if negb (str_eq_json sha256Hash file_hash) then ret (inl None)
          else ret (inr (id, fileHandle))
      end
  end.

(** [_downloadFile] *)
Definition _downloadFile (file_location : string) (file_hash : json)
  : M (option (nat * fileobj)) :=
  r <- downloadFile_why file_location file_hash ;;
  match r with
  | inl _ => ret None
  | inr fileHandle => ret (Some fileHandle)
  end.

(** The closing loop of [updateInstance]. *)
Definition close_all (downloadedFileHandles : pydict (nat * fileobj)) : M unit :=
  for_loop (R := Empty_set) (dict_keys downloadedFileHandles)
    (fun (_ : unit) fileHandle =>
       match dict_get downloadedFileHandles fileHandle with
       | None => raise (KeyError fileHandle)
       | Some (id, _) => close_temp id ;;; ret (inl tt)
       end)
    tt ;;;
  ret tt.

(** One turn of the download loop of [updateInstance]: a NEW or MODIFY
    entry is fetched; on a failure the handles got so far are closed and the
    method returns [False]. *)
Definition download_entry (u : Updater) (filesToUpdate : pydict Z)
    (downloadedFileHandles : pydict (nat * fileobj)) (fileToUpdate : string)
  : M (pydict (nat * fileobj) + bool) :=
  match dict_get filesToUpdate fileToUpdate with
  | None => raise (KeyError fileToUpdate)
  | Some action =>
      if (action =? NEW)%Z || (action =? MODIFY)%Z then
        match newestFiles u with
        | None => raise TypeError
        | Some files =>
            match dict_get files fileToUpdate with
            | None => raise (KeyError fileToUpdate)
            | Some file_hash =>
                downloadedFileHandle <- _downloadFile fileToUpdate file_hash ;;
                match downloadedFileHandle with
                | None =>
                    close_all downloadedFileHandles ;;;
                    ret (inr false)
                | Some h => ret (inl (dict_set downloadedFileHandles fileToUpdate h))
                end
            end
        end
      else ret (inl downloadedFileHandles)
  end.

(** The download loop of [updateInstance]. *)
Definition download_all (filesToUpdate : pydict Z)
  : M (pydict (nat * fileobj) + bool) :=
  u <- get_self ;;
  for_loop (dict_keys filesToUpdate) (download_entry u filesToUpdate) [].

Definition executables : list string :=
  ["alertRclient.py"; "alertRserver.py"; "alertRupdate.py"; "graphExport.py";
   "manageUsers.py"].

(** The entry [fileToUpdate] is written: its directories are created when
    it is NEW, and the downloaded bytes are copied to its path. *)
Definition write_entry (u : Updater) (downloadedFileHandles : pydict (nat * fileobj))
    (fileToUpdate : string) (action : Z) : M bool :=
  let path := os_path_join (instanceLocation u) [fileToUpdate] in
  (if (action =? NEW)%Z
   then _createSubDirectories fileToUpdate (instanceLocation u) ;;; ret tt
   else ret tt) ;;;
  try_except
    (open_wb path ;;;
     match dict_get downloadedFileHandles fileToUpdate with
     | None => raise (KeyError fileToUpdate)
     | Some (_, src) => copyfileobj E src path ;;; ret true
     end)
    (fun _ => ret false).

(** The written entry is read again and its digest compared with the one
    of the repository; then the fixed permissions are set. *)
Definition verify_entry (u : Updater) (fileToUpdate : string) : M (unit + bool) :=
  let path := os_path_join (instanceLocation u) [fileToUpdate] in
  f <- open_rb path ;;
  let sha256Hash := _sha256File f in
  match newestFiles u with
  | None => raise TypeError
  | Some files =>
      match dict_get files fileToUpdate with
      | None => raise (KeyError fileToUpdate)
      | Some h =>
          if negb (str_eq_json sha256Hash h) then ret (inr false)
          else if str_in fileToUpdate executables then
            ok <- try_except
                    (chmod path (Z.lor (Z.lor S_IRUSR S_IWUSR) S_IXUSR) ;;; ret true)
                    (fun _ => ret false) ;;
            if negb ok then ret (inr false) else ret (inl tt)
          else if str_in fileToUpdate ["config/config.xml.template"] then
            ok <- try_except
                    (chmod path (Z.lor (Z.lor S_IRUSR S_IWUSR) S_IRGRP) ;;; ret true)
                    (fun _ => ret false) ;;
            if negb ok then ret (inr false) else ret (inl tt)
          else ret (inl tt)
      end
  end.

(** One turn of the second loop of [updateInstance]: [inl tt] to go on with
    the next entry, [inr b] for [return b]. *)
Definition apply_entry (filesToUpdate : pydict Z)
    (downloadedFileHandles : pydict (nat * fileobj)) (fileToUpdate : string)
  : M (unit + bool) :=
  u <- get_self ;;
  let path := os_path_join (instanceLocation u) [fileToUpdate] in
  match dict_get filesToUpdate fileToUpdate with
  | None => raise (KeyError fileToUpdate)
  | Some action =>
      if (action =? DELETE)%Z then
        ok <- try_except (remove path ;;; ret true) (fun _ => ret false) ;;
        if negb ok then ret (inr false)
        else _deleteSubDirectories fileToUpdate (instanceLocation u) ;;; ret (inl tt)
      else
        ok <- write_entry u downloadedFileHandles fileToUpdate action ;;
        if negb ok then ret (inr false)
        else verify_entry u fileToUpdate
  end.

(** The second loop of [updateInstance], over the entries [l]. *)
Definition apply_entries (filesToUpdate : pydict Z)
    (downloadedFileHandles : pydict (nat * fileobj)) (l : list string)
  : M (unit + bool) :=
  for_loop l (fun (_ : unit) fileToUpdate =>
                apply_entry filesToUpdate downloadedFileHandles fileToUpdate) tt.

(** What [updateInstance] does once the plan is known and not empty. *)
Definition update_with (filesToUpdate : pydict Z) : M bool :=
  ok <- _checkFilePermissions filesToUpdate ;;
  if negb ok then ret false
  else
    d <- download_all filesToUpdate ;;
    match d with
    | inr b => ret b
    | inl downloadedFileHandles =>
        r <- apply_entries filesToUpdate downloadedFileHandles (dict_keys filesToUpdate) ;;
        match r with
        | inr b => ret b
        | inl _ => close_all downloadedFileHandles ;;; ret true
        end
    end.

(** [updateInstance] *)
Definition updateInstance : M bool :=
  plan <- _checkFilesToUpdate ;;
  match plan with
  | None => ret false
  | Some filesToUpdate =>
      if (dict_len filesToUpdate =? 0)%nat then ret true
      else update_with filesToUpdate
  end.

End Methods.

(** * Vocabulary of the statements *)

(** The path of the instance file [p] exists on disk. *)
Definition on_disk (s : State) (p : string) : Prop :=
  os_path_exists (fs (world s)) (os_path_join (instanceLocation (self s)) [p]) = true.

(** The SHA-256 digest of the instance file [p], when it can be read. *)
Definition disk_digest (s : State) (p : string) : option string :=
  match read_file (fs (world s)) (os_path_join (instanceLocation (self s)) [p]) with
  | inr data => Some (SHA256.hexdigest data)
  | inl _ => None
  end.

(** The action the first loop of the planner gives the remote file [p]. *)
Definition classify (s : State) (files : pydict json) (p : string) : option Z :=
  if os_path_exists (fs (world s)) (os_path_join (instanceLocation (self s)) [p]) then
    match disk_digest s p, dict_get files p with
    | Some d, Some h => if str_eq_json d h then None else Some MODIFY
    | _, _ => None
    end
  else Some NEW.

(** The plan as a list: the classified remote files in the order of the
    remote map, then the files of the local record that the remote map has
    not. *)
Definition plan_of (s : State) (files local : pydict json) : pydict Z :=
  omap (fun p => pair p <$> classify s files p) (dict_keys files)
  ++ map (fun p => (p, DELETE)) (filter (fun p => p ∉ dict_keys files) (dict_keys local)).

(** The identity of a version and its order: lexicographic, the version
    first, with the comparisons of Python floats and ints. *)
Definition identity : Type := spec_float * Z.

Definition newer (a b : identity) : Prop :=
  float_gt (fst a) (fst b) = true
  ∨ (float_eq (fst a) (fst b) = true ∧ snd b < snd a).

Definition identity_le (a b : identity) : Prop := a = b ∨ newer b a.

Definition newest_identity (u : Updater) : identity := (newestVersion u, newestRev u).

(** The remembered newest state, and whether files and symlinks were
    recorded in it. *)
Definition remembered (u : Updater)
  : spec_float * Z * option (pydict json) * option (list json) :=
  (newestVersion u, newestRev u, newestFiles u, newestSymlinks u).

Definition recorded (u : Updater) : Prop :=
  newestFiles u ≠ None ∧ newestSymlinks u ≠ None.

(** One call of a public method or of a check of the repository, whatever
    its outcome, and a lifetime of such calls. *)
Inductive call (E : Env) : relation State :=
| call_newest s o s' :
    _getNewestVersionInformation E s = (o, s') → call E s s'
| call_check s o s' :
    _checkFilesToUpdate E s = (o, s') → call E s s'
| call_info s o s' :
    getInstanceInformation E s = (o, s') → call E s s'
| call_update s o s' :
    updateInstance E s = (o, s') → call E s s'
| call_repository s o s' :
    getRepositoryInformation E s = (o, s') → call E s s'
| call_instance name retrieveInfo s o s' :
    setInstance E name retrieveInfo s = (o, s') → call E s s'.

Definition lifetime (E : Env) : relation State := rtc (call E).

(** The remembered newest state is the same; the remembered identity did
    not decrease once files and symlinks were recorded. *)
Definition same_newest : relation Updater :=
  fun u u' => remembered u' = remembered u.

Definition grows : relation Updater :=
  fun u u' =>
    recorded u →
    recorded u' ∧ identity_le (newest_identity u) (newest_identity u').

(** The symlink chain that starts at [loc]: [follow E u n t loc fh] is the
    file object left by [n] redirections and a last download of a path that
    is no symlink, the server being asked at the ticks [t], [t + 1], ...;
    [None] when the chain from [loc] does not have exactly [n] redirections
    or a request fails. *)
Fixpoint follow (E : Env) (u : Updater) (n t : nat) (loc : string) (fh : fileobj)
  : option fileobj :=
  match repoInstanceLocation u, newestSymlinks u with
  | Some repo, Some symlinks =>
      match http_file E t (os_path_join (url u) [repo; loc]) with
      | None => None
      | Some chunks =>
          let fh := write_chunks fh chunks in
          match n with
          | O => if str_in_list loc symlinks then None else Some fh
          | S n' =>
              if str_in_list loc symlinks then
                let (line, fh) := readline (seek fh 0) in
                match decode_ascii line with
                | None => None
                | Some text =>
                    follow E u n' (S t)
                      (os_path_join (os_path_dirname loc) [py_strip text]) (seek fh 0)
                end
              else None
          end
      end
  | _, _ => None
  end.

(** The kinds of events. *)
Definition is_fs_event (e : event) : bool :=
  match e with
  | EvMkdir _ | EvRemove _ | EvRmdir _ | EvWrite _ | EvChmod _ _ => true
  | _ => false
  end.



Definition is_doc_event (e : event) : bool :=
  match e with
  | EvGetDoc _ => true
  | _ => false
  end.

(** The trace grew by events of the kind [ok] only. *)
Definition extends (ok : event → bool) : relation World :=
  fun w w' => ∃ t, trace w' = trace w ++ t ∧ Forall (fun e => ok e = true) t.

(** The file tree was not touched. *)
Definition tree_untouched : relation World :=
  fun w w' => fs w' = fs w ∧ extends (fun e => negb (is_fs_event e)) w w'.

(** Nothing happened but requests for manifests: the file tree and the
    temporary files are as they were, no file content was requested. *)
Definition only_documents : relation World :=
  fun w w' =>
    fs w' = fs w ∧ open_temps w' = open_temps w ∧ next_temp w' = next_temp w
    ∧ extends is_doc_event w w'.

(** Every open temporary file has an identifier below the next one. *)
Definition temps_wf (w : World) : Prop :=
  ∀ id, id ∈ open_temps w → (id < next_temp w)%nat.

(** The temporary files are as they were. *)
Definition same_temps : relation World :=
  fun w w' => open_temps w' = open_temps w ∧ next_temp w' = next_temp w.

(** The identifiers of the temporary files held in a dict of handles. *)
Definition handle_ids (d : pydict (nat * fileobj)) : list nat :=
  omap (fun k => fst <$> dict_get d k) (dict_keys d).

(** The events of one Delete entry: the removal of the file, then the
    removals of directories. *)
Definition is_rmdir_event (e : event) : bool :=
  match e with
  | EvRmdir _ => true
  | _ => false
  end.

Definition delete_block (t : list event) : Prop :=
  ∃ p rest, t = EvRemove p :: rest ∧ Forall (fun e => is_rmdir_event e = true) rest.

(** The trace grew by the events of Delete entries. *)
Definition extends_blocks : relation World :=
  fun w w' => ∃ blocks, trace w' = trace w ++ concat blocks ∧ Forall delete_block blocks.



(** What a method leaves alone.

    [keeps P m]: every run of [m], whatever its outcome, takes a state [s]
    to a state related to [s] by the preorder [P]. *)

Definition keeps {A} (P : relation State) (m : M A) : Prop :=
  ∀ s o s', m s = (o, s') → P s s'.

(** Relations that look at the object only, or at the world only. *)
Definition on_self (Q : relation Updater) : relation State :=
  fun s s' => Q (self s) (self s').

Definition on_world (W : relation World) : relation State :=
  fun s s' => W (world s) (world s').

(** What a relation has to survive for the methods to keep it: the
    interactions of the manifest client, the update of the newest version,
    the interactions of a download, and the mutations of the apply loop. *)
Class ChecksKeep (E : Env) (P : relation State) : Prop := {
  checks_preorder :: PreOrder P;
  checks_time : keeps P (time_time E);
  checks_doc u : keeps P (requests_get_doc E u);
  checks_assign f : (∀ u, remembered (f u) = remembered u) → keeps P (assign f)
}.

Class RemembersKeep (P : relation State) : Prop :=
  remembers_keep v r f sy : keeps P (assign (remember_newest v r f sy)).

Class StreamsKeep (E : Env) (P : relation State) : Prop := {
  streams_preorder :: PreOrder P;
  streams_get u : keeps P (requests_get_stream E u)
}.

Class TempsKeep (E : Env) (P : relation State) : Prop := {
  temps_preorder :: PreOrder P;
  temps_open : keeps P (TemporaryFile E);
  temps_close id : keeps P (close_temp id)
}.

Class AppliesKeep (E : Env) (P : relation State) : Prop := {
  applies_preorder :: PreOrder P;
  applies_mutate op ev : keeps P (fs_mutate op ev);
  applies_copy src p : keeps P (copyfileobj E src p)
}.

(** Comparisons that say [<=], and their composition. *)
Definition cmp_le (c : comparison) : Prop := c = Lt ∨ c = Eq.

Definition cmp_seq (c1 c2 : comparison) : comparison :=
  match c1, c2 with Eq, Eq => Eq | _, _ => Lt end.

(** * Concrete repositories and installations

    A repository at [https://repo] with the one instance [server], installed
    under [inst]; the statements below are run on them. *)

Module Scenario.
Import _FileUpdateType.

Definition repo_doc : json :=
  JDict [("instances", JDict [("server", JDict [("location", JStr "server")])])].

(** An instance manifest; [extra] holds further members. *)
Definition manifest (version : spec_float) (rev : Z) (files : pydict json)
    (extra : pydict json) : json :=
  JDict ([("version", JFloat version); ("rev", JInt rev); ("dependencies", JDict []);
          ("files", JDict files)] ++ extra).

(** A server with the instance manifest [doc] and the files [files], given
    by their URLs; any other request fails.  The disk is sound. *)
Definition serve (doc : json) (files : pydict (list (list byte))) : Env := {|
  http_doc := fun _ u =>
    if String.eqb u "https://repo/repoInfo.json" then DocJson repo_doc
    else if String.eqb u "https://repo/server/instanceInfo.json" then DocJson doc
    else DocFailed;
  http_file := fun _ u => dict_get files u;
  clock := fun t => 1000 + Z.of_nat t;
  tmp_ok := fun _ => true;
  medium := fun _ data => data;
  py_str := fun _ => "" |}.

(** [Updater("https://repo", "server", "inst", {"files": local},
    retrieveInfo=False)] *)
Definition fresh (local : pydict json) : Updater :=
  {| instance := "server"; instanceLocation := "inst"; url := "https://repo";
     newestVersion := S754_zero false; newestRev := 0;
     newestFiles := None; newestSymlinks := None; lastChecked := 0;
     repoInfo := JNull; repoInstanceLocation := None; instanceInfo := JNull;
     repo_version := JInt 1; max_redirections := 10;
     localInstanceInfo := JDict [("files", JDict local)] |}.

(** An object that has checked the repository at time 1000: the files and
    the symlinks of the newest version are known. *)
Definition checked (version : spec_float) (rev : Z) (files : pydict json)
    (symlinks : list json) (local : pydict json) : Updater :=
  set_lastChecked 1000
    (set_newest version rev files symlinks
       (set_repoInstanceLocation "server" (set_repoInfo repo_doc (fresh local)))).

(** A world at tick 0 with the file tree [l] and no temporary file. *)
Definition tree (l : list (list string * node)) : World :=
  {| fs := list_to_map l; open_temps := []; next_temp := 0; tick := 0; trace := [] |}.

(** The working directory and a writable instance directory. *)
Definition root_tree : list (list string * node) :=
  [([], NDir 493); (["inst"], NDir 493)].

Definition sha (s : string) : json := JStr (SHA256.hexdigest (bytes_of s)).

(** A line naming [target]: the content of a symlink file. *)
Definition pointer (target : string) : list byte := bytes_of target ++ [x0a].

(** Two new files, one of them in a new directory, and a recorded file that
    the repository dropped. *)
Definition doc_mixed : json :=
  manifest (py_float 3 (-1)) 1 [("x.txt", sha "hi"); ("d/y.txt", sha "yo")] [].

Definition E_mixed : Env :=
  serve doc_mixed [("https://repo/server/x.txt", [bytes_of "h"; []; bytes_of "i"]);
                   ("https://repo/server/d/y.txt", [bytes_of "yo"])].

Definition s_mixed : State :=
  {| self := fresh [("old/z.txt", JStr "")];
     world := tree (root_tree ++ [(["inst"; "old"], NDir 493);
                                  (["inst"; "old"; "z.txt"], NFile 420 (bytes_of "zz"))]) |}.

(** The symlink [link] names [target_file], whose content is shorter than
    the line of the symlink file. *)
Definition E_link : Env :=
  serve JNull [("https://repo/server/link", [pointer "target_file"]);
               ("https://repo/server/target_file", [bytes_of "hi"])].

Definition s_link : State :=
  {| self := checked (py_float 1 0) 1 [] [JStr "link"] []; world := tree root_tree |}.

(** What the temporary file holds after the two downloads. *)
Definition stale : list byte := bytes_of "hirget_file" ++ [x0a].

(** A chain of [n] symlinks [l], [la], [laa], ... that ends in a real file;
    the server answers the request of tick [t] with link [t], then with the
    file. *)
Definition link (i : nat) : string := "l" +:+ string_of_list_ascii (repeat "a"%char i).

Definition payload : list byte := bytes_of "the bytes of the real file".

Definition E_chain (n : nat) : Env := {|
  http_doc := fun _ _ => DocFailed;
  http_file := fun t _ => if (t <=? n)%nat then Some [pointer (link t)] else Some [payload];
  clock := fun t => 1000 + Z.of_nat t;
  tmp_ok := fun _ => true;
  medium := fun _ data => data;
  py_str := fun _ => "" |}.

Definition s_chain (n : nat) : State :=
  {| self := checked (py_float 1 0) 1 [] (map (fun i => JStr (link i)) (seq 0 n)) [];
     world := tree root_tree |}.

(** A new file in a new directory, under an instance directory that is not
    writable (mode 0o555). *)
Definition doc_nested : json := manifest (py_float 3 (-1)) 1 [("a/b.txt", sha "hi")] [].

Definition E_nested : Env :=
  serve doc_nested [("https://repo/server/a/b.txt", [bytes_of "hi"])].

Definition s_readonly : State :=
  {| self := fresh []; world := tree [([], NDir 493); (["inst"], NDir 365)] |}.

(** A disk that loses the last byte of what is written. *)
Definition E_faulty : Env := {|
  http_doc := fun _ _ => DocFailed;
  http_file := fun _ _ => None;
  clock := fun t => 1000 + Z.of_nat t;
  tmp_ok := fun _ => true;
  medium := fun _ data => removelast data;
  py_str := fun _ => "" |}.

Definition files_two : pydict json := [("x.txt", sha "hi"); ("y.txt", sha "yo")].

Definition s_faulty : State :=
  {| self := checked (py_float 1 0) 1 files_two [] []; world := tree root_tree |}.

Definition plan_two : pydict Z := [("x.txt", NEW); ("y.txt", NEW)].

Definition handles_two : pydict (nat * fileobj) :=
  [("x.txt", (0%nat, FileObj (bytes_of "hi") 0));
   ("y.txt", (1%nat, FileObj (bytes_of "yo") 0))].

(** A manifest whose [symlinks] member is a string. *)
Definition doc_badlinks : json :=
  manifest (py_float 3 (-1)) 1 [] [("symlinks", JStr "x")].

Definition E_badlinks : Env := serve doc_badlinks [].

Definition s_fresh : State := {| self := fresh []; world := tree root_tree |}.

(** The repository answers with version 1.5, revision 1, to an object that
    remembers version 2.0, revision 5. *)
Definition doc_old : json := manifest (py_float 3 (-1)) 1 [("old.txt", sha "old")] [].

Definition E_old : Env := serve doc_old [].

Definition s_newer : State :=
  {| self := checked (py_float 2 0) 5 [("new.txt", sha "new")] [] [];
     world := tree root_tree |}.

(** Two new files, of which the server has the first only. *)
Definition doc_two : json := manifest (py_float 3 (-1)) 1 files_two [].

Definition E_half : Env := serve doc_two [("https://repo/server/x.txt", [bytes_of "hi"])].

(** An installation in step with the repository, checked a moment ago. *)
Definition files_synced : pydict json := [("x.txt", sha "hi")].

Definition s_synced : State :=
  {| self := checked (py_float 1 0) 1 files_synced [] files_synced;
     world := tree (root_tree ++ [(["inst"; "x.txt"], NFile 420 (bytes_of "hi"))]) |}.

(** An installation behind the repository: [x.txt] is current, [m.txt] has
    changed, [n.txt] is recorded but missing on disk, [gone.txt] is
    recorded and no longer in the repository. *)
Definition files_diff : pydict json :=
  [("x.txt", sha "hi"); ("m.txt", sha "new"); ("n.txt", sha "n")].

Definition local_diff : pydict json := [("n.txt", sha "n"); ("gone.txt", sha "g")].

Definition s_diff : State :=
  {| self := checked (py_float 1 0) 1 files_diff [] local_diff;
     world := tree (root_tree ++ [(["inst"; "x.txt"], NFile 420 (bytes_of "hi"));
                                  (["inst"; "m.txt"], NFile 420 (bytes_of "old"));
                                  (["inst"; "gone.txt"], NFile 420 (bytes_of "g"))]) |}.

End Scenario.

(** * Further vocabulary *)

(** [m] raises nothing but exceptions of [ok]. *)
Definition raises_only {A} (ok : exn → Prop) (m : M A) : Prop :=
  ∀ s e s', m s = (Raise e, s') → ok e.

(** The exceptions that [except Exception] catches. *)
Definition caught (e : exn) : Prop := e ≠ OutOfFuel.

(** [m] returns in every state. *)
Definition never_raises {A} (m : M A) : Prop := raises_only (fun _ => False) m.

(** What [_getInstanceInformation] tests of an instance manifest. *)
Definition validated (info : json) : Prop :=
  (∃ v, py_getitem info "version" = Ok (JFloat v))
  ∧ (∃ r, py_getitem info "rev" = Ok r ∧ isinstance_int r = true)
  ∧ (∃ d, py_getitem info "dependencies" = Ok (JDict d)).

(** The attributes that the fetch of the manifests does not assign. *)
Definition fetch_frame : relation Updater :=
  fun u u' =>
    instance u' = instance u
    ∧ instanceLocation u' = instanceLocation u
    ∧ url u' = url u
    ∧ remembered u' = remembered u
    ∧ lastChecked u' = lastChecked u
    ∧ max_redirections u' = max_redirections u
    ∧ localInstanceInfo u' = localInstanceInfo u.

(** The configuration given to the constructor. *)
Definition same_config : relation Updater :=
  fun u u' =>
    instanceLocation u' = instanceLocation u
    ∧ url u' = url u
    ∧ max_redirections u' = max_redirections u
    ∧ localInstanceInfo u' = localInstanceInfo u.

Definition is_file_request (e : event) : bool :=
  match e with
  | EvGetFile _ => true
  | _ => false
  end.

Definition file_requests (t : list event) : nat :=
  length (List.filter is_file_request t).


(** * Further repositories and installations *)

Module Cases.
Import _FileUpdateType.

(** A server that sends [x.txt] in three chunks, the second one empty. *)
Definition E_direct : Env :=
  Scenario.serve JNull [("https://repo/server/x.txt", [bytes_of "h"; []; bytes_of "i"])].

End Cases.

(** * The file tree under the directory helpers *)

Definition is_mkdir_event (e : event) : bool :=
  match e with
  | EvMkdir _ => true
  | _ => false
  end.

(** Directories were created with the default mode, and nothing else
    happened: every node is as it was. *)
Definition only_creates : relation World :=
  fun w w' =>
    (∀ k n, fs w !! k = Some n → fs w' !! k = Some n)
    ∧ (∀ k n, fs w' !! k = Some n → fs w !! k = None → n = NDir default_dir_mode)
    ∧ same_temps w w'
    ∧ extends is_mkdir_event w w'.

(** Directories were removed, and nothing else happened: a node that is
    left is as it was, and a node that is gone was a directory none of whose
    entries is left. *)
Definition only_prunes : relation World :=
  fun w w' =>
    (∀ k n, fs w' !! k = Some n → fs w !! k = Some n)
    ∧ (∀ k n, fs w !! k = Some n → fs w' !! k = None →
         (∃ m, n = NDir m)
         ∧ ∀ k', parent k' = k → k' ≠ k → fs w' !! k' = None)
    ∧ same_temps w w'
    ∧ extends is_rmdir_event w w'.

(** The paths that the loop of [_createSubDirectories] visits for the
    components [parts], [tempPart] being the part of the path done. *)
Fixpoint dir_chain (targetDirectory tempPart : string) (parts : list string)
  : list string :=
  match parts with
  | [] => []
  | part :: rest =>
      os_path_join targetDirectory [tempPart; part]
      :: dir_chain targetDirectory (os_path_join tempPart [part]) rest
  end.


(** * The handles of an update *)

(** The handle [h] kept for the path [k] holds a file verified against the
    digest that [files] gives for [k], rewound, for an entry New or Modify
    of [plan]. *)
Definition verified_handle (plan : pydict Z) (files : pydict json)
    (k : string) (h : nat * fileobj) : Prop :=
  (dict_get plan k = Some NEW ∨ dict_get plan k = Some MODIFY)
  ∧ dict_get files k = Some (JStr (SHA256.hexdigest (buf (snd h))))
  ∧ pos (snd h) = 0%nat.

(** The events that the entries of [plan] may cause under the instance
    directory [inst]: a file is removed for an entry Delete only, and
    written or given a mode for another entry only. *)
Definition plan_event (plan : pydict Z) (inst : string) (e : event) : Prop :=
  match e with
  | EvRemove p => ∃ k, dict_get plan k = Some DELETE ∧ p = os_path_join inst [k]
  | EvWrite p | EvChmod p _ =>
      ∃ k a, dict_get plan k = Some a ∧ a ≠ DELETE ∧ p = os_path_join inst [k]
  | _ => True
  end.

(** The trace grew by events that satisfy [ok]. *)
Definition extends_by (ok : event → Prop) : relation World :=
  fun w w' => ∃ t, trace w' = trace w ++ t ∧ Forall ok t.

(** The object is as it was and the trace grew by events of [plan]. *)
Definition footprint (plan : pydict Z) : relation State :=
  fun s s' =>
    self s' = self s
    ∧ extends_by (plan_event plan (instanceLocation (self s))) (world s) (world s').

(** What an event of an update may be, given the local record of the
    object [u] and the newest files [files] it knows. *)
Definition update_event (u : Updater) (files : option (pydict json)) (e : event) : Prop :=
  match e with
  | EvRemove p =>
      ∃ local remote k,
        py_getitem (localInstanceInfo u) "files" = Ok (JDict local)
        ∧ files = Some remote
        ∧ k ∈ dict_keys local
        ∧ (k ∉ dict_keys remote)
        ∧ p = os_path_join (instanceLocation u) [k]
  | EvWrite p | EvChmod p _ =>
      ∃ remote k,
        files = Some remote
        ∧ k ∈ dict_keys remote
        ∧ p = os_path_join (instanceLocation u) [k]
  | _ => True
  end.

(** * Further installations *)

Module Trees.
Import _FileUpdateType.


(** A plan for the installation [Scenario.s_diff]. *)
Definition plan_diff : pydict Z :=
  [("m.txt", MODIFY); ("gone.txt", DELETE); ("n.txt", NEW)].

End Trees.

(** * A repository with a symlink file that is no ASCII text *)

Module Pointers.
Import _FileUpdateType.

(** Two new files; [y.txt] is a symlink whose file holds the byte [0xff]. *)
Definition doc_pointer : json :=
  Scenario.manifest (py_float 3 (-1)) 1
    [("x.txt", Scenario.sha "hi"); ("y.txt", Scenario.sha "yo")]
    [("symlinks", JList [JStr "y.txt"])].

Definition E_pointer : Env :=
  Scenario.serve doc_pointer
    [("https://repo/server/x.txt", [bytes_of "hi"]);
     ("https://repo/server/y.txt", [[xff; x0a]])].


End Pointers.

(** * Properties *)

Arguments SHA256.hexdigest : simpl never.
Arguments _sha256File : simpl never.
Arguments os_path_join : simpl never.
Arguments os_path_exists : simpl never.
Arguments read_file : simpl never.

(** ** Reading a file in blocks *)

Lemma take_drop_length {A} (n : nat) (l : list A) :
  take n l ++ drop (length (take n l)) l = l.
Proof.
  rewrite length_take. destruct (decide (n <= length l)%nat).
  - rewrite Nat.min_l by done. apply take_drop.
  - rewrite Nat.min_r by lia. rewrite take_ge, drop_ge by lia. apply app_nil_r.
Qed.

Lemma sha256_loop_spec fuel f acc :
  (length (drop (pos f) (buf f)) < fuel)%nat ->
  sha256_loop fuel f acc = acc ++ drop (pos f) (buf f).
Proof.
  revert f acc. induction fuel as [|fuel IH]; intros f acc Hlen; [lia|].
  cbn [sha256_loop read].
  pose proof (take_drop_length 128 (drop (pos f) (buf f))) as Hsplit.
  destruct (take 128 (drop (pos f) (buf f))) as [|b data] eqn:Hd.
  - clear Hsplit. destruct (drop (pos f) (buf f)); [by rewrite app_nil_r | cbn in Hd; discriminate].
  - rewrite drop_drop in Hsplit.
    rewrite IH; cbn [pos buf].
    + by rewrite <- app_assoc, Hsplit.
    + rewrite <- Hsplit in Hlen. rewrite length_app in Hlen. cbn in Hlen |- *. lia.
Qed.

(** The digest of a file object is the SHA-256 of all its bytes, whatever
    its position was. *)
Lemma _sha256File_spec f : _sha256File f = SHA256.hexdigest (buf f).
Proof.
  unfold _sha256File. rewrite sha256_loop_spec; cbn [seek pos buf]; [done|].
  rewrite drop_0. lia.
Qed.

(** ** Dictionaries *)

Lemma elem_of_nub x l : x ∈ nub l ↔ x ∈ l.
Proof.
  induction l as [|y l IH]; cbn; [done|].
  rewrite !elem_of_cons, list_elem_of_filter, IH.
  destruct (decide (x = y)); naive_solver.
Qed.

Lemma NoDup_nub l : NoDup (nub l).
Proof.
  induction l as [|y l IH]; cbn; [constructor|].
  constructor; [|by apply NoDup_filter].
  rewrite list_elem_of_filter. naive_solver.
Qed.

Lemma dict_get_app {V} (d1 d2 : pydict V) k :
  dict_get (d1 ++ d2) k =
  match dict_get d2 k with Some v => Some v | None => dict_get d1 k end.
Proof.
  induction d1 as [|[k' v'] d1 IH]; cbn.
  - by destruct (dict_get d2 k).
  - rewrite IH. by destruct (dict_get d2 k), (dict_get d1 k).
Qed.

Lemma dict_get_None {V} (d : pydict V) k :
  dict_get d k = None ↔ k ∉ map fst d.
Proof.
  induction d as [|[k' v'] d IH]; cbn.
  - split; [intros _; apply not_elem_of_nil | done].
  - rewrite not_elem_of_cons. destruct (dict_get d k) eqn:Hg.
    + split; [done|]. intros [_ Hn]. by apply IH in Hn.
    + destruct (String.eqb_spec k' k); naive_solver.
Qed.

Lemma dict_get_Some_in {V} (d : pydict V) k v :
  dict_get d k = Some v → (k, v) ∈ d.
Proof.
  induction d as [|[k' v'] d IH]; cbn; [done|].
  destruct (dict_get d k) eqn:Hg.
  - intros [= <-]. right. by apply IH.
  - destruct (String.eqb_spec k' k); [|done]. intros [= <-]. subst. left.
Qed.

Lemma dict_get_NoDup {V} (d : pydict V) k v :
  NoDup (map fst d) → (k, v) ∈ d → dict_get d k = Some v.
Proof.
  induction d as [|[k' v'] d IH]; cbn; [by rewrite elem_of_nil|].
  rewrite NoDup_cons, elem_of_cons. intros [Hk Hd] [[= -> ->]|Hin].
  - assert (dict_get d k' = None) as -> by by apply dict_get_None.
    by rewrite String.eqb_refl.
  - by rewrite (IH Hd Hin).
Qed.

Lemma dict_keys_is_Some {V} (d : pydict V) k :
  k ∈ dict_keys d ↔ is_Some (dict_get d k).
Proof.
  unfold dict_keys. rewrite elem_of_nub, <- not_eq_None_Some, dict_get_None.
  destruct (decide (k ∈ map fst d)); naive_solver.
Qed.

Lemma str_in_spec x l : str_in x l = true ↔ x ∈ l.
Proof. unfold str_in. apply bool_decide_eq_true. Qed.

Lemma str_eq_json_spec x h : str_eq_json x h = true ↔ h = JStr x.
Proof.
  destruct h; cbn; try (split; [done | discriminate]).
  destruct (String.eqb_spec x s); naive_solver.
Qed.

(** ** The diff planner *)

Lemma plan_remote_step s files acc p :
  is_Some (dict_get files p) →
  (on_disk s p → is_Some (disk_digest s p)) →
  plan_remote (self s) files acc p s
  = (Ok (inl (acc ++ match classify s files p with
                     | Some a => [(p, a)]
                     | None => []
                     end)), s).
Proof.
  intros [h Hh] Hr. unfold plan_remote, classify, on_disk in *.
  unfold bind, get_fs, open_rb, bind, get_fs, lift_os, ret, raise.
  destruct (os_path_exists _ _) eqn:Hex; [|done].
  destruct Hr as [d Hd]; [done|]. rewrite Hd, Hh. unfold disk_digest in Hd.
  destruct (read_file _ _) as [e|data]; [done|]. injection Hd as <-.
  rewrite _sha256File_spec. cbn [buf].
  destruct (str_eq_json _ h); [by rewrite app_nil_r | done].
Qed.

Lemma plan_remote_loop s files l acc :
  (∀ p, p ∈ l → is_Some (dict_get files p)) →
  (∀ p, p ∈ l → on_disk s p → is_Some (disk_digest s p)) →
  for_loop l (plan_remote (self s) files) acc s
  = (Ok (inl (acc ++ omap (fun p => pair p <$> classify s files p) l)), s).
Proof.
  revert acc. induction l as [|p l IH]; intros acc Hk Hr; cbn [for_loop omap].
  - by rewrite app_nil_r.
  - unfold bind at 1. rewrite plan_remote_step; [|apply Hk; left|apply Hr; left].
    rewrite IH; [|intros; apply Hk; by right|intros ? ?; apply Hr; by right].
    rewrite <- app_assoc. destruct (classify s files p) eqn:Hc; cbn; by rewrite Hc.
Qed.

Lemma plan_local_loop s fileList l acc :
  for_loop l (plan_local fileList) acc s
  = (Ok (inl (acc ++ map (fun p => (p, DELETE)) (filter (fun p => p ∉ fileList) l))), s).
Proof.
  revert acc. induction l as [|p l IH]; intros acc; cbn [for_loop].
  - by rewrite app_nil_r.
  - unfold bind at 1, plan_local at 1, str_in.
    destruct (decide (p ∈ fileList)) as [Hin|Hin].
    + rewrite filter_cons_False by naive_solver.
      rewrite bool_decide_eq_true_2 by done. cbn [negb]. unfold ret at 1. apply IH.
    + rewrite filter_cons_True by done.
      rewrite bool_decide_eq_false_2 by done. cbn [negb]. unfold ret at 1.
      rewrite IH. unfold dict_set. by rewrite <- app_assoc.
Qed.

(** The planner computes [plan_of] and changes nothing. *)
Lemma plan_files_run s files local :
  py_getitem (localInstanceInfo (self s)) "files" = Ok (JDict local) →
  (∀ p, p ∈ dict_keys files → on_disk s p → is_Some (disk_digest s p)) →
  plan_files files s = (Ok (plan_of s files local), s).
Proof.
  intros Hl Hr. unfold plan_files, bind at 1, get_self.
  unfold bind at 1. rewrite plan_remote_loop; [|by intros; apply dict_keys_is_Some|done].
  unfold bind at 1, lift. rewrite Hl. unfold bind at 1. cbn [py_keys].
  unfold bind at 1. by rewrite plan_local_loop.
Qed.

Lemma plan_of_keys s files local :
  map fst (plan_of s files local)
  = filter (fun p => is_Some (classify s files p)) (dict_keys files)
    ++ filter (fun p => p ∉ dict_keys files) (dict_keys local).
Proof.
  unfold plan_of. rewrite map_app. f_equal.
  - induction (dict_keys files) as [|p l IH]; cbn; [done|].
    destruct (classify s files p) eqn:Hc; cbn; case_decide as Hd.
    + by rewrite IH.
    + by destruct Hd.
    + by destruct Hd.
    + done.
  - rewrite map_map. cbn. by rewrite map_id.
Qed.

Lemma plan_of_NoDup s files local : NoDup (map fst (plan_of s files local)).
Proof.
  rewrite plan_of_keys. apply NoDup_app. split_and!.
  - apply NoDup_filter, NoDup_nub.
  - intros p. rewrite !list_elem_of_filter. naive_solver.
  - apply NoDup_filter, NoDup_nub.
Qed.

Lemma plan_of_remote s files local p :
  p ∈ dict_keys files → dict_get (plan_of s files local) p = classify s files p.
Proof.
  intros Hin. destruct (classify s files p) as [a|] eqn:Hc.
  - apply dict_get_NoDup; [apply plan_of_NoDup|].
    unfold plan_of. apply elem_of_app. left.
    apply list_elem_of_omap. exists p. by rewrite Hc.
  - apply dict_get_None. rewrite plan_of_keys, elem_of_app, !list_elem_of_filter.
    rewrite Hc. intros [[[? ?] _]|[? _]]; done.
Qed.

Lemma plan_of_local s files local p :
  p ∉ dict_keys files →
  dict_get (plan_of s files local) p
  = if decide (p ∈ dict_keys local) then Some DELETE else None.
Proof.
  intros Hnin. case_decide as Hl.
  - apply dict_get_NoDup; [apply plan_of_NoDup|].
    unfold plan_of. apply elem_of_app. right.
    apply list_elem_of_fmap. exists p. split; [done|]. by apply list_elem_of_filter.
  - apply dict_get_None. rewrite plan_of_keys, elem_of_app, !list_elem_of_filter.
    naive_solver.
Qed.

(** C2.  For every remote file map, local record and file tree in which the
    remote files present on disk can be read, the planner returns a plan,
    leaves the state as it was, and the plan gives: New to a remote path
    that is not on disk (whatever the local record says), Modify to a remote
    path on disk whose digest differs from the remote one, nothing to a
    remote path on disk with the remote digest, Delete to a path of the
    local record that is not in the remote map, nothing to any other path;
    and no path has two entries. *)
Theorem plan_files_classifies (s : State) (files local : pydict json) :
  py_getitem (localInstanceInfo (self s)) "files" = Ok (JDict local) →
  (∀ p, p ∈ dict_keys files → on_disk s p → is_Some (disk_digest s p)) →
  ∃ plan : pydict Z,
    plan_files files s = (Ok plan, s)
    ∧ NoDup (map fst plan)
    ∧ (∀ p, p ∈ dict_keys files → ¬ on_disk s p → dict_get plan p = Some NEW)
    ∧ (∀ p h d, dict_get files p = Some h → on_disk s p →
         disk_digest s p = Some d → h ≠ JStr d → dict_get plan p = Some MODIFY)
    ∧ (∀ p d, dict_get files p = Some (JStr d) → on_disk s p →
         disk_digest s p = Some d → dict_get plan p = None)
    ∧ (∀ p, p ∈ dict_keys local → p ∉ dict_keys files →
         dict_get plan p = Some DELETE)
    ∧ (∀ p, p ∉ dict_keys local → p ∉ dict_keys files → dict_get plan p = None).
Proof.
  intros Hl Hr. exists (plan_of s files local).
  split; [by apply plan_files_run|]. split; [apply plan_of_NoDup|].
  split_and!.
  - intros p Hin Hnd. rewrite plan_of_remote by done. unfold classify.
    unfold on_disk in Hnd. by destruct (os_path_exists _ _).
  - intros p h d Hh Hd Hdig Hne.
    rewrite plan_of_remote by (apply dict_keys_is_Some; by rewrite Hh).
    unfold classify. unfold on_disk in Hd. rewrite Hd, Hdig, Hh.
    destruct (str_eq_json d h) eqn:Heq; [|done].
    apply str_eq_json_spec in Heq. done.
  - intros p d Hh Hd Hdig.
    rewrite plan_of_remote by (apply dict_keys_is_Some; by rewrite Hh).
    unfold classify. unfold on_disk in Hd. rewrite Hd, Hdig, Hh.
    by rewrite (proj2 (str_eq_json_spec d (JStr d))).
  - intros p Hin Hnin. rewrite plan_of_local by done. by rewrite decide_True.
  - intros p Hin Hnin. rewrite plan_of_local by done. by rewrite decide_False.
Qed.



(** ** What a method leaves alone *)

Section Keeps.
Context (P : relation State) `{!PreOrder P}.

Lemma keeps_ret {A} (a : A) : keeps P (ret a).
Proof. by intros s o s' [= _ <-]. Qed.

Lemma keeps_raise {A} e : keeps P (@raise A e).
Proof. by intros s o s' [= _ <-]. Qed.

Lemma keeps_lift {A} (x : outcome A) : keeps P (lift x).
Proof. by intros s o s' [= _ <-]. Qed.

Lemma keeps_lift_os {A} (x : oserror + A) : keeps P (lift_os x).
Proof. destruct x; [apply keeps_raise | apply keeps_ret]. Qed.

Lemma keeps_get_self : keeps P get_self.
Proof. by intros s o s' [= _ <-]. Qed.

Lemma keeps_get_world : keeps P get_world.
Proof. by intros s o s' [= _ <-]. Qed.

Lemma keeps_get_fs : keeps P get_fs.
Proof. by intros s o s' [= _ <-]. Qed.

Lemma keeps_bind {A B} (m : M A) (k : A → M B) :
  keeps P m → (∀ a, keeps P (k a)) → keeps P (bind m k).
Proof.
  intros Hm Hk s o s' Hrun. unfold bind in Hrun.
  destruct (m s) as [[a|e] s1] eqn:Hms.
  - transitivity s1; [by eapply Hm | by eapply Hk].
  - injection Hrun as _ <-. by eapply Hm.
Qed.

Lemma keeps_try_except {A} (m : M A) (h : exn → M A) :
  keeps P m → (∀ e, keeps P (h e)) → keeps P (try_except m h).
Proof.
  intros Hm Hh s o s' Hrun. unfold try_except in Hrun.
  destruct (m s) as [[a|e] s1] eqn:Hms.
  - injection Hrun as _ <-. by eapply Hm.
  - assert (P s s1) by by eapply Hm.
    destruct e; try (transitivity s1; [done | by eapply Hh]).
    by injection Hrun as _ <-.
Qed.

Lemma keeps_for_loop {A B R} (l : list A) (body : B → A → M (B + R)) acc :
  (∀ b a, keeps P (body b a)) → keeps P (for_loop l body acc).
Proof.
  intros Hb. revert acc. induction l as [|a l IH]; intros acc; cbn [for_loop].
  - apply keeps_ret.
  - apply keeps_bind; [apply Hb|]. intros [b|r]; [apply IH | apply keeps_ret].
Qed.

Lemma keeps_open_rb p : keeps P (open_rb p).
Proof.
  unfold open_rb. apply keeps_bind; [apply keeps_get_fs|]. intros f.
  apply keeps_bind; [apply keeps_lift_os|]. intros d. apply keeps_ret.
Qed.

End Keeps.

Create HintDb keeps discriminated.

(** One structural step of a [keeps] goal. *)
Ltac keeps_step :=
  lazymatch goal with
  | |- keeps _ (bind _ _) => apply keeps_bind; [apply _ | | intros ?]
  | |- keeps _ (ret _) => apply keeps_ret; apply _
  | |- keeps _ (raise _) => apply keeps_raise; apply _
  | |- keeps _ (lift _) => apply keeps_lift; apply _
  | |- keeps _ (lift_os _) => apply keeps_lift_os; apply _
  | |- keeps _ get_self => apply keeps_get_self; apply _
  | |- keeps _ get_world => apply keeps_get_world; apply _
  | |- keeps _ get_fs => apply keeps_get_fs; apply _
  | |- keeps _ (open_rb _) => apply keeps_open_rb; apply _
  | |- keeps _ (try_except _ _) => apply keeps_try_except; [apply _ | | intros ?]
  | |- keeps _ (for_loop _ _ _) => apply keeps_for_loop; [apply _ | intros ? ?]
  | |- keeps _ (mkdir _) => unfold mkdir
  | |- keeps _ (remove _) => unfold remove
  | |- keeps _ (rmdir _) => unfold rmdir
  | |- keeps _ (chmod _ _) => unfold chmod
  | |- keeps _ (open_wb _) => unfold open_wb
  | |- keeps _ (match ?x with _ => _ end) => destruct x
  | |- keeps _ _ => solve [eauto with keeps typeclass_instances]
  end.

Ltac keeps_auto := repeat keeps_step.

(** A primitive keeps [P] when [P] holds between the states of each of its
    runs, which are read off its definition. *)
Ltac keeps_prim :=
  let s := fresh "s" in let o := fresh "o" in let s' := fresh "s'" in
  let H := fresh "H" in
  intros s o s' H; destruct s;
  repeat (unfold bind, get_world, put_world, get_self, put_self, assign, ret,
            raise, lift_os in H; cbn in H);
  repeat case_match; simplify_eq; unfold on_self, on_world; cbn;
  try done; try reflexivity.

#[global] Instance on_self_preorder Q `{!PreOrder Q} : PreOrder (on_self Q).
Proof.
  split; [intros s; unfold on_self; reflexivity|].
  intros s1 s2 s3; unfold on_self; etransitivity; eassumption.
Qed.

#[global] Instance on_world_preorder W `{!PreOrder W} : PreOrder (on_world W).
Proof.
  split; [intros s; unfold on_world; reflexivity|].
  intros s1 s2 s3; unfold on_world; etransitivity; eassumption.
Qed.

Section KeepsSelf.
Context (Q : relation Updater) `{!PreOrder Q} (E : Env).

Lemma keeps_self_time_time : keeps (on_self Q) (time_time E).
Proof. unfold time_time. keeps_prim. Qed.

Lemma keeps_self_requests_get_doc u : keeps (on_self Q) (requests_get_doc E u).
Proof. unfold requests_get_doc. keeps_prim. Qed.

Lemma keeps_self_requests_get_stream u : keeps (on_self Q) (requests_get_stream E u).
Proof. unfold requests_get_stream. keeps_prim. Qed.

Lemma keeps_self_TemporaryFile : keeps (on_self Q) (TemporaryFile E).
Proof. unfold TemporaryFile. keeps_prim. Qed.

Lemma keeps_self_close_temp id : keeps (on_self Q) (close_temp id).
Proof. unfold close_temp. keeps_prim. Qed.

Lemma keeps_self_fs_mutate op ev : keeps (on_self Q) (fs_mutate op ev).
Proof. unfold fs_mutate. keeps_prim. Qed.

Lemma keeps_self_copyfileobj src p : keeps (on_self Q) (copyfileobj E src p).
Proof. unfold copyfileobj. keeps_prim. Qed.

Lemma keeps_self_assign f : (∀ u, Q u (f u)) → keeps (on_self Q) (assign f).
Proof. intros Hf s o s' [= _ <-]. apply Hf. Qed.

End KeepsSelf.

Section KeepsWorld.
Context (W : relation World) `{!PreOrder W}.

Lemma keeps_world_assign f : keeps (on_world W) (assign f).
Proof. intros s o s' [= _ <-]. unfold on_world. cbn. reflexivity. Qed.

End KeepsWorld.



#[global] Hint Resolve checks_time checks_doc remembers_keep streams_get
  temps_open temps_close applies_mutate applies_copy : keeps.
#[global] Hint Extern 1 (keeps _ (assign _)) =>
  first [ apply remembers_keep | apply checks_assign; done ] : keeps.

Section MethodsKeep.
Context (E : Env) (P : relation State).

Lemma keeps_getRepositoryInformation `{!ChecksKeep E P} :
  keeps P (_getRepositoryInformation E).
Proof. unfold _getRepositoryInformation. keeps_auto. Qed.
Local Hint Resolve keeps_getRepositoryInformation : keeps.

Lemma keeps_getInstanceInformation_ `{!ChecksKeep E P} :
  keeps P (_getInstanceInformation E).
Proof. unfold _getInstanceInformation. keeps_auto. Qed.
Local Hint Resolve keeps_getInstanceInformation_ : keeps.

Lemma keeps_getNewestVersionInformation `{!ChecksKeep E P, !RemembersKeep P} :
  keeps P (_getNewestVersionInformation E).
Proof. unfold _getNewestVersionInformation. keeps_auto. Qed.
Local Hint Resolve keeps_getNewestVersionInformation : keeps.

Lemma keeps_getInstanceInformation `{!ChecksKeep E P} :
  keeps P (getInstanceInformation E).
Proof. unfold getInstanceInformation. keeps_auto. Qed.

Lemma keeps_getRepositoryInformation_public `{!ChecksKeep E P} :
  keeps P (getRepositoryInformation E).
Proof. unfold getRepositoryInformation. keeps_auto. Qed.

Lemma keeps_setInstance `{!ChecksKeep E P, !RemembersKeep P} name retrieveInfo :
  keeps P (setInstance E name retrieveInfo).
Proof. unfold setInstance. keeps_auto. Qed.

Lemma keeps_refresh_for_check `{!ChecksKeep E P, !RemembersKeep P} :
  keeps P (refresh_for_check E).
Proof. unfold refresh_for_check. keeps_auto. Qed.
Local Hint Resolve keeps_refresh_for_check : keeps.

Lemma keeps_plan_files `{!PreOrder P} files : keeps P (plan_files files).
Proof. unfold plan_files, plan_remote, plan_local. keeps_auto. Qed.
Local Hint Resolve keeps_plan_files : keeps.

Lemma keeps_checkFilesToUpdate `{!ChecksKeep E P, !RemembersKeep P} :
  keeps P (_checkFilesToUpdate E).
Proof. unfold _checkFilesToUpdate. keeps_auto. Qed.
Local Hint Resolve keeps_checkFilesToUpdate : keeps.

Lemma keeps_checkFilePermissions `{!PreOrder P} plan :
  keeps P (_checkFilePermissions plan).
Proof. unfold _checkFilePermissions. keeps_auto. Qed.
Local Hint Resolve keeps_checkFilePermissions : keeps.

Lemma keeps_createSubDirectories `{!AppliesKeep E P} f t :
  keeps P (_createSubDirectories f t).
Proof. unfold _createSubDirectories. keeps_auto. Qed.
Local Hint Resolve keeps_createSubDirectories : keeps.

Lemma keeps_deleteSubDirectories `{!AppliesKeep E P} f t :
  keeps P (_deleteSubDirectories f t).
Proof. unfold _deleteSubDirectories. keeps_auto. Qed.
Local Hint Resolve keeps_deleteSubDirectories : keeps.

Lemma keeps_download_loop `{!StreamsKeep E P} fuel ctr loc fh :
  keeps P (download_loop E fuel ctr loc fh).
Proof.
  revert ctr loc fh. induction fuel as [|fuel IH]; intros ctr loc fh; cbn [download_loop].
  - keeps_auto.
  - keeps_auto.
Qed.
Local Hint Resolve keeps_download_loop : keeps.

Lemma keeps_downloadFile `{!StreamsKeep E P, !TempsKeep E P} loc h : keeps P (_downloadFile E loc h).
Proof. unfold _downloadFile, downloadFile_why. keeps_auto. Qed.
Local Hint Resolve keeps_downloadFile : keeps.

Lemma keeps_close_all `{!TempsKeep E P} d : keeps P (close_all d).
Proof. unfold close_all. keeps_auto. Qed.
Local Hint Resolve keeps_close_all : keeps.

Lemma keeps_download_all `{!StreamsKeep E P, !TempsKeep E P} plan :
  keeps P (download_all E plan).
Proof. unfold download_all, download_entry. keeps_auto. Qed.
Local Hint Resolve keeps_download_all : keeps.

Lemma keeps_write_entry `{!AppliesKeep E P} u d f a : keeps P (write_entry E u d f a).
Proof. unfold write_entry. keeps_auto. Qed.
Local Hint Resolve keeps_write_entry : keeps.

Lemma keeps_apply_entry `{!AppliesKeep E P} plan d f : keeps P (apply_entry E plan d f).
Proof. unfold apply_entry, verify_entry. keeps_auto. Qed.
Local Hint Resolve keeps_apply_entry : keeps.

Lemma keeps_apply_entries `{!AppliesKeep E P} plan d l :
  keeps P (apply_entries E plan d l).
Proof. unfold apply_entries. keeps_auto. Qed.
Local Hint Resolve keeps_apply_entries : keeps.

Lemma keeps_updateInstance
    `{!ChecksKeep E P, !RemembersKeep P, !StreamsKeep E P, !TempsKeep E P,
      !AppliesKeep E P} :
  keeps P (updateInstance E).
Proof. unfold updateInstance, update_with. keeps_auto. Qed.

End MethodsKeep.

(** A relation on the object survives every interaction with the world. *)
Section SelfKeeps.
Context (Q : relation Updater) `{!PreOrder Q} (E : Env).
Hypothesis Q_frame : ∀ u u', remembered u' = remembered u → Q u u'.

#[local] Instance self_checks : ChecksKeep E (on_self Q).
Proof.
  split; [apply _ | by apply keeps_self_time_time
         | by apply keeps_self_requests_get_doc |].
  intros f Hf. apply keeps_self_assign. intros u. by apply Q_frame.
Qed.

#[local] Instance self_streams : StreamsKeep E (on_self Q).
Proof. split; [apply _ | by apply keeps_self_requests_get_stream]. Qed.

#[local] Instance self_temps : TempsKeep E (on_self Q).
Proof.
  split; [apply _ | by apply keeps_self_TemporaryFile | by apply keeps_self_close_temp].
Qed.

#[local] Instance self_applies : AppliesKeep E (on_self Q).
Proof.
  split; [apply _ | by apply keeps_self_fs_mutate | by apply keeps_self_copyfileobj].
Qed.

Lemma self_checks_keep : ChecksKeep E (on_self Q).
Proof. apply _. Qed.

Lemma self_streams_keep : StreamsKeep E (on_self Q).
Proof. apply _. Qed.

Lemma self_temps_keep : TempsKeep E (on_self Q).
Proof. apply _. Qed.

Lemma self_applies_keep : AppliesKeep E (on_self Q).
Proof. apply _. Qed.

Lemma self_remembers_keep :
  (∀ v r f sy u, Q u (remember_newest v r f sy u)) → RemembersKeep (on_self Q).
Proof. intros Hr v r f sy. apply keeps_self_assign. intros u. apply Hr. Qed.

End SelfKeeps.

(** ** Runs of sequenced methods *)

Lemma bind_inv {A B} (m : M A) (k : A → M B) s o s' :
  bind m k s = (o, s') →
  (∃ a s1, m s = (Ok a, s1) ∧ k a s1 = (o, s'))
  ∨ (∃ e, m s = (Raise e, s') ∧ o = Raise e).
Proof.
  unfold bind. destruct (m s) as [[a|e] s1]; intros Hrun.
  - left. by exists a, s1.
  - right. exists e. by injection Hrun as <- <-.
Qed.

Lemma bind_ok_inv {A B} (m : M A) (k : A → M B) s b s' :
  bind m k s = (Ok b, s') → ∃ a s1, m s = (Ok a, s1) ∧ k a s1 = (Ok b, s').
Proof. intros [?|(e & _ & ?)]%bind_inv; [done | discriminate]. Qed.

Lemma try_except_ok_inv {A} (m : M A) (h : exn → M A) s a s' :
  try_except m h s = (Ok a, s') →
  m s = (Ok a, s') ∨ (∃ e s1, m s = (Raise e, s1) ∧ h e s1 = (Ok a, s')).
Proof.
  unfold try_except. destruct (m s) as [[a1|e] s1]; intros Hrun; [by left|].
  right. exists e, s1. by destruct e.
Qed.

(** ** The order of version identities *)


Ltac cmp_cases :=
  repeat match goal with
  | H : context [Z.compare ?a ?b] |- _ => destruct (Z.compare_spec a b)
  | |- context [Z.compare ?a ?b] => destruct (Z.compare_spec a b)
  | H : context [Pos.compare ?a ?b] |- _ => destruct (Pos.compare_spec a b)
  | |- context [Pos.compare ?a ?b] => destruct (Pos.compare_spec a b)
  end.

(** [SFcompare] composes on [Lt] and [Eq], also on floats that are not
    normalised. *)
Lemma SFcompare_trans a b c c1 c2 :
  SFcompare a b = Some c1 → SFcompare b c = Some c2 →
  cmp_le c1 → cmp_le c2 → SFcompare a c = Some (cmp_seq c1 c2).
Proof.
  unfold cmp_le.
  destruct a as [sa|sa| |sa ma ea], b as [sb|sb| |sb mb eb], c as [sc|sc| |sc mc ec];
    cbn; try discriminate;
    repeat match goal with s : bool |- _ => destruct s end;
    cbn; change (Pos.compare_cont Eq) with Pos.compare;
    intros H1 H2 [-> | ->] [-> | ->]; cbn; try discriminate; try reflexivity;
    injection H1 as H1; injection H2 as H2; f_equal;
    cmp_cases; subst; cbn in *; try discriminate; try reflexivity; try lia.
Qed.

Lemma float_gt_compare a b : float_gt a b = true ↔ SFcompare b a = Some Lt.
Proof.
  unfold float_gt, SFltb. destruct (SFcompare b a) as [[]|]; naive_solver.
Qed.

Lemma float_eq_compare a b : float_eq a b = true ↔ SFcompare a b = Some Eq.
Proof.
  unfold float_eq, SFeqb. destruct (SFcompare a b) as [[]|]; naive_solver.
Qed.

Lemma SFcompare_Eq_sym a b : SFcompare a b = Some Eq → SFcompare b a = Some Eq.
Proof.
  destruct a as [sa|sa| |sa ma ea], b as [sb|sb| |sb mb eb];
    cbn; try discriminate; try done;
    repeat match goal with s : bool |- _ => destruct s end;
    cbn; change (Pos.compare_cont Eq) with Pos.compare; try discriminate; try done;
    intros H; injection H as H; f_equal;
    cmp_cases; subst; cbn in *; try discriminate; try reflexivity; try lia.
Qed.

Lemma newer_trans a b c : newer a b → newer b c → newer a c.
Proof.
  destruct a as [va ra], b as [vb rb], c as [vc rc]. unfold newer. cbn.
  rewrite !float_gt_compare, !float_eq_compare.
  intros [Hab|[Hab Hr1]] [Hbc|[Hbc Hr2]].
  - left. apply (SFcompare_trans _ _ _ _ _ Hbc Hab); by left.
  - left. apply SFcompare_Eq_sym in Hbc.
    apply (SFcompare_trans _ _ _ _ _ Hbc Hab); [by right | by left].
  - left. apply SFcompare_Eq_sym in Hab.
    apply (SFcompare_trans _ _ _ _ _ Hbc Hab); [by left | by right].
  - right. split; [|lia].
    apply (SFcompare_trans _ _ _ _ _ Hab Hbc); by right.
Qed.

#[global] Instance identity_le_preorder : PreOrder identity_le.
Proof.
  split; [by left|]. intros a b c [->|Hab] [->|Hbc].
  - by left.
  - by right.
  - by right.
  - right. by eapply newer_trans.
Qed.

(** The test of [remember_newest] is the order [newer], or nothing recorded. *)
Lemma remember_newest_test version rev files symlinks u :
  remember_newest version rev files symlinks u
  = if decide (newer (version, rev) (newest_identity u) ∨ ¬ recorded u)
    then set_newest version rev files symlinks u
    else u.
Proof.
  unfold remember_newest, newer, recorded, newest_identity. cbn.
  destruct (float_gt version (newestVersion u)) eqn:Hgt; cbn.
  { rewrite decide_True; [done | by left; left]. }
  destruct (float_eq version (newestVersion u)) eqn:Heq,
    (Z.gtb_spec rev (newestRev u)) as [Hr|Hr]; cbn;
    try (rewrite decide_True; [done | left; right; split; [done | lia]]);
    destruct (newestFiles u), (newestSymlinks u); cbn;
    try (rewrite decide_True; [done | right; naive_solver]);
    rewrite decide_False; try done;
    intros [[?|[? ?]]|Hn]; try done; try lia; apply Hn; done.
Qed.

(** ** The newest known version *)

#[global] Instance same_newest_preorder : PreOrder same_newest.
Proof.
  split; [done|]. unfold same_newest. intros u1 u2 u3 H1 H2. congruence.
Qed.

#[global] Instance grows_preorder : PreOrder grows.
Proof.
  split; [by intros u Hu|]. unfold grows. intros u1 u2 u3 H12 H23 Hu.
  destruct (H12 Hu) as [Hu2 Hle]. destruct (H23 Hu2) as [Hu3 Hle'].
  split; [done|]. by etransitivity.
Qed.

Lemma same_newest_grows u u' : remembered u' = remembered u → grows u u'.
Proof.
  unfold remembered, grows, recorded, newest_identity. intros [= -> -> -> ->]. done.
Qed.

Lemma remember_newest_grows v r f sy u : grows u (remember_newest v r f sy u).
Proof.
  rewrite remember_newest_test. case_decide as Hd; [|done].
  intros Hu. split; [done|]. right. by destruct Hd.
Qed.

Lemma remember_newest_same v r f sy u :
  ¬ (newer (v, r) (newest_identity u) ∨ ¬ recorded u) →
  remember_newest v r f sy u = u.
Proof. intros Hn. rewrite remember_newest_test. by rewrite decide_False. Qed.

Lemma remember_newest_instanceInfo v r f sy u :
  instanceInfo (remember_newest v r f sy u) = instanceInfo u.
Proof. unfold remember_newest. by case_match. Qed.

(** A successful check: the instance information is fetched, which leaves
    the remembered state alone; the version information is read off it; and
    the remembered state is updated by [remember_newest]. *)
Lemma getNewestVersionInformation_run E s s' :
  _getNewestVersionInformation E s = (Ok true, s') →
  ∃ s1 version rev files symlinks t,
    remembered (self s1) = remembered (self s)
    ∧ parse_version_information (instanceInfo (self s1))
      = Ok (version, rev, files, symlinks)
    ∧ self s' = set_lastChecked t (remember_newest version rev files symlinks (self s1)).
Proof.
  unfold _getNewestVersionInformation.
  intros (ok & s1 & Hfetch & Hrun)%bind_ok_inv.
  assert (on_self same_newest s s1) as Hsame.
  { revert Hfetch. apply keeps_try_except; [apply _| |intros; apply keeps_ret; apply _].
    apply keeps_bind; [apply _| |intros []; [apply keeps_ret | apply keeps_raise]; apply _].
    apply keeps_getInstanceInformation_.
    apply self_checks_keep; [apply _ | by intros u u' Hr]. }
  destruct ok; cbn [negb] in Hrun; [|discriminate].
  apply bind_ok_inv in Hrun as (parsed & s2 & Hparse & Hrun).
  assert (s2 = s1 ∧ ∃ r, parsed = Some r
          ∧ parse_version_information (instanceInfo (self s1)) = Ok r)
    as (-> & [[[version rev] files] symlinks] & -> & Hp).
  { apply try_except_ok_inv in Hparse as [Hparse|(e & s3 & _ & Hparse)].
    - unfold bind, get_self, lift, ret in Hparse.
      destruct (parse_version_information _) as [r|e]; [|discriminate].
      injection Hparse as <- <-. eauto.
    - unfold ret in Hparse. injection Hparse as <- <-.
      unfold ret in Hrun. discriminate. }
  unfold bind, assign, time_time, bind, get_world, put_world, ret in Hrun. cbn in Hrun.
  injection Hrun as <-. cbn [self].
  eexists s1, version, rev, files, symlinks, _. done.
Qed.

(** C8.  A successful check overwrites the remembered newest state only
    with a fetched identity that is strictly newer in the lexicographic
    order (version first), or when no files or symlinks were recorded; a
    check that fetched an identity which is not newer leaves a recorded
    state as it was; and along any sequence of calls of the public methods
    and of the checks a recorded state stays recorded and its identity
    never decreases. *)
Theorem newest_known_monotone (E : Env) :
  (∀ s s',
     _getNewestVersionInformation E s = (Ok true, s') →
     ∃ version rev files symlinks,
       parse_version_information (instanceInfo (self s'))
       = Ok (version, rev, files, symlinks)
       ∧ (remembered (self s') ≠ remembered (self s) →
          (newer (version, rev) (newest_identity (self s)) ∨ ¬ recorded (self s))
          ∧ remembered (self s') = (version, rev, Some files, Some symlinks))
       ∧ (recorded (self s) →
          ¬ newer (version, rev) (newest_identity (self s)) →
          remembered (self s') = remembered (self s)))
  ∧ (∀ s s',
       lifetime E s s' →
       recorded (self s) →
       recorded (self s')
       ∧ identity_le (newest_identity (self s)) (newest_identity (self s'))).
Proof.
  split.
  - intros s s' (s1 & version & rev & files & symlinks & t & Hsame & Hp & Hs')
      %getNewestVersionInformation_run.
    exists version, rev, files, symlinks. rewrite Hs'.
    assert (newest_identity (self s1) = newest_identity (self s)
            ∧ (recorded (self s1) ↔ recorded (self s))) as [Hid Hrec].
    { unfold remembered, newest_identity, recorded in *.
      injection Hsame as -> -> -> ->. done. }
    split_and!.
    + cbn [instanceInfo set_lastChecked]. by rewrite remember_newest_instanceInfo.
    + intros Hne.
      destruct (decide (newer (version, rev) (newest_identity (self s1))
                        ∨ ¬ recorded (self s1))) as [Hd|Hd].
      * rewrite remember_newest_test, decide_True by done.
        rewrite Hid, Hrec in Hd. done.
      * rewrite remember_newest_same in Hne by done. by destruct Hne.
    + intros Hrecd Hnew. rewrite remember_newest_same; [done|].
      rewrite Hid, Hrec. naive_solver.
  - intros s s' Hlife. induction Hlife as [s|s1 s2 s3 Hcall _ IH]; [done|].
    intros Hrec.
    assert (on_self grows s1 s2) as Hg.
    { pose proof (self_checks_keep grows E same_newest_grows).
      pose proof (self_streams_keep grows E).
      pose proof (self_temps_keep grows E).
      pose proof (self_applies_keep grows E).
      pose proof (self_remembers_keep grows remember_newest_grows).
      destruct Hcall as [? ? ? Hrun|? ? ? Hrun|? ? ? Hrun|? ? ? Hrun|? ? ? Hrun
                        |? ? ? ? ? Hrun]; revert Hrun.
      - by apply keeps_getNewestVersionInformation.
      - by apply keeps_checkFilesToUpdate.
      - by apply keeps_getInstanceInformation.
      - by apply keeps_updateInstance.
      - by apply keeps_getRepositoryInformation_public.
      - by apply keeps_setInstance. }
    destruct (Hg Hrec) as [Hrec2 Hle]. destruct (IH Hrec2) as [Hrec3 Hle'].
    split; [done|]. by etransitivity.
Qed.

(** ** The download loop *)

Lemma write_chunks_nil fh : write_chunks fh [] = fh.
Proof. done. Qed.

(** On a fresh file the chunks of a response arrive as their concatenation. *)
Lemma write_chunks_concat fh chunks :
  pos fh = length (buf fh) →
  write_chunks fh chunks
  = FileObj (buf fh ++ concat chunks) (length (buf fh ++ concat chunks)).
Proof.
  unfold write_chunks.
  revert fh. induction chunks as [|c chunks IH]; intros [b p] Hp; cbn in *.
  - subst. by rewrite app_nil_r.
  - subst. destruct c as [|x c].
    + by rewrite IH.
    + rewrite IH; cbn [write buf pos].
      * rewrite firstn_all, drop_ge, app_nil_r by lia.
        by rewrite <- !app_assoc.
      * rewrite firstn_all, drop_ge, app_nil_r by lia. by rewrite length_app.
Qed.

(** The loop never runs out of the iterations [download_fuel] gives it. *)
Lemma download_loop_fuel E fuel ctr loc fh s o s' :
  (1 <= fuel)%nat →
  max_redirections (self s) - ctr + 2 <= Z.of_nat fuel →
  download_loop E fuel ctr loc fh s = (o, s') →
  o ≠ Raise OutOfFuel.
Proof.
  revert ctr loc fh s. induction fuel as [|fuel IH]; intros ctr loc fh s Hf1 Hf; [lia|].
  destruct s as [u w]. cbn [self] in Hf. cbn [download_loop]. unfold bind at 1, get_self. cbn [self].
  destruct (Z.gtb_spec ctr (max_redirections u)) as [Hgt|Hle]; [by intros [= <- _]|].
  destruct (repoInstanceLocation u) as [repo|]; [|by intros [= <- _]].
  unfold bind at 1, requests_get_stream, bind, get_world, put_world, ret. cbn.
  destruct (http_file E (tick w) _) as [chunks|]; [|by intros [= <- _]].
  destruct (newestSymlinks u) as [symlinks|]; [|by intros [= <- _]].
  destruct (negb _); [by intros [= <- _]|].
  destruct (decode_ascii _) as [text|]; [|by intros [= <- _]].
  apply IH; cbn; lia.
Qed.

(** The loop follows a chain of [n] redirections to its end exactly when
    the counter stays within [max_redirections]. *)
Lemma download_loop_follow E n fuel ctr loc fh s final :
  follow E (self s) n (tick (world s)) loc fh = Some final →
  (1 <= fuel)%nat →
  max_redirections (self s) - ctr + 2 <= Z.of_nat fuel →
  ∃ s',
    download_loop E fuel ctr loc fh s
    = (Ok (if decide (ctr + Z.of_nat n <= max_redirections (self s))
           then inr final else inl TooManyRedirections), s')
    ∧ self s' = self s.
Proof.
  revert fuel ctr loc fh s.
  induction n as [|n IH]; intros fuel ctr loc fh [u w] Hfollow Hf1 Hf;
    (destruct fuel as [|fuel]; [lia|]); cbn [self world] in *;
    cbn [download_loop]; unfold bind at 1, get_self; cbn [self];
    (destruct (Z.gtb_spec ctr (max_redirections u)) as [Hgt|Hle];
     [rewrite decide_False by lia; by eexists|]);
    cbn [follow] in Hfollow;
    destruct (repoInstanceLocation u) as [repo|]; try discriminate;
    destruct (newestSymlinks u) as [symlinks|]; try discriminate;
    unfold bind at 1, requests_get_stream, bind, get_world, put_world, ret;
    cbn [world self tick];
    destruct (http_file E (tick w) _) as [chunks|]; try discriminate;
    destruct (str_in_list loc symlinks); try discriminate; cbn [negb].
  - injection Hfollow as <-. rewrite decide_True by lia. by eexists.
  - destruct (readline _) as [line fh'].
    destruct (decode_ascii line) as [text|]; [|discriminate].
    edestruct (IH fuel (ctr + 1)) as (s' & -> & Hs'); [exact Hfollow|lia|cbn; lia|].
    cbn [self] in *. exists s'. split; [|done].
    repeat f_equal. apply decide_ext. lia.
Qed.

(** A download along a chain of [n] redirections. *)
Lemma downloadFile_why_follow E s loc file_hash n final :
  tmp_ok E (tick (world s)) = true →
  follow E (self s) n (S (tick (world s))) loc (FileObj [] 0%nat) = Some final →
  ∃ s',
    downloadFile_why E loc file_hash s
    = (Ok (if decide (Z.of_nat n <= max_redirections (self s))
           then if str_eq_json (SHA256.hexdigest (buf final)) file_hash
                then inr (next_temp (world s), seek final 0%nat)
                else inl None
           else inl (Some TooManyRedirections)), s').
Proof.
  intros Htmp Hfollow. destruct s as [u w]. cbn [self world] in *.
  unfold downloadFile_why, bind at 1, TemporaryFile, bind, get_world, put_world, ret.
  cbn [world]. rewrite Htmp. cbn [world self]. unfold get_self at 1. cbn [self].
  set (s1 := {| self := u; world := _ |}).
  destruct (download_loop_follow E n (download_fuel u) 0 loc (FileObj [] 0%nat) s1 final)
    as (s' & Hrun & _); [done | unfold download_fuel; lia
                        | unfold download_fuel; cbn; lia |].
  rewrite Hrun. clear Hrun. cbn [self s1]. rewrite Z.add_0_l.
  exists s'. case_decide; [|reflexivity].
  rewrite _sha256File_spec. cbn [seek buf].
  destruct (str_eq_json _ file_hash); reflexivity.
Qed.

(** C3.  With the configured maximum of 10 redirections, a download whose
    path starts a symlink chain of [n] redirections (the temporary file and
    every request succeeding) returns the final file when [n <= 10] and the
    digest of that file is the expected one, and fails with "too many
    redirections" when [n >= 11]. *)
Theorem redirection_bound (E : Env) (s : State) (loc : string) (file_hash : json)
    (n : nat) (final : fileobj) :
  max_redirections (self s) = 10 →
  tmp_ok E (tick (world s)) = true →
  follow E (self s) n (S (tick (world s))) loc (FileObj [] 0%nat) = Some final →
  ((n <= 10)%nat →
   str_eq_json (SHA256.hexdigest (buf final)) file_hash = true →
   ∃ s', downloadFile_why E loc file_hash s
         = (Ok (inr (next_temp (world s), seek final 0%nat)), s'))
  ∧ ((11 <= n)%nat →
     ∃ s', downloadFile_why E loc file_hash s
           = (Ok (inl (Some TooManyRedirections)), s')).
Proof.
  intros Hmax Htmp Hfollow.
  destruct (downloadFile_why_follow E s loc file_hash n final Htmp Hfollow)
    as (s' & Hrun).
  rewrite Hmax in Hrun. split.
  - intros Hn Hdig. rewrite decide_True, Hdig in Hrun by lia. by exists s'.
  - intros Hn. rewrite decide_False in Hrun by lia. by exists s'.
Qed.

(** ** Relations on the world *)

#[global] Instance extends_preorder ok : PreOrder (extends ok).
Proof.
  split.
  - intros w. exists []. by rewrite app_nil_r.
  - intros w1 w2 w3 (t1 & H1 & F1) (t2 & H2 & F2). exists (t1 ++ t2).
    split; [by rewrite H2, H1, app_assoc | by apply Forall_app].
Qed.

#[global] Instance tree_untouched_preorder : PreOrder tree_untouched.
Proof.
  split; [by split|]. intros w1 w2 w3 [H1 X1] [H2 X2].
  split; [congruence | by etransitivity].
Qed.

#[global] Instance only_documents_preorder : PreOrder only_documents.
Proof.
  split; [intros w; unfold only_documents; by split_and! |].
  intros w1 w2 w3 (H1 & T1 & N1 & X1) (H2 & T2 & N2 & X2).
  unfold only_documents. split_and!; [congruence.. | by etransitivity].
Qed.


(** The trace of a primitive: unchanged, or one event longer. *)
Ltac trace_step :=
  first [ exists []; split; [by rewrite app_nil_r | by constructor]
        | eexists [_]; split; [done | by repeat constructor] ].

Ltac world_prim :=
  keeps_prim; unfold tree_untouched, only_documents; cbn;
  repeat split; try done; try trace_step.

#[global] Instance untouched_checks E : ChecksKeep E (on_world tree_untouched).
Proof.
  split; [apply _ | unfold time_time; world_prim
         | intros u; unfold requests_get_doc; world_prim |].
  intros f _. apply keeps_world_assign. apply _.
Qed.

#[global] Instance untouched_remembers : RemembersKeep (on_world tree_untouched).
Proof. intros v r f sy. apply keeps_world_assign. apply _. Qed.

#[global] Instance untouched_streams E : StreamsKeep E (on_world tree_untouched).
Proof. split; [apply _ | intros u; unfold requests_get_stream; world_prim]. Qed.

#[global] Instance untouched_temps E : TempsKeep E (on_world tree_untouched).
Proof.
  split; [apply _ | unfold TemporaryFile; world_prim
         | intros id; unfold close_temp; world_prim].
Qed.

#[global] Instance documents_checks E : ChecksKeep E (on_world only_documents).
Proof.
  split; [apply _ | unfold time_time; world_prim
         | intros u; unfold requests_get_doc; world_prim |].
  intros f _. apply keeps_world_assign. apply _.
Qed.

#[global] Instance documents_remembers : RemembersKeep (on_world only_documents).
Proof. intros v r f sy. apply keeps_world_assign. apply _. Qed.

(** The permission audit changes nothing at all. *)
Lemma checkFilePermissions_pure plan s o s' :
  _checkFilePermissions plan s = (o, s') → s' = s.
Proof.
  intros Hrun. symmetry. revert Hrun.
  apply (keeps_checkFilePermissions eq).
Qed.

(** ** The empty plan *)

(** [_checkFilesToUpdate] is the check of the age of the version
    information followed by the planner on the newest files. *)
Lemma checkFilesToUpdate_run E s s1 files local :
  refresh_for_check E s = (Ok true, s1) →
  newestFiles (self s1) = Some files →
  py_getitem (localInstanceInfo (self s1)) "files" = Ok (JDict local) →
  (∀ p, p ∈ dict_keys files → on_disk s1 p → is_Some (disk_digest s1 p)) →
  _checkFilesToUpdate E s = (Ok (Some (plan_of s1 files local)), s1).
Proof.
  intros Hrefresh Hfiles Hlocal Hread. unfold _checkFilesToUpdate.
  unfold bind at 1. rewrite Hrefresh. cbn [negb].
  unfold bind at 1, get_self. rewrite Hfiles.
  unfold bind at 1. by rewrite (plan_files_run s1 files local Hlocal Hread).
Qed.

Lemma plan_of_empty s files local :
  (∀ p, p ∈ dict_keys files →
        on_disk s p ∧ ∃ d, disk_digest s p = Some d ∧ dict_get files p = Some (JStr d)) →
  (∀ p, p ∈ dict_keys local → p ∈ dict_keys files) →
  plan_of s files local = [].
Proof.
  intros Hremote Hlocal. unfold plan_of.
  assert (omap (fun p => pair p <$> classify s files p) (dict_keys files) = []) as ->.
  { assert (∀ p, p ∈ dict_keys files → classify s files p = None) as Hnone.
    { intros p (Hd & d & Hdig & Hget)%Hremote. unfold classify.
      unfold on_disk in Hd. rewrite Hd, Hdig, Hget.
      by rewrite (proj2 (str_eq_json_spec d (JStr d))). }
    clear Hremote Hlocal. revert Hnone. generalize (dict_keys files).
    intros l. induction l as [|p l IH]; intros Hnone; [done|]. cbn.
    rewrite Hnone by left. cbn. apply IH. intros; apply Hnone. by right. }
  assert (filter (fun p => p ∉ dict_keys files) (dict_keys local) = []) as ->; [|done].
  clear Hremote. revert Hlocal. generalize (dict_keys local).
  intros l. induction l as [|p l IH]; intros Hlocal; [done|].
  rewrite filter_cons_False.
  - apply IH. intros; apply Hlocal. by right.
  - intros Hn. apply Hn, Hlocal. left.
Qed.

(** C10.  When, with the version information at hand after the check of
    its age, every remote file is on disk with the remote digest and every
    file of the local record is in the remote map, [updateInstance] returns
    [True] in the state the check left: the file tree and the temporary
    files are as before, and the only requests made are those for the
    manifests. *)
Theorem empty_plan_is_noop (E : Env) (s s1 : State) (files local : pydict json) :
  refresh_for_check E s = (Ok true, s1) →
  newestFiles (self s1) = Some files →
  py_getitem (localInstanceInfo (self s1)) "files" = Ok (JDict local) →
  (∀ p, p ∈ dict_keys files →
        on_disk s1 p ∧ ∃ d, disk_digest s1 p = Some d ∧ dict_get files p = Some (JStr d)) →
  (∀ p, p ∈ dict_keys local → p ∈ dict_keys files) →
  updateInstance E s = (Ok true, s1)
  ∧ only_documents (world s) (world s1).
Proof.
  intros Hrefresh Hfiles Hlocal Hremote Hrec. split.
  - unfold updateInstance, _checkFilesToUpdate.
    unfold bind at 1. unfold bind at 1. rewrite Hrefresh. cbn [negb].
    unfold bind at 1, get_self. rewrite Hfiles.
    unfold bind at 1. rewrite (plan_files_run s1 files local Hlocal).
    + by rewrite plan_of_empty.
    + intros p Hp _. destruct (Hremote p Hp) as (_ & d & -> & _). by eexists.
  - revert Hrefresh. apply (keeps_refresh_for_check E (on_world only_documents)).
Qed.

(** ** Temporary files of a download *)

#[global] Instance same_temps_preorder : PreOrder same_temps.
Proof.
  split; [by split|]. intros w1 w2 w3 [H1 N1] [H2 N2]. split; congruence.
Qed.

#[global] Instance same_temps_streams E : StreamsKeep E (on_world same_temps).
Proof.
  split; [apply _|]. intros u. unfold requests_get_stream. keeps_prim.
Qed.

(** A download opens one temporary file, which it returns when it
    succeeds; when it fails the file, if it could be opened, stays open. *)
Lemma downloadFile_temps E loc h s r s' :
  _downloadFile E loc h s = (Ok r, s') →
  match r with
  | Some (id, _) =>
      id = next_temp (world s)
      ∧ next_temp (world s') = S id
      ∧ open_temps (world s') = open_temps (world s) ++ [id]
  | None =>
      (same_temps (world s) (world s'))
      ∨ (next_temp (world s') = S (next_temp (world s))
         ∧ open_temps (world s') = open_temps (world s) ++ [next_temp (world s)])
  end.
Proof.
  unfold _downloadFile, downloadFile_why.
  intros (x & s3 & Hrun & Hret)%bind_ok_inv.
  apply bind_ok_inv in Hrun as (t & s1 & Htmp & Hrun).
  destruct s as [u w].
  unfold TemporaryFile, bind, get_world, put_world, ret in Htmp. cbn in Htmp.
  destruct (tmp_ok E (tick w)).
  - injection Htmp as <- <-.
    apply bind_ok_inv in Hrun as (u' & s1 & [= <- <-] & Hrun).
    apply bind_ok_inv in Hrun as (res & s2 & Hloop & Hrun).
    assert (on_world same_temps {| self := u; world :=
              {| fs := fs w; open_temps := open_temps w ++ [next_temp w];
                 next_temp := S (next_temp w); tick := S (tick w);
                 trace := trace w ++ [EvTmpOpen (next_temp w)] |} |} s2)
      as [Hopen Hnext].
    { revert Hloop. apply keeps_download_loop. apply _. }
    cbn in Hopen, Hnext.
    destruct res as [why|fh].
    + injection Hrun as <- <-. injection Hret as <- <-. right. by cbn.
    + destruct (negb _); injection Hrun as <- <-; injection Hret as <- <-; cbn.
      * by right.
      * done.
  - injection Htmp as <- <-. injection Hrun as <- <-. injection Hret as <- <-.
    left. by split.
Qed.

Lemma dict_get_set {V} (d : pydict V) k v k' :
  dict_get (dict_set d k v) k' = if decide (k = k') then Some v else dict_get d k'.
Proof.
  unfold dict_set. rewrite dict_get_app. cbn.
  destruct (String.eqb_spec k k'); by case_decide.
Qed.

Lemma dict_get_in_keys {V} (d : pydict V) k v :
  dict_get d k = Some v → k ∈ map fst d.
Proof.
  intros Hg. destruct (decide (k ∈ map fst d)) as [|Hn]; [done|].
  apply dict_get_None in Hn. congruence.
Qed.

Lemma elem_of_handle_ids d id :
  id ∈ handle_ids d ↔ ∃ k fh, dict_get d k = Some (id, fh).
Proof.
  unfold handle_ids. rewrite list_elem_of_omap. split.
  - intros (k & _ & Hk). destruct (dict_get d k) as [[id' fh]|] eqn:Hg; [|done].
    injection Hk as ->. eauto.
  - intros (k & fh & Hg). exists k. split; [|by rewrite Hg].
    apply dict_keys_is_Some. by rewrite Hg.
Qed.

(** Closing the handles of [d] succeeds and removes exactly their
    identifiers from the open temporary files. *)
Lemma close_loop_run (d : pydict (nat * fileobj)) l s :
  (∀ k, k ∈ l → is_Some (dict_get d k)) →
  ∃ s',
    for_loop (R := Empty_set) l
      (fun (_ : unit) fileHandle =>
         match dict_get d fileHandle with
         | None => raise (KeyError fileHandle)
         | Some (id, _) => close_temp id ;;; ret (inl tt)
         end) tt s
    = (Ok (inl tt), s')
    ∧ next_temp (world s') = next_temp (world s)
    ∧ ∀ i, i ∈ open_temps (world s')
           ↔ i ∈ open_temps (world s)
             ∧ ∀ k id fh, k ∈ l → dict_get d k = Some (id, fh) → i ≠ id.
Proof.
  revert s. induction l as [|k l IH]; intros s Hl; cbn [for_loop].
  - exists s. split_and!; [done..|]. intros i. split; [|naive_solver].
    intros Hi. split; [done|]. intros k id fh Hk. by apply elem_of_nil in Hk.
  - destruct (Hl k) as [[id fh] Hg]; [left|]. unfold bind at 1. rewrite Hg.
    unfold bind at 1, close_temp, bind, get_world, put_world, ret. cbn [world].
    set (s1 := {| self := self s; world := _ |}).
    destruct (IH s1) as (s' & Hrun & Hnext & Hopen); [intros; apply Hl; by right|].
    exists s'. split_and!; [done | done |].
    intros i. rewrite Hopen. cbn. rewrite list_elem_of_filter. split.
    + intros [[Hne Hi] Hrest]. split; [done|]. intros k' id' fh' Hk' Hg'.
      apply elem_of_cons in Hk' as [->|Hk']; [congruence | by eapply Hrest].
    + intros [Hi Hall]. split_and!; [|done|].
      * eapply Hall; [left | done].
      * intros k' id' fh' Hk'. apply Hall. by right.
Qed.

Lemma close_all_run d s :
  ∃ s',
    close_all d s = (Ok tt, s')
    ∧ next_temp (world s') = next_temp (world s)
    ∧ ∀ i, i ∈ open_temps (world s')
           ↔ i ∈ open_temps (world s) ∧ i ∉ handle_ids d.
Proof.
  destruct (close_loop_run d (dict_keys d) s) as (s' & Hrun & Hnext & Hopen).
  { intros k. apply dict_keys_is_Some. }
  exists s'. unfold close_all, bind at 1. rewrite Hrun. split_and!; [done..|].
  intros i. rewrite Hopen, elem_of_handle_ids. split.
  - intros [Hi Hall]. split; [done|]. intros (k & fh & Hg).
    eapply Hall; [|done..]. apply dict_keys_is_Some. by rewrite Hg.
  - intros [Hi Hn]. split; [done|]. intros k id fh _ Hg ->. apply Hn. eauto.
Qed.



(** ** The apply loop *)

Lemma for_loop_app {A B R} (l1 l2 : list A) (body : B → A → M (B + R)) acc acc' s s1 :
  for_loop l1 body acc s = (Ok (inl acc'), s1) →
  for_loop (l1 ++ l2) body acc s = for_loop l2 body acc' s1.
Proof.
  revert acc s. induction l1 as [|a l1 IH]; intros acc s Hrun; cbn [for_loop app] in *.
  - by injection Hrun as <- <-.
  - unfold bind in *. destruct (body acc a s) as [[[b|r]|e] s']; try discriminate.
    by apply IH.
Qed.

(** C6.  When the entries before a New or Modify entry were applied, the
    bytes of the entry were copied to its destination, and the digest of the
    file read back differs from the expected one, the apply loop returns
    [False] in the state the copy left: the entries after it are not
    processed and what was applied stays applied. *)
Theorem post_write_mismatch_aborts (E : Env) (plan : pydict Z)
    (d : pydict (nat * fileobj)) (pre post : list string) (f : string) (action : Z)
    (s s1 s2 : State) (files : pydict json) (h : json) (dg : string) :
  apply_entries E plan d pre s = (Ok (inl tt), s1) →
  dict_get plan f = Some action →
  action ≠ DELETE →
  write_entry E (self s1) d f action s1 = (Ok true, s2) →
  disk_digest s2 f = Some dg →
  newestFiles (self s1) = Some files →
  dict_get files f = Some h →
  h ≠ JStr dg →
  apply_entries E plan d (pre ++ f :: post) s = (Ok (inr false), s2).
Proof.
  intros Hpre Hact Hnd Hwrite Hdig Hfiles Hh Hne.
  assert (self s2 = self s1) as Hself.
  { symmetry. revert Hwrite.
    apply (keeps_write_entry E (on_self eq) (AppliesKeep0 := self_applies_keep eq E)). }
  unfold apply_entries in *. rewrite (for_loop_app _ _ _ _ _ _ _ Hpre).
  cbn [for_loop]. unfold bind at 1, apply_entry, bind at 1, get_self.
  rewrite Hact. destruct (Z.eqb_spec action DELETE) as [|_]; [done|].
  unfold bind at 1. rewrite Hwrite. cbn [negb].
  unfold verify_entry, bind at 1, open_rb, bind at 1, get_fs, bind at 1.
  unfold disk_digest in Hdig. rewrite Hself in Hdig.
  destruct (read_file _ _) as [e|data]; [done|]. injection Hdig as <-.
  cbn [lift_os]. rewrite Hfiles, Hh. unfold ret. cbv beta iota.
  rewrite _sha256File_spec. cbn [buf].
  destruct (str_eq_json _ h) eqn:Heq; [|done].
  by apply str_eq_json_spec in Heq.
Qed.

(** The shape of every plan the planner returns: entries New or Modify,
    then entries Delete, no path twice; and the planner changes nothing. *)
Lemma plan_remote_loop_inv u files l acc s acc' s' :
  for_loop l (plan_remote u files) acc s = (Ok (inl acc'), s') →
  s' = s
  ∧ ∃ added,
      acc' = acc ++ added
      ∧ Forall (fun e => snd e = NEW ∨ snd e = MODIFY) added
      ∧ map fst added `sublist_of` l.
Proof.
  revert acc s. induction l as [|p l IH]; intros acc s Hrun; cbn [for_loop] in Hrun.
  - injection Hrun as <- <-. split; [done|]. exists []. by rewrite app_nil_r.
  - apply bind_ok_inv in Hrun as (r & s1 & Hbody & Hrun).
    destruct r as [acc1|[]].
    apply IH in Hrun as (-> & added & -> & Hadd & Hsub).
    unfold plan_remote, bind, get_fs, open_rb, bind, get_fs, lift_os, ret, raise in Hbody.
    destruct (os_path_exists _ _).
    + destruct (read_file _ _); [discriminate|].
      destruct (dict_get files p); [|discriminate].
      destruct (str_eq_json _ _); injection Hbody as <- <-; (split; [done|]).
      * exists added. split_and!; [done | done | by apply sublist_cons].
      * exists ((p, MODIFY) :: added). unfold dict_set. rewrite <- app_assoc.
        split_and!; [done | constructor; [by right | done] | by apply sublist_skip].
    + injection Hbody as <- <-. split; [done|].
      exists ((p, NEW) :: added). unfold dict_set. rewrite <- app_assoc.
      split_and!; [done | constructor; [by left | done] | by apply sublist_skip].
Qed.

Lemma plan_local_loop_inv fileList l acc s acc' s' :
  for_loop l (plan_local fileList) acc s = (Ok (inl acc'), s') →
  s' = s
  ∧ ∃ added,
      acc' = acc ++ added
      ∧ Forall (fun e => snd e = DELETE ∧ fst e ∉ fileList) added
      ∧ map fst added `sublist_of` l.
Proof.
  rewrite plan_local_loop. intros [= <- <-]. split; [done|]. eexists. split; [done|].
  split.
  - apply Forall_forall. intros [k a] (p & [= -> ->] & Hp)%list_elem_of_fmap.
    apply list_elem_of_filter in Hp as [Hp _]. by split.
  - rewrite map_map. cbn. rewrite map_id. apply sublist_filter.
Qed.

Lemma plan_files_shape files s plan s' :
  plan_files files s = (Ok plan, s') →
  s' = s
  ∧ ∃ ups dels,
      plan = ups ++ dels
      ∧ Forall (fun e => snd e = NEW ∨ snd e = MODIFY) ups
      ∧ Forall (fun e => snd e = DELETE) dels
      ∧ NoDup (map fst plan).
Proof.
  unfold plan_files. intros (u & s0 & [= <- <-] & Hrun)%bind_ok_inv.
  apply bind_ok_inv in Hrun as (r1 & s1 & Hl1 & Hrun). destruct r1 as [ups|[]].
  apply plan_remote_loop_inv in Hl1 as (-> & ups' & -> & Hups & Hsub1).
  cbn [app] in *.
  apply bind_ok_inv in Hrun as (lf & s2 & Hlf & Hrun).
  apply bind_ok_inv in Hrun as (lk & s3 & Hlk & Hrun).
  unfold lift in Hlf, Hlk. injection Hlf as _ <-. injection Hlk as Hlk <-.
  apply bind_ok_inv in Hrun as (r2 & s4 & Hl2 & Hrun). destruct r2 as [plan'|[]].
  injection Hrun as <- <-.
  apply plan_local_loop_inv in Hl2 as (-> & dels & -> & Hdels & Hsub2).
  split; [done|]. exists ups', dels. split_and!; [done | done | |].
  - eapply Forall_impl; [exact Hdels|]. by intros ? [? _].
  - rewrite map_app. apply NoDup_app. split_and!.
    + apply (sublist_NoDup _ _ (NoDup_nub _) Hsub1).
    + intros k Hk1 (e & -> & He)%list_elem_of_fmap.
      eapply Forall_forall in Hdels as [_ Hn]; [|exact He]. apply Hn.
      eapply elem_of_sublist; [exact Hk1 | exact Hsub1].
    + destruct lf; try discriminate. injection Hlk as <-.
      apply (sublist_NoDup _ _ (NoDup_nub _) Hsub2).
Qed.

(** ** The order of the apply loop *)

#[global] Instance extends_blocks_preorder : PreOrder extends_blocks.
Proof.
  split.
  - intros w. exists []. cbn. by rewrite app_nil_r.
  - intros w1 w2 w3 (b1 & H1 & F1) (b2 & H2 & F2). exists (b1 ++ b2).
    split; [by rewrite H2, H1, concat_app, app_assoc | by apply Forall_app].
Qed.

Lemma keeps_extends_mutate ok op ev :
  ok ev = true → keeps (on_world (extends ok)) (fs_mutate op ev).
Proof.
  intros Hok. unfold fs_mutate. keeps_prim.
  eexists [_]. split; [done | by repeat constructor].
Qed.

Lemma keeps_extends_copy E ok src p : keeps (on_world (extends ok)) (copyfileobj E src p).
Proof.
  unfold copyfileobj. keeps_prim. exists []. split; [by rewrite app_nil_r | constructor].
Qed.

#[global] Hint Extern 1 (keeps (on_world (extends _)) (fs_mutate _ _)) =>
  apply keeps_extends_mutate; reflexivity : keeps.
#[global] Hint Resolve keeps_extends_copy : keeps.


Lemma bind_run {A B} (m : M A) (k : A → M B) s o s' :
  bind m k s = (o, s') →
  ∃ oa s1, m s = (oa, s1)
           ∧ match oa with
             | Ok a => k a s1 = (o, s')
             | Raise e => s' = s1 ∧ o = Raise e
             end.
Proof.
  unfold bind. destruct (m s) as [[a|e] s1]; intros Hrun.
  - by exists (Ok a), s1.
  - exists (Raise e), s1. by injection Hrun as <- <-.
Qed.



Lemma deleteSubDirectories_rmdirs f t :
  keeps (on_world (extends is_rmdir_event)) (_deleteSubDirectories f t).
Proof. unfold _deleteSubDirectories. keeps_auto. Qed.









(** ** The statements on concrete repositories *)

Import _FileUpdateType.

(** The cases of a path among the keys of a concrete dict. *)
Ltac keys_cases H :=
  apply list_elem_of_In in H; vm_compute in H;
  repeat (destruct H as [<-|H]); [.. | destruct H].

Example sha256_empty :
  SHA256.hexdigest [] = "e3b0c44298fc1c149afbf4c8996fb92427ae41e4649b934ca495991b7852b855".
Proof. vm_compute. reflexivity. Qed.

Example sha256_abc :
  SHA256.hexdigest (bytes_of "abc")
  = "ba7816bf8f01cfea414140de5dae2223b00361a396177a9cb410ff61f20015ad".
Proof. vm_compute. reflexivity. Qed.

Example sha256_two_blocks :
  SHA256.hexdigest (bytes_of "abcdbcdecdefdefgefghfghighijhijkijkljklmklmnlmnomnopnopq")
  = "248d6a61d20638b8e5c026930c3e6039a33ce45964ff2167f6ecedd419db06c1".
Proof. vm_compute. reflexivity. Qed.

Example fresh_is_init local :
  Updater_init "https://repo" "server" "inst" (Some (JDict [("files", JDict local)]))
  = Ok (Scenario.fresh local).
Proof. reflexivity. Qed.

Example http_is_refused : Updater_init "http://repo" "server" "inst" None
  = Raise (ValueError "Only 'https' is allowed.").
Proof. reflexivity. Qed.

(** The plan of an installation behind its repository. *)
Lemma plan_files_classifies_witness :
  ∃ plan : pydict Z,
    plan_files Scenario.files_diff Scenario.s_diff = (Ok plan, Scenario.s_diff)
    ∧ dict_get plan "x.txt" = None
    ∧ dict_get plan "m.txt" = Some MODIFY
    ∧ dict_get plan "n.txt" = Some NEW
    ∧ dict_get plan "gone.txt" = Some DELETE.
Proof.
  destruct (plan_files_classifies Scenario.s_diff Scenario.files_diff Scenario.local_diff)
    as (plan & Hrun & _ & Hnew & Hmod & Hsame & Hdel & _).
  - reflexivity.
  - intros p Hp Hd.
    keys_cases Hp; try (vm_compute in Hd; discriminate); vm_compute; eauto.
  - exists plan. split; [exact Hrun|]. split_and!.
    + apply (Hsame "x.txt" (SHA256.hexdigest (bytes_of "hi"))); reflexivity.
    + apply (Hmod "m.txt" (Scenario.sha "new") (SHA256.hexdigest (bytes_of "old")));
        [reflexivity | reflexivity | reflexivity | vm_compute; discriminate].
    + apply (Hnew "n.txt"); [by apply dict_keys_is_Some | vm_compute; discriminate].
    + apply (Hdel "gone.txt"); [by apply dict_keys_is_Some|].
      intros Hin. apply list_elem_of_In in Hin. vm_compute in Hin.
      repeat (destruct Hin as [Hin|Hin]; [discriminate|]). destruct Hin.
Defined.

(** A chain of 10 symlinks is followed to the file; one of 11 is not. *)
Lemma redirection_bound_witness :
  (∃ s', downloadFile_why (Scenario.E_chain 10) (Scenario.link 0)
           (JStr (SHA256.hexdigest Scenario.payload)) (Scenario.s_chain 10)
         = (Ok (inr (0%nat, FileObj Scenario.payload 0)), s'))
  ∧ (∃ s', downloadFile_why (Scenario.E_chain 11) (Scenario.link 0)
             (JStr (SHA256.hexdigest Scenario.payload)) (Scenario.s_chain 11)
           = (Ok (inl (Some TooManyRedirections)), s')).
Proof.
  split.
  - apply (proj1 (redirection_bound (Scenario.E_chain 10) (Scenario.s_chain 10)
                    (Scenario.link 0) (JStr (SHA256.hexdigest Scenario.payload)) 10
                    (FileObj Scenario.payload (length Scenario.payload))
                    eq_refl eq_refl ltac:(vm_compute; reflexivity)));
      [lia | vm_compute; reflexivity].
  - apply (proj2 (redirection_bound (Scenario.E_chain 11) (Scenario.s_chain 11)
                    (Scenario.link 0) (JStr (SHA256.hexdigest Scenario.payload)) 11
                    (FileObj Scenario.payload (length Scenario.payload))
                    eq_refl eq_refl ltac:(vm_compute; reflexivity))).
    lia.
Defined.



(** On a disk that loses a byte, the first entry is written and read back
    with a wrong digest; the second entry is not processed. *)
Lemma post_write_mismatch_aborts_witness :
  apply_entries Scenario.E_faulty Scenario.plan_two Scenario.handles_two
    ([] ++ "x.txt" :: ["y.txt"]) Scenario.s_faulty
  = (Ok (inr false),
     snd (write_entry Scenario.E_faulty (self Scenario.s_faulty) Scenario.handles_two
            "x.txt" NEW Scenario.s_faulty)).
Proof.
  apply (post_write_mismatch_aborts Scenario.E_faulty Scenario.plan_two
           Scenario.handles_two [] ["y.txt"] "x.txt" NEW Scenario.s_faulty
           Scenario.s_faulty _ Scenario.files_two (Scenario.sha "hi")
           (SHA256.hexdigest (bytes_of "h"))).
  - reflexivity.
  - reflexivity.
  - discriminate.
  - vm_compute. reflexivity.
  - vm_compute. reflexivity.
  - reflexivity.
  - reflexivity.
  - vm_compute. discriminate.
Defined.

(** An answer older than the remembered version changes nothing. *)
Lemma newest_known_monotone_witness :
  ∃ s',
    _getNewestVersionInformation Scenario.E_old Scenario.s_newer = (Ok true, s')
    ∧ remembered (self s') = remembered (self Scenario.s_newer)
    ∧ identity_le (newest_identity (self Scenario.s_newer)) (newest_identity (self s')).
Proof.
  exists (snd (_getNewestVersionInformation Scenario.E_old Scenario.s_newer)).
  assert (_getNewestVersionInformation Scenario.E_old Scenario.s_newer
          = (Ok true, snd (_getNewestVersionInformation Scenario.E_old Scenario.s_newer)))
    as Hrun by (vm_compute; reflexivity).
  assert (recorded (self Scenario.s_newer)) as Hrec by (split; discriminate).
  split; [exact Hrun|]. split.
  - destruct (proj1 (newest_known_monotone Scenario.E_old) _ _ Hrun)
      as (v & r & f & sy & Hp & _ & Hkeep).
    apply Hkeep; [exact Hrec|].
    vm_compute in Hp. injection Hp as <- <- _ _.
    intros [H|[H _]]; vm_compute in H; discriminate.
  - apply (proj2 (newest_known_monotone Scenario.E_old) Scenario.s_newer);
      [|exact Hrec].
    apply rtc_once. eapply call_newest. exact Hrun.
Defined.


(** An installation in step with its repository. *)
Lemma empty_plan_is_noop_witness :
  updateInstance Scenario.E_old Scenario.s_synced
  = (Ok true, snd (refresh_for_check Scenario.E_old Scenario.s_synced))
  ∧ only_documents (world Scenario.s_synced)
      (world (snd (refresh_for_check Scenario.E_old Scenario.s_synced))).
Proof.
  apply (empty_plan_is_noop Scenario.E_old Scenario.s_synced _
           Scenario.files_synced Scenario.files_synced).
  - vm_compute. reflexivity.
  - reflexivity.
  - reflexivity.
  - intros p Hp. keys_cases Hp. split; [vm_compute; reflexivity|].
    exists (SHA256.hexdigest (bytes_of "hi")). split; vm_compute; reflexivity.
  - intros p Hp. exact Hp.
Defined.

(** ** Where the code departs from its specification *)

(** What does hold of every download: the file object returned is at
    position 0 and the expected digest is the SHA-256 of all its bytes. *)
Lemma downloadFile_digest E loc file_hash s id fh s' :
  _downloadFile E loc file_hash s = (Ok (Some (id, fh)), s') →
  file_hash = JStr (SHA256.hexdigest (buf fh)) ∧ pos fh = 0%nat.
Proof.
  unfold _downloadFile, downloadFile_why.
  intros (x & s3 & Hrun & Hret)%bind_ok_inv.
  destruct x as [why|h]; [discriminate|]. injection Hret as -> <-.
  apply bind_ok_inv in Hrun as (t & s1 & _ & Hrun).
  destruct t as [[id' fh0]|]; [|discriminate].
  apply bind_ok_inv in Hrun as (u & s2 & _ & Hrun).
  apply bind_ok_inv in Hrun as (r & s4 & _ & Hrun).
  destruct r as [why|fh1]; [discriminate|].
  rewrite _sha256File_spec in Hrun. cbn [seek buf] in Hrun.
  destruct (str_eq_json _ file_hash) eqn:Heq; [|discriminate].
  injection Hrun as <- <- <-. apply str_eq_json_spec in Heq. by split.
Qed.

(** Without a redirection the bytes of the file object are the bytes
    received. *)
Lemma download_loop_direct E fuel loc s repo symlinks chunks :
  repoInstanceLocation (self s) = Some repo →
  newestSymlinks (self s) = Some symlinks →
  str_in_list loc symlinks = false →
  0 <= max_redirections (self s) →
  http_file E (tick (world s)) (os_path_join (url (self s)) [repo; loc]) = Some chunks →
  ∃ s', download_loop E (S fuel) 0 loc (FileObj [] 0%nat) s
        = (Ok (inr (FileObj (concat chunks) (length (concat chunks)))), s').
Proof.
  intros Hrepo Hsym Hno Hmax Hget. destruct s as [u w]. cbn [self world] in *.
  cbn [download_loop]. unfold bind at 1, get_self. cbn [self].
  destruct (Z.gtb_spec 0 (max_redirections u)); [lia|]. rewrite Hrepo.
  unfold bind at 1, requests_get_stream, bind, get_world, put_world, ret.
  cbn [world tick]. rewrite Hget, Hsym, Hno. cbn [negb].
  rewrite write_chunks_concat by done. by eexists.
Qed.

(** C1 (the code departs).  The temporary file is not truncated between two
    hops of a redirection.  The symlink [link] is a line of 12 bytes, its
    target has the 2 bytes [hi]: the temporary file then holds [hi] followed
    by the last 10 bytes of the line.  With the digest of [hi] expected, the
    download fails; with the digest of the 12 bytes expected, a file object
    is returned whose bytes are not the content received last, and the digest
    of that content is not the expected one. *)
Theorem stale_bytes_are_hashed :
  http_file Scenario.E_link 2 "https://repo/server/target_file" = Some [bytes_of "hi"]
  ∧ fst (_downloadFile Scenario.E_link "link" (Scenario.sha "hi") Scenario.s_link)
    = Ok None
  ∧ fst (_downloadFile Scenario.E_link "link" (JStr (SHA256.hexdigest Scenario.stale))
           Scenario.s_link)
    = Ok (Some (0%nat, FileObj Scenario.stale 0))
  ∧ Scenario.stale ≠ bytes_of "hi"
  ∧ SHA256.hexdigest (bytes_of "hi") ≠ SHA256.hexdigest Scenario.stale.
Proof.
  split_and!; try (vm_compute; reflexivity); vm_compute; discriminate.
Qed.

(** C4 (the code departs).  For the New entry [a/b.txt] the audit looks at
    [inst/a], [inst/b.txt] and never at the instance directory [inst]; for
    the New entry [b.txt] it does.  With [inst] not writable the audit of
    [a/b.txt] passes, [mkdir inst/a] is refused for lack of permission, and
    the update fails. *)
Theorem audit_misses_instance_root :
  let s := snd (_checkFilesToUpdate Scenario.E_nested Scenario.s_readonly) in
  fst (_checkFilesToUpdate Scenario.E_nested Scenario.s_readonly)
  = Ok (Some [("a/b.txt", NEW)])
  ∧ os_path_exists (fs (world s)) "inst" = true
  ∧ os_access_W (fs (world s)) "inst" = false
  ∧ fst (_checkFilePermissions [("a/b.txt", NEW)] s) = Ok true
  ∧ fst (_checkFilePermissions [("b.txt", NEW)] s) = Ok false
  ∧ os_mkdir (fs (world s)) "inst/a" = inl EACCES
  ∧ fst (updateInstance Scenario.E_nested Scenario.s_readonly) = Ok false.
Proof. split_and!; vm_compute; reflexivity. Qed.

(** C7 (the code departs).  In [_getInstanceInformation] the test of
    [symlinks] stands behind a [raise] and is never run: a manifest whose
    [symlinks] is a string is returned by [getInstanceInformation] without
    an error.  [_getNewestVersionInformation] does reject it, and then
    [self.instanceInfo] already holds the rejected document. *)
Theorem symlinks_string_is_accepted :
  py_getitem Scenario.doc_badlinks "symlinks" = Ok (JStr "x")
  ∧ fst (getInstanceInformation Scenario.E_badlinks Scenario.s_fresh)
    = Ok Scenario.doc_badlinks
  ∧ fst (_getNewestVersionInformation Scenario.E_badlinks Scenario.s_fresh) = Ok false
  ∧ instanceInfo (self Scenario.s_fresh) = JNull
  ∧ instanceInfo
      (self (snd (_getNewestVersionInformation Scenario.E_badlinks Scenario.s_fresh)))
    = Scenario.doc_badlinks.
Proof. split_and!; vm_compute; reflexivity. Qed.

(** C9 (the code departs).  In [_downloadFile] the line of a symlink file is
    decoded outside the [try] blocks.  The repository lists the two new
    files [x.txt] and [y.txt], the second a symlink whose file holds the
    byte [0xff]: the download of [x.txt] succeeds, that of [y.txt] raises
    [UnicodeDecodeError], and [updateInstance] does not return [False] but
    lets the exception through, with the temporary file of [x.txt] (and
    that of [y.txt]) still open; the file tree is untouched.  When the
    second download fails by giving no file, [updateInstance] does return
    [False] and the temporary file of [x.txt] is closed. *)
Theorem undecodable_symlink_escapes :
  fst (_checkFilesToUpdate Pointers.E_pointer Scenario.s_fresh)
  = Ok (Some [("x.txt", NEW); ("y.txt", NEW)])
  ∧ decode_ascii [xff; x0a] = None
  ∧ fst (updateInstance Pointers.E_pointer Scenario.s_fresh) = Raise UnicodeDecodeError
  ∧ open_temps (world (snd (updateInstance Pointers.E_pointer Scenario.s_fresh)))
    = [0%nat; 1%nat]
  ∧ fs (world (snd (updateInstance Pointers.E_pointer Scenario.s_fresh)))
    = fs (world Scenario.s_fresh)
  ∧ fst (updateInstance Scenario.E_half Scenario.s_fresh) = Ok false
  ∧ open_temps (world (snd (updateInstance Scenario.E_half Scenario.s_fresh)))
    = [1%nat].
Proof. split_and!; vm_compute; reflexivity. Qed.

(** ** Exceptions that leave a method *)

Section Raises.
Context (ok : exn → Prop).

Lemma raises_ret {A} (a : A) : raises_only ok (ret a).
Proof. by intros s e s' ?. Qed.

Lemma raises_raise {A} e : ok e → raises_only ok (@raise A e).
Proof. by intros He s e' s' [= <- _]. Qed.

Lemma raises_lift {A} (x : outcome A) :
  (∀ e, x = Raise e → ok e) → raises_only ok (lift x).
Proof. intros Hx s e s' [= -> _]. by apply Hx. Qed.

Lemma raises_lift_os {A} (x : oserror + A) :
  (∀ e, ok (OSError e)) → raises_only ok (lift_os x).
Proof. intros Hx. destruct x; [by apply raises_raise | apply raises_ret]. Qed.

Lemma raises_bind {A B} (m : M A) (k : A → M B) :
  raises_only ok m → (∀ a, raises_only ok (k a)) → raises_only ok (bind m k).
Proof.
  intros Hm Hk s e s' Hrun. unfold bind in Hrun.
  destruct (m s) as [[a|e0] s1] eqn:Hms.
  - by eapply Hk.
  - injection Hrun as <- <-. by eapply Hm.
Qed.

Lemma raises_try_except {A} (m : M A) (h : exn → M A) :
  raises_only caught m → (∀ e, raises_only ok (h e)) → raises_only ok (try_except m h).
Proof.
  intros Hm Hh s e s' Hrun. unfold try_except in Hrun.
  destruct (m s) as [[a|e0] s1] eqn:Hms; [discriminate|].
  destruct e0; try (by eapply Hh). by destruct (Hm _ _ _ Hms).
Qed.

Lemma raises_for_loop {A B R} (l : list A) (body : B → A → M (B + R)) acc :
  (∀ b a, raises_only ok (body b a)) → raises_only ok (for_loop l body acc).
Proof.
  intros Hb. revert acc. induction l as [|a l IH]; intros acc; cbn [for_loop].
  - apply raises_ret.
  - apply raises_bind; [apply Hb|]. intros [b|r]; [apply IH | apply raises_ret].
Qed.

Lemma raises_total {A} (m : M A) :
  (∀ s, ∃ a s', m s = (Ok a, s')) → raises_only ok m.
Proof. intros Hm s e s' Hrun. destruct (Hm s) as (a & s1 & Ha). congruence. Qed.

Lemma raises_fs_mutate op ev : (∀ e, ok (OSError e)) → raises_only ok (fs_mutate op ev).
Proof.
  intros Hx s e s' Hrun. unfold fs_mutate, bind, get_world, put_world, lift_os in Hrun.
  destruct (op _); [|discriminate]. by injection Hrun as <- _.
Qed.

Lemma raises_copyfileobj E src p :
  (∀ e, ok (OSError e)) → raises_only ok (copyfileobj E src p).
Proof.
  intros Hx s e s' Hrun. unfold copyfileobj, bind, get_world, put_world, lift_os in Hrun.
  destruct (write_file _ _ _); [|discriminate]. by injection Hrun as <- _.
Qed.

Lemma raises_open_rb p : (∀ e, ok (OSError e)) → raises_only ok (open_rb p).
Proof.
  intros Hx s e s' Hrun. unfold open_rb, bind, get_fs, lift_os in Hrun.
  destruct (read_file _ _); [|discriminate]. by injection Hrun as <- _.
Qed.

End Raises.

Lemma raises_only_weaken {A} (ok ok' : exn → Prop) (m : M A) :
  (∀ e, ok e → ok' e) → raises_only ok m → raises_only ok' m.
Proof. intros Hw Hm s e s' Hrun. by eapply Hw, Hm. Qed.

Lemma py_getitem_caught x k e : py_getitem x k = Raise e → caught e.
Proof. unfold py_getitem. repeat case_match; intros ?; by simplify_eq. Qed.

Lemma py_keys_caught x e : py_keys x = Raise e → caught e.
Proof. unfold py_keys. repeat case_match; intros ?; by simplify_eq. Qed.

Lemma py_float_of_caught x e : py_float_of x = Raise e → caught e.
Proof. destruct x; cbn; intros ?; by simplify_eq. Qed.

Lemma py_int_of_caught x e : py_int_of x = Raise e → caught e.
Proof. destruct x; cbn; intros ?; by simplify_eq. Qed.

Lemma and_then_caught {A B} (o : outcome A) (k : A → outcome B) e :
  (∀ e, o = Raise e → caught e) → (∀ a e, k a = Raise e → caught e) →
  and_then o k = Raise e → caught e.
Proof.
  intros Ho Hk. destruct o as [a|e0]; cbn; [apply Hk|].
  intros [= <-]. by apply Ho.
Qed.

Lemma parse_version_information_caught info e :
  parse_version_information info = Raise e → caught e.
Proof.
  unfold parse_version_information. revert e.
  repeat (intros e; apply and_then_caught;
          [first [ apply py_getitem_caught | apply py_float_of_caught
                 | apply py_int_of_caught | apply py_keys_caught
                 | intros e'; case_match; [apply py_getitem_caught | done] ]
          | intros ?; clear e ]).
  intros e. repeat case_match; intros ?; by simplify_eq.
Qed.

Create HintDb raises discriminated.

#[global] Hint Resolve py_getitem_caught py_keys_caught parse_version_information_caught
  : raises.

(** The primitives that always return. *)
Ltac raises_prim :=
  apply raises_total; intros [? ?]; by repeat eexists.

Ltac raises_step :=
  lazymatch goal with
  | |- raises_only _ (bind _ _) => apply raises_bind; [| intros ?]
  | |- raises_only _ (ret _) => apply raises_ret
  | |- raises_only _ (raise _) => apply raises_raise; first [done | by eauto]
  | |- raises_only _ (lift _) => apply raises_lift; solve [eauto with raises]
  | |- raises_only _ (lift_os _) => apply raises_lift_os; by intros
  | |- raises_only _ (try_except _ _) => apply raises_try_except; [| intros ?]
  | |- raises_only _ (for_loop _ _ _) => apply raises_for_loop; intros ? ?
  | |- raises_only _ get_self => raises_prim
  | |- raises_only _ get_world => raises_prim
  | |- raises_only _ get_fs => raises_prim
  | |- raises_only _ (assign _) => raises_prim
  | |- raises_only _ (time_time _) => raises_prim
  | |- raises_only _ (requests_get_doc _ _) => raises_prim
  | |- raises_only _ (requests_get_stream _ _) => raises_prim
  | |- raises_only _ (close_temp _) => raises_prim
  | |- raises_only _ (open_rb _) => apply raises_open_rb; by intros
  | |- raises_only _ (fs_mutate _ _) => apply raises_fs_mutate; by intros
  | |- raises_only _ (copyfileobj _ _ _) => apply raises_copyfileobj; by intros
  | |- raises_only _ (mkdir _) => unfold mkdir
  | |- raises_only _ (remove _) => unfold remove
  | |- raises_only _ (rmdir _) => unfold rmdir
  | |- raises_only _ (chmod _ _) => unfold chmod
  | |- raises_only _ (open_wb _) => unfold open_wb
  | |- raises_only _ (match ?x with _ => _ end) => destruct x
  | |- raises_only _ _ => solve [eauto with raises]
  end.

Ltac raises_auto := repeat raises_step.


Lemma requests_get_doc_run E u s :
  requests_get_doc E u s
  = (Ok (http_doc E (tick (world s)) u),
     {| self := self s; world := with_tick (with_event (world s) (EvGetDoc u)) |}).
Proof. reflexivity. Qed.

Lemma time_time_run E s :
  time_time E s
  = (Ok (clock E (tick (world s))), {| self := self s; world := with_tick (world s) |}).
Proof. reflexivity. Qed.

(** The runs of [_getRepositoryInformation]. *)
Lemma getRepositoryInformation_cases (E : Env) (s s' : State) (o : outcome bool) :
  _getRepositoryInformation E s = (o, s') →
  trace (world s')
  = trace (world s) ++ [EvGetDoc (os_path_join (url (self s)) ["repoInfo.json"])]
  ∧ fetch_frame (self s) (self s')
  ∧ instanceInfo (self s') = instanceInfo (self s)
  ∧ match o with
    | Ok true =>
        ∃ d insts entry loc,
          repoInfo (self s') = JDict d
          ∧ dict_get d "instances" = Some insts
          ∧ py_getitem insts (instance (self s)) = Ok entry
          ∧ py_getitem entry "location" = Ok loc
          ∧ repoInstanceLocation (self s')
            = Some (match loc with JStr x => x | _ => py_str E loc end)
    | Ok false => repoInstanceLocation (self s') = repoInstanceLocation (self s)
    | Raise e =>
        (e = KeyError "location" ∨ e = TypeError)
        ∧ repoInstanceLocation (self s') = repoInstanceLocation (self s)
    end.
Proof.
  destruct s as [u w]. unfold _getRepositoryInformation.
  unfold bind at 1, get_self. cbn [self world].
  unfold bind at 1. rewrite requests_get_doc_run. cbn [self world].
  destruct (http_doc E (tick w) _) as [| |j];
    try (intros [= <- <-]; cbn; by split_and!).
  unfold try_except, bind, assign, lift, raise, ret, get_self, py_keys, py_getitem.
  cbn [self world].
  intros Hrun. 
  repeat (case_match; simplify_eq; cbn [self world negb] in * ); cbn; 
  split_and!; try done; try (by split_and!).
  all: try (by repeat split; [right|]).
  all: try (by repeat split; [left|]).
  all: try (eexists _, _, _, _; split; [reflexivity|]; split; [eassumption|];
    cbn beta iota; split;
    [match goal with H : dict_get _ (instance _) = Some _ |- _ => rewrite H end;
     reflexivity|];
    cbn beta iota; split;
    [match goal with H : dict_get _ "location" = Some _ |- _ => rewrite H end;
     reflexivity|];
    reflexivity).
  all: try (by right); try (by left).
  all: exfalso;
    match goal with
    | H : negb (str_in ?k (dict_keys ?d)) = false, H' : dict_get ?d ?k = None |- _ =>
        apply negb_false_iff, str_in_spec, dict_keys_is_Some in H;
        rewrite H' in H; by destruct H
    end.
Qed.


(** ** What the manifest client assigns *)

#[global] Instance fetch_frame_preorder : PreOrder fetch_frame.
Proof.
  split; [by intros u; unfold fetch_frame|].
  intros u1 u2 u3 H1 H2. unfold fetch_frame in *.
  destruct_and!. split_and!; congruence.
Qed.

#[global] Instance same_config_preorder : PreOrder same_config.
Proof.
  split; [by intros u; unfold same_config|].
  intros u1 u2 u3 H1 H2. unfold same_config in *.
  destruct_and!. split_and!; congruence.
Qed.

(** A relation on the object that every assignment of the methods respects
    is kept by the methods. *)
Section SettersKeep.
Context (E : Env) (Q : relation Updater) `{!PreOrder Q}.

Local Hint Resolve keeps_self_time_time keeps_self_requests_get_doc : keeps.
Local Hint Extern 0 (keeps (on_self _) (assign _)) =>
  apply keeps_self_assign; intros ?; solve [auto] : keeps.

Hypothesis Q_repoInfo : ∀ j u, Q u (set_repoInfo j u).
Hypothesis Q_repo_version : ∀ j u, Q u (set_repo_version j u).
Hypothesis Q_repoInstanceLocation : ∀ l u, Q u (set_repoInstanceLocation l u).
Hypothesis Q_instanceInfo : ∀ j u, Q u (set_instanceInfo j u).

Lemma setters_getRepositoryInformation : keeps (on_self Q) (_getRepositoryInformation E).
Proof. unfold _getRepositoryInformation. keeps_auto. Qed.
Local Hint Resolve setters_getRepositoryInformation : keeps.

Lemma setters_getInstanceInformation_ : keeps (on_self Q) (_getInstanceInformation E).
Proof. unfold _getInstanceInformation. keeps_auto. Qed.
Local Hint Resolve setters_getInstanceInformation_ : keeps.

Lemma setters_getInstanceInformation : keeps (on_self Q) (getInstanceInformation E).
Proof. unfold getInstanceInformation. keeps_auto. Qed.

Lemma setters_getRepositoryInformation_public :
  keeps (on_self Q) (getRepositoryInformation E).
Proof. unfold getRepositoryInformation. keeps_auto. Qed.

Hypothesis Q_remember : ∀ v r f sy u, Q u (remember_newest v r f sy u).
Hypothesis Q_lastChecked : ∀ t u, Q u (set_lastChecked t u).

Lemma setters_getNewestVersionInformation :
  keeps (on_self Q) (_getNewestVersionInformation E).
Proof. unfold _getNewestVersionInformation. keeps_auto. Qed.
Local Hint Resolve setters_getNewestVersionInformation : keeps.

Lemma setters_checkFilesToUpdate : keeps (on_self Q) (_checkFilesToUpdate E).
Proof.
  unfold _checkFilesToUpdate, refresh_for_check. keeps_auto.
  apply keeps_plan_files. apply _.
Qed.
Local Hint Resolve setters_checkFilesToUpdate : keeps.

Lemma setters_updateInstance : keeps (on_self Q) (updateInstance E).
Proof.
  pose proof (self_streams_keep Q E). pose proof (self_temps_keep Q E).
  pose proof (self_applies_keep Q E).
  unfold updateInstance, update_with. keeps_auto.
  - apply keeps_checkFilePermissions. apply _.
  - by apply keeps_download_all.
  - by apply keeps_apply_entries.
  - by apply (keeps_close_all E).
Qed.

Hypothesis Q_reset : ∀ name u, Q u (reset_instance name u).

Lemma setters_setInstance name retrieveInfo :
  keeps (on_self Q) (setInstance E name retrieveInfo).
Proof. unfold setInstance. keeps_auto. Qed.

End SettersKeep.

Lemma getRepositoryInformation_caught E : raises_only caught (_getRepositoryInformation E).
Proof. unfold _getRepositoryInformation. raises_auto. Qed.
#[global] Hint Resolve getRepositoryInformation_caught : raises.

Lemma getInstanceInformation_never_raises E : never_raises (_getInstanceInformation E).
Proof. unfold never_raises, _getInstanceInformation. raises_auto. Qed.

Lemma keeps_run {A} (P : relation State) (m : M A) s o s' :
  m s = (o, s') → keeps P m → P s s'.
Proof. intros Hrun Hk. by eapply Hk. Qed.

Lemma fetch_frame_getRepositoryInformation E :
  keeps (on_self fetch_frame) (_getRepositoryInformation E).
Proof. apply setters_getRepositoryInformation; [apply _ | done..]. Qed.

Lemma fetch_frame_getInstanceInformation E :
  keeps (on_self fetch_frame) (_getInstanceInformation E).
Proof. apply setters_getInstanceInformation_; [apply _ | done..]. Qed.

#[global] Hint Resolve fetch_frame_getRepositoryInformation
  fetch_frame_getInstanceInformation : keeps.

(** X5.  [_getRepositoryInformation] makes one request, for
    [repoInfo.json] under the base URL, and assigns nothing but [repoInfo],
    [repo_version] and [repoInstanceLocation].  When it returns [True] the
    document kept is a dict whose member [instances] has an entry for the
    instance, and [repoInstanceLocation] is the [location] of that entry.
    When it returns [False] the location is as before.  The only exceptions
    that leave it are the [KeyError] of a missing [location] and a
    [TypeError], and then too the location is as before. *)
Theorem getRepositoryInformation_outcome (E : Env) (s s' : State) (o : outcome bool) :
  _getRepositoryInformation E s = (o, s') →
  trace (world s')
  = trace (world s) ++ [EvGetDoc (os_path_join (url (self s)) ["repoInfo.json"])]
  ∧ fetch_frame (self s) (self s')
  ∧ instanceInfo (self s') = instanceInfo (self s)
  ∧ match o with
    | Ok true =>
        ∃ d insts entry loc,
          repoInfo (self s') = JDict d
          ∧ dict_get d "instances" = Some insts
          ∧ py_getitem insts (instance (self s)) = Ok entry
          ∧ py_getitem entry "location" = Ok loc
          ∧ repoInstanceLocation (self s')
            = Some (match loc with JStr x => x | _ => py_str E loc end)
    | Ok false => repoInstanceLocation (self s') = repoInstanceLocation (self s)
    | Raise e =>
        (e = KeyError "location" ∨ e = TypeError)
        ∧ repoInstanceLocation (self s') = repoInstanceLocation (self s)
    end.
Proof.
  intros Hrun.
  destruct (getRepositoryInformation_cases E s s' o Hrun) as (Htrace & _ & Hinfo & Hcases).
  split_and!; [exact Htrace | | exact Hinfo | exact Hcases].
  eapply (keeps_run (on_self fetch_frame));
    [exact Hrun | apply fetch_frame_getRepositoryInformation].
Qed.

Lemma validated_intro j version rev dependencies :
  py_getitem j "version" = Ok version →
  negb (isinstance_float version) = false →
  py_getitem j "rev" = Ok rev →
  negb (isinstance_int rev) = false →
  py_getitem j "dependencies" = Ok dependencies →
  negb (isinstance_dict dependencies) = false →
  validated j.
Proof.
  intros Hv Hfv Hr Hir Hd Hdd. split_and!.
  - destruct version; try discriminate. eauto.
  - exists rev. split; [done|]. by apply negb_false_iff.
  - destruct dependencies; try discriminate. eauto.
Qed.

(** A successful fetch of the instance manifest. *)
Lemma getInstanceInformation_success E s s' :
  _getInstanceInformation E s = (Ok true, s') →
  validated (instanceInfo (self s'))
  ∧ ∃ loc, repoInstanceLocation (self s') = Some loc
      ∧ last (trace (world s'))
        = Some (EvGetDoc (os_path_join (url (self s)) [loc; "instanceInfo.json"])).
Proof.
  intros Hrun.
  unfold _getInstanceInformation in Hrun.
  apply bind_ok_inv in Hrun as (u & s0 & [= <- <-] & Hrun).
  apply bind_ok_inv in Hrun as (ok & s1 & Hrepo & Hrun).
  assert (on_self fetch_frame s s1) as (_ & _ & Hurl & _).
  { eapply keeps_run; [exact Hrepo|]. keeps_auto. }
  destruct ok; cbn [negb] in Hrun; [|discriminate].
  apply bind_ok_inv in Hrun as (u & s0 & [= <- <-] & Hrun).
  destruct (repoInstanceLocation (self s1)) as [loc|] eqn:Hloc; [|discriminate].
  unfold bind at 1 in Hrun. rewrite requests_get_doc_run in Hrun.
  destruct (http_doc E _ _) as [| |j]; try discriminate.
  apply try_except_ok_inv in Hrun as [Hrun|(e & s2 & _ & [=])].
  apply bind_ok_inv in Hrun as ([] & s2 & [= <-] & Hrun).
  apply bind_ok_inv in Hrun as (version & s3 & [= Hv <-] & Hrun).
  destruct (negb (isinstance_float version)) eqn:Hfv; [discriminate|].
  apply bind_ok_inv in Hrun as (rev & s3 & [= Hr <-] & Hrun).
  destruct (negb (isinstance_int rev)) eqn:Hir; [discriminate|].
  apply bind_ok_inv in Hrun as (deps & s3 & [= Hd <-] & Hrun).
  destruct (negb (isinstance_dict deps)) eqn:Hdd; [discriminate|].
  injection Hrun as <-. cbn. split.
  - by eapply validated_intro.
  - exists loc. split; [done|]. by rewrite last_snoc, Hurl.
Qed.

Lemma getInstanceInformation_returns E s o s' :
  _getInstanceInformation E s = (o, s') → ∃ b, o = Ok b.
Proof.
  intros Hrun. destruct o as [b|e]; [by exists b|].
  by destruct (getInstanceInformation_never_raises E _ _ _ Hrun).
Qed.

(** X6.  [_getInstanceInformation] never raises: every failure is a
    result [False].  It assigns nothing but the attributes of the fetched
    documents.  When it returns [True] the manifest kept in [instanceInfo]
    has a float [version], an int [rev] and a dict [dependencies], and the
    last request was the one for [instanceInfo.json] under the location of
    the instance. *)
Theorem getInstanceInformation_validates (E : Env) (s s' : State) (o : outcome bool) :
  _getInstanceInformation E s = (o, s') →
  fetch_frame (self s) (self s')
  ∧ ∃ b, o = Ok b
      ∧ (b = true →
         validated (instanceInfo (self s'))
         ∧ ∃ loc, repoInstanceLocation (self s') = Some loc
             ∧ last (trace (world s'))
               = Some (EvGetDoc (os_path_join (url (self s)) [loc; "instanceInfo.json"]))).
Proof.
  intros Hrun. split; [by eapply fetch_frame_getInstanceInformation|].
  destruct (getInstanceInformation_returns _ _ _ _ Hrun) as [b ->].
  exists b. split; [done|]. intros ->.
  by apply (getInstanceInformation_success E s).
Qed.

Lemma getInstanceInformation_caught E : raises_only caught (_getInstanceInformation E).
Proof.
  eapply raises_only_weaken; [|apply getInstanceInformation_never_raises]. done.
Qed.
#[global] Hint Resolve getInstanceInformation_caught : raises.

Lemma getNewestVersionInformation_never_raises E :
  never_raises (_getNewestVersionInformation E).
Proof. unfold never_raises, _getNewestVersionInformation. raises_auto. Qed.

Lemma remember_newest_recorded v r f sy u : recorded (remember_newest v r f sy u).
Proof.
  rewrite remember_newest_test. case_decide as Hd; [by split|].
  unfold recorded in *. destruct (newestFiles u), (newestSymlinks u); try done;
    destruct Hd; right; naive_solver.
Qed.

(** X7.  [_getNewestVersionInformation] never raises.  When it returns
    [True], the files and the symlinks of a newest version are recorded, the
    manifest kept is validated and its version information can be read, and
    [lastChecked] is the time read last.  When it returns [False], the newest
    known version and [lastChecked] are as before. *)
Theorem getNewestVersionInformation_outcome (E : Env) (s s' : State) (o : outcome bool) :
  _getNewestVersionInformation E s = (o, s') →
  ∃ b, o = Ok b
    ∧ if b
      then recorded (self s')
           ∧ validated (instanceInfo (self s'))
           ∧ (∃ r, parse_version_information (instanceInfo (self s')) = Ok r)
           ∧ tick (world s') ≠ 0%nat
           ∧ lastChecked (self s') = clock E (pred (tick (world s')))
      else fetch_frame (self s) (self s').
Proof.
  intros Hrun.
  destruct o as [b|e];
    [|by destruct (getNewestVersionInformation_never_raises E _ _ _ Hrun)].
  exists b. split; [done|].
  unfold _getNewestVersionInformation in Hrun.
  apply bind_ok_inv in Hrun as (ok & s1 & Hfetch & Hrun).
  apply try_except_ok_inv in Hfetch as [Hfetch|(e & s2 & Hfetch & [= <- <-])].
  2:{ injection Hrun as <- <-.
      eapply (keeps_run (on_self fetch_frame)); [exact Hfetch|]. keeps_auto. }
  apply bind_ok_inv in Hfetch as (b0 & s2 & Hfetch & Hret).
  destruct b0; [|discriminate]. injection Hret as <- <-. cbn [negb] in Hrun.
  assert (on_self fetch_frame s s2) as Hframe.
  { eapply keeps_run; [exact Hfetch | apply fetch_frame_getInstanceInformation]. }
  apply getInstanceInformation_success in Hfetch as (Hvalid & _).
  apply bind_ok_inv in Hrun as (parsed & s3 & Hparse & Hrun).
  apply try_except_ok_inv in Hparse as [Hparse|(e & s4 & Hp & [= <- <-])].
  2:{ assert (s2 = s4) as <- by (eapply (keeps_run eq); [exact Hp|keeps_auto]).
      by injection Hrun as <- <-. }
  apply bind_ok_inv in Hparse as (u & s4 & [= <- <-] & Hparse).
  apply bind_ok_inv in Hparse as (r & s4 & [= Hp <-] & [= <- <-]).
  destruct r as [[[version rev] files] symlinks].
  unfold bind at 1, assign in Hrun. cbn [self world] in Hrun.
  unfold bind at 1 in Hrun. rewrite time_time_run in Hrun.
  unfold bind, assign, ret in Hrun. cbn in Hrun. injection Hrun as <- <-. cbn.
  split_and!; [apply remember_newest_recorded | | | done | done];
    rewrite remember_newest_instanceInfo; [done | eauto].
Qed.



(** X9.  No call of a method changes what the constructor was given: the
    target location, the base URL, the bound on redirections and the local
    record of installed files stay the same along any sequence of calls (an
    update does not record what it installed). *)
Theorem configuration_is_fixed (E : Env) (s s' : State) :
  lifetime E s s' → same_config (self s) (self s').
Proof.
  intros Hlife. induction Hlife as [s|s1 s2 s3 Hcall _ IH]; [reflexivity|].
  etransitivity; [|exact IH]. clear IH.
  destruct Hcall as [? ? ? Hrun|? ? ? Hrun|? ? ? Hrun|? ? ? Hrun|? ? ? Hrun
                    |? ? ? ? ? Hrun];
    eapply (keeps_run (on_self same_config)); try exact Hrun.
  - apply setters_getNewestVersionInformation; try apply _; try done;
      intros; unfold remember_newest; by case_match.
  - apply setters_checkFilesToUpdate; try apply _; try done;
      intros; unfold remember_newest; by case_match.
  - apply setters_getInstanceInformation; try apply _; done.
  - apply setters_updateInstance; try apply _; try done;
      intros; unfold remember_newest; by case_match.
  - apply setters_getRepositoryInformation_public; try apply _; done.
  - apply setters_setInstance; try apply _; try done;
      intros; unfold remember_newest; by case_match.
Qed.

Lemma file_requests_app t1 t2 :
  file_requests (t1 ++ t2) = (file_requests t1 + file_requests t2)%nat.
Proof. unfold file_requests. by rewrite List.filter_app, length_app. Qed.

Lemma download_loop_requests E fuel ctr loc fh s o s' :
  download_loop E fuel ctr loc fh s = (o, s') →
  self s' = self s
  ∧ ∃ t, trace (world s') = trace (world s) ++ t
         ∧ Z.of_nat (file_requests t) <= Z.max 0 (max_redirections (self s) - ctr + 1).
Proof.
  revert ctr loc fh s. induction fuel as [|fuel IH]; intros ctr loc fh [u w]; cbn [self world].
  - intros [= _ <-]. split; [done|]. exists []. rewrite app_nil_r. split; [done|]. unfold file_requests; cbn; lia.
  - cbn [download_loop]. unfold bind at 1, get_self. cbn [self].
    assert (∀ (x : outcome (download_failure + fileobj)),
              (x, {| self := u; world := w |}) = (o, s') →
              self s' = u ∧ ∃ t, trace (world s') = trace w ++ t
                ∧ Z.of_nat (file_requests t) <= Z.max 0 (max_redirections u - ctr + 1)) as Hstop.
    { intros x [= _ <-]. split; [done|]. exists []. rewrite app_nil_r. split; [done|]. unfold file_requests; cbn; lia. }
    destruct (Z.gtb_spec ctr (max_redirections u)) as [Hgt|Hle]; [apply Hstop|].
    destruct (repoInstanceLocation u) as [repo|]; [|apply Hstop].
    unfold bind at 1, requests_get_stream, bind, get_world, put_world, ret. cbn.
    set (w1 := with_tick _).
    assert (∀ (x : outcome (download_failure + fileobj)),
              (x, {| self := u; world := w1 |}) = (o, s') →
              self s' = u ∧ ∃ t, trace (world s') = trace w ++ t
                ∧ Z.of_nat (file_requests t) <= Z.max 0 (max_redirections u - ctr + 1)) as Hone.
    { intros x [= _ <-]. split; [done|]. eexists [_]. split; [done|]. unfold file_requests; cbn; lia. }
    destruct (http_file E (tick w) _) as [chunks|]; [|apply Hone].
    destruct (newestSymlinks u) as [symlinks|]; [|apply Hone].
    destruct (negb _); [apply Hone|].
    destruct (decode_ascii _) as [text|]; [|apply Hone].
    intros (Hself & t & Ht & Hn)%IH. cbn [self world] in *. split; [done|].
    eexists (_ :: t). split; [rewrite Ht; cbn; by rewrite <- app_assoc|].
    change (EvGetFile ?u :: t) with ([EvGetFile u] ++ t).
    rewrite file_requests_app. unfold file_requests at 1; cbn; lia.
Qed.

(** X2.  Whatever the server answers, one call of [_downloadFile] asks it
    for at most [max_redirections + 1] files, and the loop of the download
    ends within the iterations the model gives it. *)
Theorem download_requests_bounded (E : Env) (loc : string) (file_hash : json)
    (s s' : State) (o : outcome (option (nat * fileobj))) :
  _downloadFile E loc file_hash s = (o, s') →
  o ≠ Raise OutOfFuel
  ∧ ∃ t, trace (world s') = trace (world s) ++ t
         ∧ Z.of_nat (file_requests t) <= Z.max 0 (max_redirections (self s) + 1).
Proof.
  unfold _downloadFile, downloadFile_why. destruct s as [u w].
  unfold bind at 1. unfold bind at 1.
  unfold TemporaryFile, bind, get_world, put_world, ret. cbn [world self].
  destruct (tmp_ok E (tick w)); cbn [world self].
  2:{ intros [= <- <-]. split; [done|]. exists []. rewrite app_nil_r. split; [done|]. unfold file_requests; cbn; lia. }
  unfold get_self at 1. cbn [self].
  set (s1 := {| self := u; world := _ |}).
  destruct (download_loop E (download_fuel u) 0 loc (FileObj [] 0) s1) as [r s2] eqn:Hloop.
  assert (r ≠ Raise OutOfFuel) as Hfuel.
  { eapply download_loop_fuel; [| |exact Hloop]; unfold download_fuel; cbn; lia. }
  apply download_loop_requests in Hloop as (Hself & t & Ht & Hn).
  cbn [s1 self world trace] in *. rewrite Z.sub_0_r in Hn.
  assert (∃ t0, trace (world s2) = trace w ++ t0
                ∧ Z.of_nat (file_requests t0) <= Z.max 0 (max_redirections u + 1)) as Hs2.
  { exists (EvTmpOpen (next_temp w) :: t). split; [rewrite Ht; by rewrite <- app_assoc|].
    change (?e :: t) with ([e] ++ t). rewrite file_requests_app. unfold file_requests at 1; cbn; lia. }
  destruct r as [[why|fh]|e].
  - intros [= <- <-]. by split.
  - cbn. destruct (negb _); intros [= <- <-]; by split.
  - intros [= <- <-]. split; [congruence | done].
Qed.

(** X1.  [_sha256File] returns the SHA-256 digest of the whole content of
    the file, of any length, wherever the position of the file object was
    before the call: the file is rewound and read to its end in blocks of
    128 bytes. *)
Theorem sha256File_any_position (f : fileobj) (n : nat) :
  _sha256File (seek f n) = SHA256.hexdigest (buf f)
  ∧ _sha256File f = SHA256.hexdigest (buf f).
Proof. by rewrite !_sha256File_spec. Qed.

(** X3.  When [_downloadFile] returns a file object, the expected digest is
    the SHA-256 digest of all its bytes and its position is 0; it is the
    temporary file opened by this call, which is left open; the file tree
    and the attributes of the object are as before. *)
Theorem downloaded_handle_is_verified (E : Env) (loc : string) (file_hash : json)
    (s s' : State) (id : nat) (fh : fileobj) :
  _downloadFile E loc file_hash s = (Ok (Some (id, fh)), s') →
  file_hash = JStr (SHA256.hexdigest (buf fh))
  ∧ pos fh = 0%nat
  ∧ id = next_temp (world s)
  ∧ open_temps (world s') = open_temps (world s) ++ [id]
  ∧ fs (world s') = fs (world s)
  ∧ self s' = self s.
Proof.
  intros Hrun.
  destruct (downloadFile_digest _ _ _ _ _ _ _ Hrun) as [Hhash Hpos].
  destruct (downloadFile_temps _ _ _ _ _ _ Hrun) as (Hid & _ & Hopen).
  split_and!; try done.
  - eapply (keeps_run (on_world tree_untouched)) in Hrun as [Hfs _]; [done|].
    apply keeps_downloadFile; apply _.
  - symmetry. eapply (keeps_run (on_self eq)); [exact Hrun|].
    apply keeps_downloadFile; [apply self_streams_keep | apply self_temps_keep]; apply _.
Qed.

(** The run of a download without a redirection. *)
Lemma direct_download_run E s loc file_hash repo symlinks chunks :
  repoInstanceLocation (self s) = Some repo →
  newestSymlinks (self s) = Some symlinks →
  str_in_list loc symlinks = false →
  0 <= max_redirections (self s) →
  tmp_ok E (tick (world s)) = true →
  http_file E (S (tick (world s))) (os_path_join (url (self s)) [repo; loc]) = Some chunks →
  _downloadFile E loc file_hash s
  = (Ok (if str_eq_json (SHA256.hexdigest (concat chunks)) file_hash
         then Some (next_temp (world s), FileObj (concat chunks) 0)
         else None),
     {| self := self s;
        world := {| fs := fs (world s);
                    open_temps := open_temps (world s) ++ [next_temp (world s)];
                    next_temp := S (next_temp (world s));
                    tick := S (S (tick (world s)));
                    trace := trace (world s)
                             ++ [EvTmpOpen (next_temp (world s));
                                 EvGetFile (os_path_join (url (self s)) [repo; loc])] |} |}).
Proof.
  intros Hrepo Hsym Hno Hmax Htmp Hget. destruct s as [u w]. cbn [self world] in *.
  unfold _downloadFile, downloadFile_why.
  unfold bind at 1. unfold bind at 1.
  unfold TemporaryFile, bind at 1, get_world. cbn [world]. rewrite Htmp.
  unfold bind at 1, put_world, ret. cbn [self world].
  unfold bind at 1, get_self. cbn [self].
  unfold bind at 1.
  assert (download_fuel u = S (Z.to_nat (max_redirections u) + 1)) as ->
    by (unfold download_fuel; lia).
  cbn [download_loop]. unfold bind at 1, get_self. cbn [self].
  destruct (Z.gtb_spec 0 (max_redirections u)); [lia|]. rewrite Hrepo.
  unfold bind at 1, requests_get_stream, bind at 1, get_world. cbn [world tick].
  unfold bind at 1, put_world, ret. cbn [world self tick].
  rewrite Hget, Hsym, Hno. cbn [negb].
  rewrite write_chunks_concat by done. cbn [buf app seek].
  rewrite _sha256File_spec. cbn [buf].
  unfold with_tick, with_event, seek. cbn [fs open_temps next_temp tick trace buf].
  rewrite <- app_assoc. by destruct (str_eq_json _ file_hash).
Qed.

(** X4.  A path that is no symlink is downloaded in one request: all the
    call does is to open its temporary file and to ask once, for the path
    under the location of the instance.  The temporary file holds the chunks
    of the response one after the other (empty chunks are skipped), and it
    is returned, rewound, exactly when the digest of these bytes is the
    expected one; otherwise the result is [None]. *)
Theorem direct_download (E : Env) (s : State) (loc : string) (file_hash : json)
    (repo : string) (symlinks : list json) (chunks : list (list byte)) :
  repoInstanceLocation (self s) = Some repo →
  newestSymlinks (self s) = Some symlinks →
  str_in_list loc symlinks = false →
  0 <= max_redirections (self s) →
  tmp_ok E (tick (world s)) = true →
  http_file E (S (tick (world s))) (os_path_join (url (self s)) [repo; loc]) = Some chunks →
  fst (_downloadFile E loc file_hash s)
  = Ok (if str_eq_json (SHA256.hexdigest (concat chunks)) file_hash
        then Some (next_temp (world s), FileObj (concat chunks) 0)
        else None)
  ∧ trace (world (snd (_downloadFile E loc file_hash s)))
    = trace (world s)
      ++ [EvTmpOpen (next_temp (world s));
          EvGetFile (os_path_join (url (self s)) [repo; loc])]
  ∧ file_requests
      (drop (length (trace (world s)))
            (trace (world (snd (_downloadFile E loc file_hash s))))) = 1%nat.
Proof.
  intros Hrepo Hsym Hno Hmax Htmp Hget.
  rewrite (direct_download_run E s loc file_hash repo symlinks chunks) by done.
  cbn [fst snd world trace]. split_and!; [done | done |].
  by rewrite drop_app_length.
Qed.

(** ** The further statements on concrete repositories *)

Lemma download_requests_bounded_witness :
  fst (_downloadFile (Scenario.E_chain 11) (Scenario.link 0) JNull (Scenario.s_chain 11))
  ≠ Raise OutOfFuel
  ∧ ∃ t,
      trace (world (snd (_downloadFile (Scenario.E_chain 11) (Scenario.link 0) JNull
                           (Scenario.s_chain 11))))
      = trace (world (Scenario.s_chain 11)) ++ t
      ∧ Z.of_nat (file_requests t)
        <= Z.max 0 (max_redirections (self (Scenario.s_chain 11)) + 1).
Proof.
  apply (download_requests_bounded (Scenario.E_chain 11) (Scenario.link 0) JNull
           (Scenario.s_chain 11)).
  vm_compute. reflexivity.
Defined.

Lemma downloaded_handle_is_verified_witness :
  JStr (SHA256.hexdigest Scenario.payload)
  = JStr (SHA256.hexdigest (buf (FileObj Scenario.payload 0)))
  ∧ pos (FileObj Scenario.payload 0) = 0%nat
  ∧ 0%nat = next_temp (world (Scenario.s_chain 10))
  ∧ open_temps (world (snd (_downloadFile (Scenario.E_chain 10) (Scenario.link 0)
                             (JStr (SHA256.hexdigest Scenario.payload))
                             (Scenario.s_chain 10))))
    = open_temps (world (Scenario.s_chain 10)) ++ [0%nat]
  ∧ fs (world (snd (_downloadFile (Scenario.E_chain 10) (Scenario.link 0)
                      (JStr (SHA256.hexdigest Scenario.payload))
                      (Scenario.s_chain 10))))
    = fs (world (Scenario.s_chain 10))
  ∧ self (snd (_downloadFile (Scenario.E_chain 10) (Scenario.link 0)
                 (JStr (SHA256.hexdigest Scenario.payload))
                 (Scenario.s_chain 10)))
    = self (Scenario.s_chain 10).
Proof.
  apply (downloaded_handle_is_verified (Scenario.E_chain 10) (Scenario.link 0)
           (JStr (SHA256.hexdigest Scenario.payload)) (Scenario.s_chain 10)).
  vm_compute. reflexivity.
Defined.

Lemma direct_download_witness :
  fst (_downloadFile Cases.E_direct "x.txt" (Scenario.sha "hi") Scenario.s_faulty)
  = Ok (Some (0%nat, FileObj (bytes_of "hi") 0))
  ∧ trace (world (snd (_downloadFile Cases.E_direct "x.txt" (Scenario.sha "hi")
                         Scenario.s_faulty)))
    = [EvTmpOpen 0; EvGetFile "https://repo/server/x.txt"].
Proof.
  destruct (direct_download Cases.E_direct Scenario.s_faulty "x.txt" (Scenario.sha "hi")
              "server" [] [bytes_of "h"; []; bytes_of "i"])
    as (Hres & Htrace & _);
    [reflexivity | reflexivity | reflexivity | vm_compute; discriminate
    | reflexivity | vm_compute; reflexivity |].
  split.
  - rewrite Hres. vm_compute. reflexivity.
  - rewrite Htrace. reflexivity.
Defined.

Lemma getRepositoryInformation_outcome_witness :
  ∃ d insts entry loc,
    repoInfo (self (snd (_getRepositoryInformation Scenario.E_old Scenario.s_fresh)))
    = JDict d
    ∧ dict_get d "instances" = Some insts
    ∧ py_getitem insts "server" = Ok entry
    ∧ py_getitem entry "location" = Ok loc
    ∧ repoInstanceLocation
        (self (snd (_getRepositoryInformation Scenario.E_old Scenario.s_fresh)))
      = Some (match loc with JStr x => x | _ => py_str Scenario.E_old loc end).
Proof.
  apply (getRepositoryInformation_outcome Scenario.E_old Scenario.s_fresh _ (Ok true)).
  vm_compute. reflexivity.
Defined.

Lemma getInstanceInformation_validates_witness :
  validated
    (instanceInfo (self (snd (_getInstanceInformation Scenario.E_old Scenario.s_fresh)))).
Proof.
  destruct (getInstanceInformation_validates Scenario.E_old Scenario.s_fresh
              (snd (_getInstanceInformation Scenario.E_old Scenario.s_fresh)) (Ok true))
    as (_ & b & Hb & Hv).
  - vm_compute. reflexivity.
  - injection Hb as <-. by apply Hv.
Defined.

Lemma getNewestVersionInformation_outcome_witness :
  recorded (self (snd (_getNewestVersionInformation Scenario.E_old Scenario.s_fresh)))
  ∧ fetch_frame (self Scenario.s_fresh)
      (self (snd (_getNewestVersionInformation Scenario.E_badlinks Scenario.s_fresh))).
Proof.
  split.
  - destruct (getNewestVersionInformation_outcome Scenario.E_old Scenario.s_fresh
                (snd (_getNewestVersionInformation Scenario.E_old Scenario.s_fresh))
                (Ok true)) as (b & Hb & Hv).
    + vm_compute. reflexivity.
    + injection Hb as <-. apply Hv.
  - destruct (getNewestVersionInformation_outcome Scenario.E_badlinks Scenario.s_fresh
                (snd (_getNewestVersionInformation Scenario.E_badlinks Scenario.s_fresh))
                (Ok false)) as (b & Hb & Hv).
    + vm_compute. reflexivity.
    + injection Hb as <-. apply Hv.
Defined.


Lemma configuration_is_fixed_witness :
  same_config (self Scenario.s_mixed)
    (self (snd (updateInstance Scenario.E_mixed Scenario.s_mixed))).
Proof.
  apply (configuration_is_fixed Scenario.E_mixed).
  apply rtc_once.
  apply (call_update _ _ (fst (updateInstance Scenario.E_mixed Scenario.s_mixed))).
  vm_compute. reflexivity.
Defined.

(** ** The directory helpers *)

#[global] Instance only_creates_preorder : PreOrder only_creates.
Proof.
  split.
  - intros w. split_and!; [done | congruence | reflexivity | reflexivity].
  - intros w1 w2 w3 (K1 & N1 & T1 & X1) (K2 & N2 & T2 & X2). split_and!.
    + intros k n Hk. by apply K2, K1.
    + intros k n Hk3 Hk1. destruct (fs w2 !! k) as [n2|] eqn:Hk2.
      * apply K2 in Hk2 as Hk3'. rewrite Hk3 in Hk3'. injection Hk3' as ->.
        by eapply N1.
      * by eapply N2.
    + by etransitivity.
    + by etransitivity.
Qed.

#[global] Instance only_prunes_preorder : PreOrder only_prunes.
Proof.
  split.
  - intros w. split_and!; [done | congruence | reflexivity | reflexivity].
  - intros w1 w2 w3 (K1 & N1 & T1 & X1) (K2 & N2 & T2 & X2). split_and!.
    + intros k n Hk. by apply K1, K2.
    + intros k n Hk1 Hk3. destruct (fs w2 !! k) as [n2|] eqn:Hk2.
      * apply K1 in Hk2 as Hk1'. rewrite Hk1 in Hk1'. injection Hk1' as ->.
        by eapply N2.
      * destruct (N1 k n Hk1 Hk2) as [Hdir Hch]. split; [done|].
        intros k' Hp Hne. specialize (Hch k' Hp Hne).
        destruct (fs w3 !! k') as [n'|] eqn:Hk'; [|done].
        apply K2 in Hk'. congruence.
    + by etransitivity.
    + by etransitivity.
Qed.

Lemma keeps_creates_mkdir p :
  keeps (on_world only_creates) (fs_mutate (fun f => os_mkdir f p) (EvMkdir p)).
Proof.
  intros [u w] o s' Hrun.
  unfold fs_mutate, bind, get_world, put_world, lift_os, raise, ret in Hrun.
  cbn [world self] in Hrun.
  destruct (os_mkdir (fs w) p) as [e|f] eqn:Hmk.
  { injection Hrun as _ <-. reflexivity. }
  injection Hrun as _ <-. unfold on_world. cbn [world].
  unfold os_mkdir in Hmk. destruct (fs w !! fskey p) eqn:Hk; [discriminate|].
  destruct (parent_ready _ _); [discriminate|]. injection Hmk as <-.
  split_and!; cbn.
  - intros k n Hkn. rewrite lookup_insert_ne; [done|]. congruence.
  - intros k n Hkn Hnone. destruct (decide (fskey p = k)) as [<-|Hne].
    + rewrite lookup_insert in Hkn. by rewrite decide_True in Hkn by done; simplify_eq.
    + rewrite lookup_insert_ne in Hkn by done. congruence.
  - done.
  - eexists [_]. split; [done | by repeat constructor].
Qed.

Lemma os_listdir_empty (f : FS) p k' :
  os_listdir f p = inr [] → parent k' = fskey p → k' ≠ fskey p → f !! k' = None.
Proof.
  unfold os_listdir. intros Hl Hp Hne.
  destruct (f !! fskey p) as [[|m]|]; try discriminate. injection Hl as Hl.
  destruct (f !! k') as [n|] eqn:Hk'; [|done].
  assert (k' ∈ filter (fun k => bool_decide (parent k = fskey p ∧ k ≠ fskey p))
                 (map fst (map_to_list f))) as Hin.
  { apply list_elem_of_filter. split.
    - apply bool_decide_pack. by split.
    - apply list_elem_of_fmap. exists (k', n). split; [done|].
      by apply elem_of_map_to_list. }
  rewrite Hl in Hin. by apply elem_of_nil in Hin.
Qed.

Lemma keeps_prunes_rmdir p :
  keeps (on_world only_prunes) (fs_mutate (fun f => os_rmdir f p) (EvRmdir p)).
Proof.
  intros [u w] o s' Hrun.
  unfold fs_mutate, bind, get_world, put_world, lift_os, raise, ret in Hrun.
  cbn [world self] in Hrun.
  destruct (os_rmdir (fs w) p) as [e|f] eqn:Hrm.
  { injection Hrun as _ <-. reflexivity. }
  injection Hrun as _ <-. unfold on_world. cbn [world].
  unfold os_rmdir in Hrm. destruct (os_listdir (fs w) p) as [e|[|c cs]] eqn:Hl;
    try discriminate.
  destruct (is_base _); [discriminate|].
  destruct (parent_ready _ _); [discriminate|]. injection Hrm as <-.
  split_and!; cbn.
  - intros k n Hkn. apply lookup_delete_Some in Hkn. by destruct Hkn.
  - intros k n Hkn Hnone. apply lookup_delete_None in Hnone as [<-|Hnone]; [|congruence].
    split.
    + unfold os_listdir in Hl. rewrite Hkn in Hl. destruct n; [discriminate | eauto].
    + intros k' Hp Hne. apply lookup_delete_None. right. by eapply os_listdir_empty.
  - done.
  - eexists [_]. split; [done | by repeat constructor].
Qed.

Section DirectoryHelpers.

Local Hint Resolve keeps_creates_mkdir keeps_prunes_rmdir : keeps.

Lemma keeps_creates_body targetDirectory tempPart part :
  keeps (on_world only_creates)
    (f <- get_fs ;;
     let p := os_path_join targetDirectory [tempPart; part] in
     (if negb (os_path_exists f p) then mkdir p
      else if negb (os_path_isdir f p)
           then raise (ValueError "Location already exists and is not a directory.")
           else ret tt) ;;;
     ret (inl (B := Empty_set) (os_path_join tempPart [part]))).
Proof. cbv zeta. keeps_auto. Qed.

Lemma createSubDirectories_creates fileLocation targetDirectory :
  keeps (on_world only_creates) (_createSubDirectories fileLocation targetDirectory).
Proof. unfold _createSubDirectories. keeps_auto. Qed.


Local Hint Resolve keeps_self_fs_mutate : keeps.

Lemma createSubDirectories_self fileLocation targetDirectory :
  keeps (on_self eq) (_createSubDirectories fileLocation targetDirectory).
Proof. unfold _createSubDirectories. keeps_auto. Qed.


End DirectoryHelpers.

Lemma createSubDirectories_never_raises fileLocation targetDirectory :
  never_raises (_createSubDirectories fileLocation targetDirectory).
Proof. unfold never_raises, _createSubDirectories. raises_auto. Qed.


Lemma only_creates_isdir w w' p :
  only_creates w w' → os_path_isdir (fs w) p = true → os_path_isdir (fs w') p = true.
Proof.
  intros (K & _) Hd. unfold os_path_isdir in *.
  destruct (fs w !! fskey p) as [n|] eqn:Hk; [|discriminate].
  by rewrite (K _ _ Hk).
Qed.

Lemma mkdir_isdir p s s' :
  mkdir p s = (Ok tt, s') → os_path_isdir (fs (world s')) p = true.
Proof.
  unfold mkdir, fs_mutate, bind, get_world, put_world, lift_os, raise, ret.
  destruct (os_mkdir _ p) as [e|f] eqn:Hmk; [discriminate|]. intros [= <-]. cbn.
  unfold os_mkdir in Hmk. destruct (fs (world s) !! fskey p); [discriminate|].
  destruct (parent_ready _ _); [discriminate|]. injection Hmk as <-.
  unfold os_path_isdir. by rewrite lookup_insert, decide_True.
Qed.

Lemma create_loop_dirs targetDirectory parts tempPart s acc s' :
  for_loop (R := Empty_set) parts
    (fun tempPart part =>
       f <- get_fs ;;
       let p := os_path_join targetDirectory [tempPart; part] in
       (if negb (os_path_exists f p) then mkdir p
        else if negb (os_path_isdir f p)
             then raise (ValueError "Location already exists and is not a directory.")
             else ret tt) ;;;
       ret (inl (os_path_join tempPart [part])))
    tempPart s = (Ok (inl acc), s') →
  ∀ p, p ∈ dir_chain targetDirectory tempPart parts →
       os_path_isdir (fs (world s')) p = true.
Proof.
  revert tempPart s. induction parts as [|part parts IH]; intros tempPart s Hrun p Hp;
    cbn [dir_chain] in Hp; [by apply elem_of_nil in Hp|].
  cbn [for_loop] in Hrun.
  apply bind_ok_inv in Hrun as (r & s1 & Hbody & Hrun).
  assert (r = inl (os_path_join tempPart [part])
          ∧ os_path_isdir (fs (world s1))
              (os_path_join targetDirectory [tempPart; part]) = true) as [-> Hdir].
  { apply bind_ok_inv in Hbody as (f & s0 & [= <- <-] & Hbody). cbv zeta in Hbody.
    apply bind_ok_inv in Hbody as ([] & s2 & Hstep & [= <- <-]). split; [done|].
    destruct (os_path_exists _ _); cbn [negb] in Hstep.
    - destruct (os_path_isdir _ _) eqn:Hd; cbn [negb] in Hstep; [|discriminate].
      by injection Hstep as <-.
    - by eapply mkdir_isdir. }
  apply elem_of_cons in Hp as [->|Hp]; [|by eapply IH].
  eapply only_creates_isdir; [|exact Hdir].
  eapply (keeps_run (on_world only_creates)); [exact Hrun|].
  apply keeps_for_loop; [apply _|]. intros b a. apply keeps_creates_body.
Qed.

(** X11.  [_createSubDirectories] never raises and leaves the object
    alone.  All it does to the world is to create directories with the
    default mode: no node that was there is changed or removed.  When it
    returns [True], every directory on the way to the file is a directory
    afterwards. *)
Theorem createSubDirectories_outcome (fileLocation targetDirectory : string)
    (s s' : State) (o : outcome bool) :
  _createSubDirectories fileLocation targetDirectory s = (o, s') →
  self s' = self s
  ∧ only_creates (world s) (world s')
  ∧ ∃ b, o = Ok b
      ∧ (b = true →
         ∀ p, p ∈ dir_chain targetDirectory "" (removelast (split_slash fileLocation)) →
              os_path_isdir (fs (world s')) p = true).
Proof.
  intros Hrun. split_and!.
  - symmetry. eapply (keeps_run (on_self eq)); [exact Hrun|].
    apply createSubDirectories_self.
  - eapply (keeps_run (on_world only_creates)); [exact Hrun|].
    apply createSubDirectories_creates.
  - destruct o as [b|e];
      [|by destruct (createSubDirectories_never_raises _ _ _ _ _ Hrun)].
    exists b. split; [done|]. intros -> p Hp.
    unfold _createSubDirectories in Hrun.
    destruct (negb _) eqn:Hlen.
    + apply try_except_ok_inv in Hrun as [Hrun|(e & s1 & _ & [=])].
      apply bind_ok_inv in Hrun as (r & s1 & Hloop & [= <-]).
      destruct r as [acc|[]]. by eapply create_loop_dirs.
    + apply negb_false_iff, Nat.eqb_eq in Hlen.
      destruct (split_slash fileLocation) as [|c [|c' l]]; try discriminate.
      by apply elem_of_nil in Hp.
Qed.



(** ** The permission audit *)

Lemma for_loop_break {A B R} (P : R → Prop) (l : list A) (body : B → A → M (B + R))
    acc s r s' :
  (∀ b a s r s', body b a s = (Ok (inr r), s') → P r) →
  for_loop l body acc s = (Ok (inr r), s') → P r.
Proof.
  intros Hb. revert acc s. induction l as [|a l IH]; intros acc s Hrun;
    cbn [for_loop] in Hrun; [discriminate|].
  apply bind_ok_inv in Hrun as (x & s1 & Hbody & Hrun).
  destruct x as [b|r0]; [by eapply IH|].
  injection Hrun as <- <-. by eapply Hb.
Qed.

(** X10.  The permission audit changes nothing.  When it returns [True],
    every entry of the plan is New, Modify or Delete; the path of every
    Modify and Delete entry is writable (so it exists); and for a New entry
    whose path has a single component the instance directory is writable. *)
Theorem audit_passes_only_if_writable (plan : pydict Z) (s s' : State)
    (o : outcome bool) :
  _checkFilePermissions plan s = (o, s') →
  s' = s
  ∧ (o = Ok true →
     ∀ k a, dict_get plan k = Some a →
       (a = NEW ∨ a = MODIFY ∨ a = DELETE)
       ∧ (a = MODIFY ∨ a = DELETE →
          os_access_W (fs (world s)) (os_path_join (instanceLocation (self s)) [k]) = true)
       ∧ (a = NEW → length (split_slash k) = 1%nat →
          os_access_W (fs (world s)) (instanceLocation (self s)) = true)).
Proof.
  intros Hrun. split; [by eapply checkFilePermissions_pure|]. intros ->.
  unfold _checkFilePermissions in Hrun.
  apply bind_ok_inv in Hrun as (u & s0 & [= <- <-] & Hrun).
  apply bind_ok_inv in Hrun as (f & s0 & [= <- <-] & Hrun).
  apply bind_ok_inv in Hrun as (r & s1 & Hloop & Hret).
  match type of Hloop with for_loop _ ?b _ _ = _ => set (body := b) in * end.
  assert (∀ l s0 r s1,
            for_loop l body tt s0 = (Ok r, s1) →
            match r with
            | inl _ =>
                ∀ k, k ∈ l → ∀ a, dict_get plan k = Some a →
                  (a = NEW ∨ a = MODIFY ∨ a = DELETE)
                  ∧ (a = MODIFY ∨ a = DELETE →
                     os_access_W (fs (world s))
                       (os_path_join (instanceLocation (self s)) [k]) = true)
                  ∧ (a = NEW → length (split_slash k) = 1%nat →
                     os_access_W (fs (world s)) (instanceLocation (self s)) = true)
            | inr b => b = false
            end) as Hinv.
  { clear. induction l as [|k l IH]; intros s0 r s1 Hrun; cbn [for_loop] in Hrun.
    - injection Hrun as <- <-. intros k Hk. by apply elem_of_nil in Hk.
    - apply bind_ok_inv in Hrun as (x & s2 & Hbody & Hrun).
      unfold body at 1 in Hbody.
      destruct (dict_get plan k) as [action|] eqn:Hact; [|discriminate].
      assert (match x with
              | inl _ =>
                  (action = NEW ∨ action = MODIFY ∨ action = DELETE)
                  ∧ (action = MODIFY ∨ action = DELETE →
                     os_access_W (fs (world s))
                       (os_path_join (instanceLocation (self s)) [k]) = true)
                  ∧ (action = NEW → length (split_slash k) = 1%nat →
                     os_access_W (fs (world s)) (instanceLocation (self s)) = true)
              | inr b => b = false
              end) as Hx.
      { destruct (Z.eqb_spec action MODIFY) as [->|Hm].
        { match type of Hbody with context [os_access_W ?x ?y] =>
            destruct (os_access_W x y) eqn:Hw end; cbn [negb] in Hbody; unfold ret in Hbody;
            injection Hbody as <- <-; [|done].
          split_and!; [by right; left | done | done]. }
        destruct (Z.eqb_spec action NEW) as [->|Hn].
        { destruct (Nat.eqb_spec (length (split_slash k)) 1) as [Hlen|Hlen].
          - match type of Hbody with context [os_access_W ?x ?y] =>
            destruct (os_access_W x y) eqn:Hw end; cbn [negb] in Hbody; unfold ret in Hbody;
            injection Hbody as <- <-; [|done].
            split_and!; [by left | by intros [|] | done].
          - apply bind_ok_inv in Hbody as (y & s3 & Hinner & Hbody).
            destruct y as [acc|b]; unfold ret in Hbody; injection Hbody as <- <-.
            + split_and!; [by left | by intros [|] | done].
            + eapply (for_loop_break (fun b => b = false)); [|exact Hinner].
              intros b0 a s4 r0 s5 Hb. cbv beta zeta in Hb.
              match type of Hb with context [os_path_exists ?x ?y] =>
                destruct (os_path_exists x y) end; [|discriminate].
              match type of Hb with context [os_access_W ?x ?y] =>
                destruct (os_access_W x y) end; [discriminate|].
              unfold ret in Hb. cbn in Hb. by injection Hb as <-. }
        destruct (Z.eqb_spec action DELETE) as [->|Hd]; [|discriminate].
        match type of Hbody with context [os_access_W ?x ?y] =>
            destruct (os_access_W x y) eqn:Hw end; cbn [negb] in Hbody; unfold ret in Hbody;
            injection Hbody as <- <-; [|done].
        split_and!; [by right; right | done | done]. }
      destruct x as [[]|b].
      + apply IH in Hrun. destruct r as [acc|b]; [|done].
        intros k' Hk' a Ha. apply elem_of_cons in Hk' as [->|Hk']; [|by eapply Hrun].
        rewrite Hact in Ha. by injection Ha as <-.
      + injection Hrun as <- <-. done. }
  apply Hinv in Hloop. destruct r as [acc|b].
  - intros k a Ha. apply (Hloop k); [|done].
    apply dict_keys_is_Some. by rewrite Ha.
  - subst b. discriminate.
Qed.

(** ** The phases of an update *)

Lemma download_loop_handles E u plan files l d s d' s' :
  newestFiles u = Some files →
  for_loop l (download_entry E u plan) d s = (Ok (inl d'), s') →
  (∀ k h, dict_get d k = Some h → verified_handle plan files k h) →
  (∀ k h, dict_get d' k = Some h → verified_handle plan files k h)
  ∧ (∀ k, k ∈ l → dict_get plan k = Some NEW ∨ dict_get plan k = Some MODIFY →
          is_Some (dict_get d' k))
  ∧ (∀ k, is_Some (dict_get d k) → is_Some (dict_get d' k)).
Proof.
  intros Hfiles. revert d s. induction l as [|k l IH]; intros d s Hrun Hd;
    cbn [for_loop] in Hrun.
  - injection Hrun as <- <-. split_and!; [done | | done].
    intros k Hk. by apply elem_of_nil in Hk.
  - apply bind_ok_inv in Hrun as (r & s1 & Hbody & Hrun).
    destruct r as [d1|b]; [|discriminate].
    unfold download_entry in Hbody. rewrite Hfiles in Hbody.
    destruct (dict_get plan k) as [action|] eqn:Hact; [|discriminate].
    destruct ((action =? NEW)%Z || (action =? MODIFY)%Z) eqn:Hnm.
    + destruct (dict_get files k) as [file_hash|] eqn:Hh; [|discriminate].
      apply bind_ok_inv in Hbody as (h & s2 & Hdl & Hbody).
      destruct h as [[id fh]|].
      2:{ apply bind_ok_inv in Hbody as (? & ? & _ & [=]). }
      injection Hbody as <- <-.
      apply downloadFile_digest in Hdl as [-> Hpos].
      destruct (IH _ _ Hrun) as (Hv & Hall & Hmono).
      { intros k' h'. rewrite dict_get_set. case_decide as Hk; [|apply Hd].
        subst k'. intros [= <-]. split_and!; [|done..].
        apply orb_true_iff in Hnm as [->%Z.eqb_eq | ->%Z.eqb_eq]; eauto. }
      split_and!; [done | |].
      * intros k' Hk' Hnew. apply elem_of_cons in Hk' as [->|Hk']; [|by apply Hall].
        apply Hmono. rewrite dict_get_set, decide_True by done. eauto.
      * intros k' Hk'. apply Hmono. rewrite dict_get_set. by case_decide.
    + injection Hbody as <- <-. destruct (IH _ _ Hrun Hd) as (Hv & Hall & Hmono).
      split_and!; [done | | done].
      intros k' Hk' Hnew. apply elem_of_cons in Hk' as [->|Hk']; [|by apply Hall].
      rewrite Hact in Hnew. apply orb_false_iff in Hnm as [Hn Hm].
      destruct Hnew as [[= ->]|[= ->]]; discriminate.
Qed.

(** X13.  In every run of [updateInstance], either the file tree is not
    touched at all, or the audit had passed and the download loop had
    ended with a handle for every New and Modify entry of the plan, each
    handle rewound and holding bytes whose digest is the one [newestFiles]
    gives for its path; up to the end of the download loop nothing is
    written, created or removed. *)
Theorem tree_changes_need_verified_downloads (E : Env) (s s' : State) (o : outcome bool) :
  updateInstance E s = (o, s') →
  tree_untouched (world s) (world s')
  ∨ ∃ plan files s1 d s2,
      _checkFilesToUpdate E s = (Ok (Some plan), s1)
      ∧ _checkFilePermissions plan s1 = (Ok true, s1)
      ∧ download_all E plan s1 = (Ok (inl d), s2)
      ∧ tree_untouched (world s) (world s2)
      ∧ newestFiles (self s1) = Some files
      ∧ (∀ k h, dict_get d k = Some h → verified_handle plan files k h)
      ∧ (∀ k, dict_get plan k = Some NEW ∨ dict_get plan k = Some MODIFY →
              is_Some (dict_get d k)).
Proof.
  intros Hrun. unfold updateInstance in Hrun.
  apply bind_run in Hrun as (o1 & s1 & Hcheck & Hrun).
  assert (tree_untouched (world s) (world s1)) as H1.
  { eapply (keeps_run (on_world tree_untouched)); [exact Hcheck|].
    apply keeps_checkFilesToUpdate; apply _. }
  destruct o1 as [[plan|]|e];
    [| injection Hrun as _ <-; by left | destruct Hrun as [-> _]; by left].
  destruct (dict_len plan =? 0)%nat; [injection Hrun as _ <-; by left|].
  unfold update_with in Hrun.
  apply bind_run in Hrun as (o2 & s2 & Haudit & Hrun).
  apply checkFilePermissions_pure in Haudit as Hs2. subst s2.
  destruct o2 as [[|]|e]; cbn [negb] in Hrun;
    [| injection Hrun as _ <-; by left | destruct Hrun as [-> _]; by left].
  apply bind_run in Hrun as (o3 & s3 & Hdl & Hrun).
  assert (tree_untouched (world s1) (world s3)) as H3.
  { eapply (keeps_run (on_world tree_untouched)); [exact Hdl|].
    apply keeps_download_all; apply _. }
  assert (tree_untouched (world s) (world s3)) as H13 by by etransitivity.
  destruct o3 as [[d|b]|e];
    [| injection Hrun as _ <-; by left | destruct Hrun as [-> _]; by left].
  clear Hrun.
  assert (∃ files, newestFiles (self s1) = Some files) as [files Hfiles].
  { unfold _checkFilesToUpdate in Hcheck.
    apply bind_ok_inv in Hcheck as (ok & s0 & _ & Hcheck).
    destruct ok; cbn [negb] in Hcheck; [|discriminate].
    apply bind_ok_inv in Hcheck as (u & s4 & [= <- <-] & Hcheck).
    destruct (newestFiles (self s0)) as [files|] eqn:Hf; [|discriminate].
    exists files.
    apply bind_ok_inv in Hcheck as (p & s4 & Hplan & [= _ <-]).
    apply (keeps_run eq) in Hplan as <-; [done|]. apply keeps_plan_files. apply _. }
  right. exists plan, files, s1, d, s3.
  unfold download_all in Hdl. apply bind_ok_inv in Hdl as (u & s0 & [= <- <-] & Hloop).
  destruct (download_loop_handles _ _ _ _ _ _ _ _ _ Hfiles Hloop) as (Hv & Hall & _);
    [done|].
  split_and!; try done.
  intros k Hk. apply Hall; [|done]. apply dict_keys_is_Some.
  destruct Hk as [-> | ->]; eauto.
Qed.

#[global] Instance same_temps_applies E : AppliesKeep E (on_world same_temps).
Proof.
  split; [apply _ | |].
  - intros op ev. unfold fs_mutate. keeps_prim.
  - intros src p. unfold copyfileobj. keeps_prim.
Qed.

(** The download loop that succeeds: the handles kept are the temporary
    files opened since the loop began, and these are open. *)
Lemma download_loop_success E u plan l d s d' s' n0 :
  for_loop l (download_entry E u plan) d s = (Ok (inl d'), s') →
  (∀ k, k ∈ l → k ∉ map fst d) →
  NoDup l →
  (n0 <= next_temp (world s))%nat →
  (∀ id, id ∈ handle_ids d ↔ (n0 <= id < next_temp (world s))%nat) →
  (next_temp (world s) <= next_temp (world s'))%nat
  ∧ (∀ id, id ∈ handle_ids d' ↔ (n0 <= id < next_temp (world s'))%nat)
  ∧ (∀ id, id ∈ open_temps (world s')
           ↔ id ∈ open_temps (world s)
             ∨ (next_temp (world s) <= id < next_temp (world s'))%nat).
Proof.
  revert d s. induction l as [|k l IH]; intros d s Hrun Hfresh Hnd Hn0 Hids;
    cbn [for_loop] in Hrun.
  - injection Hrun as <- <-. split_and!; [done..|]. intros id. split; [by left|].
    intros [?|?]; [done | lia].
  - apply NoDup_cons in Hnd as [Hk Hnd].
    apply bind_ok_inv in Hrun as (r & s1 & Hbody & Hrun).
    destruct r as [d1|b]; [|discriminate].
    unfold download_entry in Hbody.
    destruct (dict_get plan k) as [action|]; [|discriminate].
    destruct ((action =? NEW)%Z || (action =? MODIFY)%Z).
    + destruct (newestFiles u) as [files|]; [|discriminate].
      destruct (dict_get files k) as [file_hash|]; [|discriminate].
      apply bind_ok_inv in Hbody as (h & s2 & Hdl & Hbody).
      destruct h as [[id fh]|].
      2:{ apply bind_ok_inv in Hbody as (? & ? & _ & [=]). }
      injection Hbody as <- <-.
      apply downloadFile_temps in Hdl as (-> & Hnext & Hopen).
      destruct (IH _ _ Hrun) as (Hn & Hids' & Hopen'); [| done | lia | |].
      * intros k' Hk'. unfold dict_set. rewrite map_app, elem_of_app. cbn.
        rewrite list_elem_of_singleton. intros [Hin| ->]; [|done].
        revert Hin. apply Hfresh. by right.
      * intros i. rewrite Hnext, elem_of_handle_ids. split.
        -- intros (k' & fh' & Hg). rewrite dict_get_set in Hg.
           case_decide; [injection Hg as <- <-; lia|].
           assert (i ∈ handle_ids d) as Hi by (apply elem_of_handle_ids; eauto).
           apply Hids in Hi. lia.
        -- intros Hi. destruct (decide (i = next_temp (world s))) as [->|Hne].
           ++ exists k, fh. by rewrite dict_get_set, decide_True.
           ++ assert (i ∈ handle_ids d) as Hi' by (apply Hids; lia).
              apply elem_of_handle_ids in Hi' as (k' & fh' & Hg).
              exists k', fh'. rewrite dict_get_set, decide_False; [done|].
              intros ->. apply (Hfresh k'); [left | by eapply dict_get_in_keys].
      * split_and!; [lia | done |]. intros i. rewrite Hopen', Hopen, Hnext, elem_of_app,
          list_elem_of_singleton. rewrite Hnext in Hn. intuition lia.
    + injection Hbody as <- <-.
      apply (IH _ _ Hrun); try done. intros k' Hk'. apply Hfresh. by right.
Qed.

Lemma download_entry_break E u plan d k s b s' :
  download_entry E u plan d k s = (Ok (inr b), s') → b = false.
Proof.
  unfold download_entry. intros Hrun.
  destruct (dict_get plan k) as [action|]; [|discriminate].
  destruct ((action =? NEW)%Z || (action =? MODIFY)%Z); [|discriminate].
  destruct (newestFiles u) as [files|]; [|discriminate].
  destruct (dict_get files k) as [file_hash|]; [|discriminate].
  apply bind_ok_inv in Hrun as (h & s2 & _ & Hrun). destruct h; [discriminate|].
  apply bind_ok_inv in Hrun as (? & ? & _ & Hrun). by injection Hrun as <-.
Qed.

Lemma apply_entry_break E plan d k s b s' :
  apply_entry E plan d k s = (Ok (inr b), s') → b = false.
Proof.
  unfold apply_entry. intros Hrun.
  apply bind_ok_inv in Hrun as (u & s0 & _ & Hrun).
  destruct (dict_get plan k) as [action|]; [|discriminate].
  destruct (action =? DELETE)%Z.
  - apply bind_ok_inv in Hrun as (ok & s1 & _ & Hrun).
    destruct ok; cbn [negb] in Hrun; [|by injection Hrun as <-].
    apply bind_ok_inv in Hrun as (? & ? & _ & [=]).
  - apply bind_ok_inv in Hrun as (ok & s1 & _ & Hrun).
    destruct ok; cbn [negb] in Hrun; [|by injection Hrun as <-].
    unfold verify_entry in Hrun.
    apply bind_ok_inv in Hrun as (f & s2 & _ & Hrun).
    repeat (case_match; try discriminate); try (by injection Hrun as <-).
    all: apply bind_ok_inv in Hrun as (ok & s3 & _ & Hrun);
      destruct ok; cbn [negb] in Hrun; [discriminate | by injection Hrun as <-].
Qed.

(** X14.  When [updateInstance] returns [True], every temporary file it
    opened is closed: the open temporary files are those of before. *)
Theorem successful_update_closes_temps (E : Env) (s s' : State) :
  temps_wf (world s) →
  updateInstance E s = (Ok true, s') →
  ∀ id, id ∈ open_temps (world s') ↔ id ∈ open_temps (world s).
Proof.
  intros Hwf Hrun. unfold updateInstance in Hrun.
  apply bind_ok_inv in Hrun as (o1 & s1 & Hcheck & Hrun).
  assert (only_documents (world s) (world s1)) as (_ & Hopen1 & Hnext1 & _).
  { eapply (keeps_run (on_world only_documents)); [exact Hcheck|].
    apply keeps_checkFilesToUpdate; apply _. }
  destruct o1 as [plan|]; [|discriminate].
  destruct (dict_len plan =? 0)%nat; [injection Hrun as <-; by rewrite Hopen1|].
  unfold update_with in Hrun.
  apply bind_ok_inv in Hrun as (ok & s2 & Haudit & Hrun).
  apply checkFilePermissions_pure in Haudit as ->.
  destruct ok; cbn [negb] in Hrun; [|discriminate].
  apply bind_ok_inv in Hrun as (r & s3 & Hdl & Hrun).
  unfold download_all in Hdl. apply bind_ok_inv in Hdl as (u & s0 & [= <- <-] & Hloop).
  destruct r as [d|b].
  2:{ injection Hrun as -> _.
      by apply (for_loop_break (fun b => b = false)) in Hloop;
        [|intros; by eapply download_entry_break]. }
  apply (download_loop_success _ _ _ _ _ _ _ _ (next_temp (world s1))) in Hloop
    as (Hn & Hids & Hopen3);
    [| intros k _; apply not_elem_of_nil | apply NoDup_nub | lia
     | intros id; split; [by intros ?%elem_of_nil | lia] ].
  apply bind_ok_inv in Hrun as (r & s4 & Happly & Hrun).
  assert (same_temps (world s3) (world s4)) as [Hopen4 Hnext4].
  { eapply (keeps_run (on_world same_temps)); [exact Happly|].
    apply keeps_apply_entries. apply _. }
  destruct r as [[]|b].
  2:{ injection Hrun as -> _. unfold apply_entries in Happly.
      by apply (for_loop_break (fun b => b = false)) in Happly;
        [|intros; by eapply apply_entry_break]. }
  apply bind_ok_inv in Hrun as ([] & s5 & Hclose & [= <-]).
  destruct (close_all_run d s4) as (s6 & Hclose' & _ & Hopen6).
  rewrite Hclose in Hclose'. injection Hclose' as <-.
  intros id. rewrite Hopen6, Hopen4, Hopen3, Hids, Hopen1. split.
  - intros [[?|?] ?]; [done | lia].
  - intros Hid. split; [by left|]. apply Hwf in Hid. lia.
Qed.

(** ** The footprint of an update *)

#[global] Instance extends_by_preorder ok : PreOrder (extends_by ok).
Proof.
  split.
  - intros w. exists []. by rewrite app_nil_r.
  - intros w1 w2 w3 (t1 & H1 & F1) (t2 & H2 & F2). exists (t1 ++ t2).
    split; [by rewrite H2, H1, app_assoc | by apply Forall_app].
Qed.

Lemma extends_by_weaken (ok ok' : event → Prop) w w' :
  (∀ e, ok e → ok' e) → extends_by ok w w' → extends_by ok' w w'.
Proof.
  intros Hw (t & Ht & Hok). exists t. split; [done|].
  eapply Forall_impl; [exact Hok | done].
Qed.

Lemma extends_extends_by (b : event → bool) (ok : event → Prop) w w' :
  (∀ e, b e = true → ok e) → extends b w w' → extends_by ok w w'.
Proof.
  intros Hw (t & Ht & Hok). exists t. split; [done|].
  eapply Forall_impl; [exact Hok | done].
Qed.

Lemma keeps_by_mutate ok op ev :
  ok ev → keeps (on_world (extends_by ok)) (fs_mutate op ev).
Proof.
  intros Hok. unfold fs_mutate. keeps_prim.
  eexists [_]. split; [done | by repeat constructor].
Qed.

Lemma keeps_by_copy E ok src p : keeps (on_world (extends_by ok)) (copyfileobj E src p).
Proof.
  unfold copyfileobj. keeps_prim. exists []. split; [by rewrite app_nil_r | constructor].
Qed.

Lemma apply_entry_footprint E plan d k s o s' :
  apply_entry E plan d k s = (o, s') →
  extends_by (plan_event plan (instanceLocation (self s))) (world s) (world s').
Proof.
  intros Hrun. unfold apply_entry in Hrun.
  apply bind_run in Hrun as (o1 & s0 & [= <- <-] & Hrun).
  destruct (dict_get plan k) as [action|] eqn:Hact; [|injection Hrun as _ <-; reflexivity].
  eapply (keeps_run (on_world (extends_by _))); [exact Hrun|]. clear Hrun.
  destruct (Z.eqb_spec action DELETE) as [->|Hne].
  - keeps_auto.
    + apply keeps_by_mutate. cbn. eauto.
    + intros s1 o1 s2 Hdel. eapply extends_extends_by; [|by eapply deleteSubDirectories_rmdirs].
      by intros [].
  - unfold write_entry, verify_entry. keeps_auto.
    all: try (apply keeps_by_mutate; cbn; by eauto).
    all: try apply keeps_by_copy.
    intros s1 o1 s2 Hc. eapply extends_extends_by;
      [|eapply (keeps_run (on_world only_creates)) in Hc as (_ & _ & _ & Hc);
        [exact Hc | apply createSubDirectories_creates]].
    by intros [].
Qed.

#[global] Instance footprint_preorder plan : PreOrder (footprint plan).
Proof.
  split.
  - intros s. split; [done | reflexivity].
  - intros s1 s2 s3 [S1 X1] [S2 X2]. split; [congruence|].
    rewrite S1 in X2. by etransitivity.
Qed.

Lemma keeps_footprint_quiet {A} plan (m : M A) :
  keeps (on_self eq) m → keeps (on_world tree_untouched) m → keeps (footprint plan) m.
Proof.
  intros Hs Hw s o s' Hrun. split; [symmetry; by eapply Hs|].
  destruct (Hw _ _ _ Hrun) as [_ Hx]. eapply extends_extends_by; [|exact Hx].
  by intros [].
Qed.

Lemma plan_files_sources files s plan s' :
  plan_files files s = (Ok plan, s') →
  ∃ local,
    py_getitem (localInstanceInfo (self s)) "files" = Ok (JDict local)
    ∧ ∀ k a, dict_get plan k = Some a →
        (a ≠ DELETE ∧ k ∈ dict_keys files)
        ∨ (a = DELETE ∧ k ∈ dict_keys local ∧ k ∉ dict_keys files).
Proof.
  unfold plan_files. intros (u & s0 & [= <- <-] & Hrun)%bind_ok_inv.
  apply bind_ok_inv in Hrun as (r1 & s1 & Hl1 & Hrun). destruct r1 as [ups|[]].
  apply plan_remote_loop_inv in Hl1 as (-> & ups' & -> & Hups & Hsub1).
  cbn [app] in *.
  apply bind_ok_inv in Hrun as (lf & s2 & Hlf & Hrun).
  apply bind_ok_inv in Hrun as (lk & s3 & Hlk & Hrun).
  unfold lift in Hlf, Hlk. injection Hlf as Hlf <-. injection Hlk as Hlk <-.
  apply bind_ok_inv in Hrun as (r2 & s4 & Hl2 & Hrun). destruct r2 as [plan'|[]].
  injection Hrun as <- <-.
  apply plan_local_loop_inv in Hl2 as (-> & dels & -> & Hdels & Hsub2).
  destruct lf as [| | | | | |local]; try discriminate. injection Hlk as <-.
  exists local. split; [done|]. intros k a Hg.
  apply dict_get_Some_in, elem_of_app in Hg as [Hin|Hin].
  - left. eapply Forall_forall in Hups; [|exact Hin]. cbn in Hups. split.
    + destruct Hups as [-> | ->]; discriminate.
    + eapply elem_of_sublist; [|exact Hsub1].
      apply list_elem_of_fmap. by exists (k, a).
  - right. eapply Forall_forall in Hdels as [Hd Hn]; [|exact Hin]. cbn in Hd, Hn.
    split_and!; [done | | done].
    eapply elem_of_sublist; [|exact Hsub2].
    apply list_elem_of_fmap. by exists (k, a).
Qed.

Lemma update_with_footprint E plan : keeps (footprint plan) (update_with E plan).
Proof.
  unfold update_with. keeps_auto.
  - apply keeps_footprint_quiet; apply keeps_checkFilePermissions; apply _.
  - apply keeps_footprint_quiet; apply keeps_download_all; try apply _;
      first [apply self_streams_keep | apply self_temps_keep]; apply _.
  - unfold apply_entries. apply keeps_for_loop; [apply _|]. intros [] k s o s' Hrun.
    split; [|by eapply apply_entry_footprint].
    symmetry. eapply (keeps_run (on_self eq)); [exact Hrun|].
    apply keeps_apply_entry. apply self_applies_keep. apply _.
  - apply keeps_footprint_quiet; apply (keeps_close_all E); try apply _.
    apply self_temps_keep. apply _.
Qed.

(** X15.  Whatever its outcome, [updateInstance] removes no file but a
    file of the local record that the newest files do not have, and writes
    or changes the mode of no file but a file of the newest files, all of
    them at their paths under the instance directory. *)
Theorem update_footprint (E : Env) (s s' : State) (o : outcome bool) :
  updateInstance E s = (o, s') →
  ∃ t, trace (world s') = trace (world s) ++ t
       ∧ Forall (update_event (self s) (newestFiles (self s'))) t.
Proof.
  intros Hrun. unfold updateInstance in Hrun.
  apply bind_run in Hrun as (o1 & s1 & Hcheck & Hrun).
  assert (extends_by (update_event (self s) (newestFiles (self s'))) (world s) (world s1))
    as H1.
  { eapply extends_extends_by;
      [|eapply (keeps_run (on_world only_documents)) in Hcheck as (_ & _ & _ & Hx);
        [exact Hx | apply keeps_checkFilesToUpdate; apply _]].
    by intros []. }
  destruct o1 as [[plan|]|e];
    [| by injection Hrun as _ <- | by destruct Hrun as [-> _]].
  destruct (dict_len plan =? 0)%nat; [by injection Hrun as _ <-|].
  assert (same_config (self s) (self s1)) as (Hinst & _ & _ & Hlocal).
  { eapply (keeps_run (on_self same_config)); [exact Hcheck|].
    apply setters_checkFilesToUpdate; try apply _; try done.
    intros; unfold remember_newest; by case_match. }
  assert (∃ files local,
            newestFiles (self s1) = Some files
            ∧ py_getitem (localInstanceInfo (self s1)) "files" = Ok (JDict local)
            ∧ ∀ k a, dict_get plan k = Some a →
                (a ≠ DELETE ∧ k ∈ dict_keys files)
                ∨ (a = DELETE ∧ k ∈ dict_keys local ∧ k ∉ dict_keys files))
    as (files & local & Hfiles & Hloc & Hplan).
  { unfold _checkFilesToUpdate in Hcheck.
    apply bind_ok_inv in Hcheck as (ok & s0 & _ & Hcheck).
    destruct ok; cbn [negb] in Hcheck; [|discriminate].
    apply bind_ok_inv in Hcheck as (u & s4 & [= <- <-] & Hcheck).
    destruct (newestFiles (self s0)) as [files|] eqn:Hf; [|discriminate].
    apply bind_ok_inv in Hcheck as (p & s4 & Hp & [= <- <-]).
    apply plan_files_shape in Hp as Hs. destruct Hs as [-> _].
    apply plan_files_sources in Hp as (local & Hloc & Hp). by exists files, local. }
  apply update_with_footprint in Hrun as [Hself Hx].
  change (extends_by (update_event (self s) (newestFiles (self s'))) (world s) (world s')).
  etransitivity; [exact H1|]. eapply extends_by_weaken; [|exact Hx].
  rewrite Hself, Hfiles. clear -Hloc Hplan Hlocal Hinst.
  intros [] He; unfold update_event; rewrite <- ?Hlocal, <- ?Hinst; cbn in *; try done.
  - destruct He as (k & Hk & ->). destruct (Hplan _ _ Hk) as [[? _]|(_ & Hin & Hn)]; [done|].
    by exists local, files, k.
  - destruct He as (k & a & Hk & Ha & ->).
    destruct (Hplan _ _ Hk) as [[_ Hin]|[? _]]; [|done]. by exists files, k.
  - destruct He as (k & a & Hk & Ha & ->).
    destruct (Hplan _ _ Hk) as [[_ Hin]|[? _]]; [|done]. by exists files, k.
Qed.

(** ** The directory helpers, the audit and the update on concrete trees *)

Lemma createSubDirectories_outcome_witness :
  self (snd (_createSubDirectories "d/e/y.txt" "inst" Scenario.s_fresh))
  = self Scenario.s_fresh
  ∧ only_creates (world Scenario.s_fresh)
      (world (snd (_createSubDirectories "d/e/y.txt" "inst" Scenario.s_fresh)))
  ∧ ∃ b, Ok true = Ok b
      ∧ (b = true →
         ∀ p, p ∈ dir_chain "inst" "" (removelast (split_slash "d/e/y.txt")) →
              os_path_isdir
                (fs (world (snd (_createSubDirectories "d/e/y.txt" "inst"
                                   Scenario.s_fresh)))) p = true).
Proof.
  apply (createSubDirectories_outcome "d/e/y.txt" "inst" Scenario.s_fresh).
  vm_compute. reflexivity.
Defined.


Lemma audit_passes_only_if_writable_witness :
  os_access_W (fs (world Scenario.s_diff)) "inst/m.txt" = true
  ∧ os_access_W (fs (world Scenario.s_diff)) "inst/gone.txt" = true
  ∧ os_access_W (fs (world Scenario.s_diff)) "inst" = true.
Proof.
  destruct (audit_passes_only_if_writable Trees.plan_diff Scenario.s_diff
              Scenario.s_diff (Ok true)) as [_ Hw]; [vm_compute; reflexivity|].
  split_and!.
  - destruct (Hw eq_refl "m.txt" MODIFY eq_refl) as (_ & Hm & _).
    exact (Hm (or_introl eq_refl)).
  - destruct (Hw eq_refl "gone.txt" DELETE eq_refl) as (_ & Hd & _).
    exact (Hd (or_intror eq_refl)).
  - destruct (Hw eq_refl "n.txt" NEW eq_refl) as (_ & _ & Hn).
    exact (Hn eq_refl eq_refl).
Defined.

Lemma tree_changes_need_verified_downloads_witness :
  tree_untouched (world Scenario.s_mixed)
    (world (snd (updateInstance Scenario.E_mixed Scenario.s_mixed)))
  ∨ ∃ plan files s1 d s2,
      _checkFilesToUpdate Scenario.E_mixed Scenario.s_mixed = (Ok (Some plan), s1)
      ∧ _checkFilePermissions plan s1 = (Ok true, s1)
      ∧ download_all Scenario.E_mixed plan s1 = (Ok (inl d), s2)
      ∧ tree_untouched (world Scenario.s_mixed) (world s2)
      ∧ newestFiles (self s1) = Some files
      ∧ (∀ k h, dict_get d k = Some h → verified_handle plan files k h)
      ∧ (∀ k, dict_get plan k = Some NEW ∨ dict_get plan k = Some MODIFY →
              is_Some (dict_get d k)).
Proof.
  apply (tree_changes_need_verified_downloads Scenario.E_mixed Scenario.s_mixed _
           (fst (updateInstance Scenario.E_mixed Scenario.s_mixed))).
  vm_compute. reflexivity.
Defined.

(** The two temporary files of the update are closed at its end. *)
Lemma successful_update_closes_temps_witness :
  (0%nat ∈ open_temps (world (snd (updateInstance Scenario.E_mixed Scenario.s_mixed)))
   ↔ 0%nat ∈ open_temps (world Scenario.s_mixed))
  ∧ (1%nat ∈ open_temps (world (snd (updateInstance Scenario.E_mixed Scenario.s_mixed)))
     ↔ 1%nat ∈ open_temps (world Scenario.s_mixed)).
Proof.
  split; apply (successful_update_closes_temps Scenario.E_mixed Scenario.s_mixed);
    first [ intros id Hid; vm_compute in Hid; by apply elem_of_nil in Hid
          | vm_compute; reflexivity ].
Defined.

Lemma update_footprint_witness :
  ∃ t, trace (world (snd (updateInstance Scenario.E_mixed Scenario.s_mixed)))
       = trace (world Scenario.s_mixed) ++ t
       ∧ Forall (update_event (self Scenario.s_mixed)
                   (newestFiles (self (snd (updateInstance Scenario.E_mixed
                                              Scenario.s_mixed))))) t.
Proof.
  apply (update_footprint Scenario.E_mixed Scenario.s_mixed _
           (fst (updateInstance Scenario.E_mixed Scenario.s_mixed))).
  vm_compute. reflexivity.
Defined.

(** ** The public readers and the change of instance *)

(** X16.  [getRepositoryInformation] never returns [None]: it returns the
    document kept in [repoInfo], which is either the cached one, no request
    being made (only when [lastChecked] is at most 60 seconds old), or a
    document fetched by this call with one request, a dict whose
    [instances] has an entry for the instance.  The exceptions that leave it
    are the [ValueError] of a failed fetch and the [KeyError] or [TypeError]
    of an entry without a [location].  It never assigns [lastChecked]. *)
Theorem getRepositoryInformation_result (E : Env) (s s' : State) (o : outcome json) :
  getRepositoryInformation E s = (o, s') →
  fetch_frame (self s) (self s')
  ∧ match o with
    | Ok info =>
        info = repoInfo (self s')
        ∧ info ≠ JNull
        ∧ ((clock E (tick (world s)) - lastChecked (self s) <= 60
            ∧ self s' = self s
            ∧ trace (world s') = trace (world s))
           ∨ ((∃ d insts entry,
                 info = JDict d
                 ∧ dict_get d "instances" = Some insts
                 ∧ py_getitem insts (instance (self s)) = Ok entry)
              ∧ trace (world s')
                = trace (world s)
                  ++ [EvGetDoc (os_path_join (url (self s)) ["repoInfo.json"])]))
    | Raise e =>
        e = ValueError "Not able to get newest repository information."
        ∨ e = KeyError "location"
        ∨ e = TypeError
    end.
Proof.
  intros Hrun. split.
  { eapply (keeps_run (on_self fetch_frame)); [exact Hrun|].
    apply setters_getRepositoryInformation_public; [apply _ | done..]. }
  destruct s as [u w]. unfold getRepositoryInformation in Hrun.
  unfold bind at 1 in Hrun. rewrite time_time_run in Hrun.
  unfold bind at 1, get_self in Hrun. cbn [self world] in Hrun.
  destruct (Z.gtb_spec (clock E (tick w) - lastChecked u) 60) as [Hold|Hfresh];
    cbn [orb] in Hrun.
  2: destruct (is_JNull (repoInfo u)) eqn:Hnull.
  3:{ unfold bind, ret in Hrun. cbn in Hrun. injection Hrun as <- <-. cbn.
      split_and!; [done | by destruct (repoInfo u) | left; by split_and!]. }
  all: unfold bind at 1 in Hrun; unfold bind at 1 in Hrun;
    destruct (_getRepositoryInformation E _) as [r s1] eqn:Hfetch;
    apply getRepositoryInformation_cases in Hfetch as (Htrace & _ & _ & Hcases);
    destruct r as [[|]|e]; cbn in Hrun; injection Hrun as <- <-;
    [ | by left | destruct Hcases as [[-> | ->] _]; eauto ];
    destruct Hcases as (d & insts & entry & loc & Hd & Hi & He & _); cbn in *;
    (split_and!; [done | by rewrite Hd | right; split; [by eauto 6 | done]]).
Qed.

(** After [setInstance(name, retrieveInfo=False)] nothing is cached: the
    next fetch asks for both manifests. *)
Lemma fetch_after_reset E name s s' :
  _getInstanceInformation E {| self := reset_instance name (self s); world := world s |}
  = (Ok true, s') →
  ∃ loc,
    repoInstanceLocation (self s') = Some loc
    ∧ trace (world s')
      = trace (world s)
        ++ [EvGetDoc (os_path_join (url (self s)) ["repoInfo.json"]);
            EvGetDoc (os_path_join (url (self s)) [loc; "instanceInfo.json"])]
    ∧ ∃ d insts entry l,
        repoInfo (self s') = JDict d
        ∧ dict_get d "instances" = Some insts
        ∧ py_getitem insts name = Ok entry
        ∧ py_getitem entry "location" = Ok l
        ∧ loc = match l with JStr x => x | _ => py_str E l end.
Proof.
  intros Hrun. unfold _getInstanceInformation in Hrun.
  apply bind_ok_inv in Hrun as (u & s0 & [= <- <-] & Hrun).
  cbn [self reset_instance repoInfo is_JNull orb] in Hrun.
  apply bind_ok_inv in Hrun as (ok & s1 & Hrepo & Hrun).
  destruct ok; cbn [negb] in Hrun; [|discriminate].
  apply try_except_ok_inv in Hrepo as [Hrepo|(e & s2 & _ & [=])].
  apply bind_ok_inv in Hrepo as (b & s2 & Hrepo & Hret).
  destruct b; [|discriminate]. injection Hret as <-.
  apply getRepositoryInformation_cases in Hrepo
    as (Htrace & (_ & _ & Hurl & _) & _ & d & insts & entry & l & Hd & Hi & He & Hl & Hloc).
  cbn [self world reset_instance instance url] in *.
  apply bind_ok_inv in Hrun as (u & s0 & [= <- <-] & Hrun).
  rewrite Hloc in Hrun.
  unfold bind at 1 in Hrun. rewrite requests_get_doc_run in Hrun.
  destruct (http_doc E _ _) as [| |j]; try discriminate.
  apply try_except_ok_inv in Hrun as [Hrun|(e & s3 & _ & [=])].
  apply bind_ok_inv in Hrun as ([] & s3 & [= <-] & Hrun).
  assert (s' = {| self := set_instanceInfo j (self s2);
                  world := with_tick (with_event (world s2)
                             (EvGetDoc (os_path_join (url (self s2))
                                [match l with JStr x => x | _ => py_str E l end;
                                 "instanceInfo.json"]))) |}) as ->.
  { symmetry. eapply (keeps_run eq); [exact Hrun|]. keeps_auto. }
  cbn. eexists. split; [exact Hloc|]. split.
  - rewrite Htrace, Hurl. by rewrite <- app_assoc.
  - by exists d, insts, entry, l.
Qed.

(** X17.  After [setInstance(name, retrieveInfo=False)] no manifest of the
    instance chosen before is served: a manifest that
    [getInstanceInformation] then returns was fetched by that call, with one
    request for [repoInfo.json] and one for the [instanceInfo.json] under
    the location that the repository gives for [name], and it is validated;
    the newest known version is the one remembered before the change. *)
Theorem setInstance_then_info (E : Env) (name : string) (s s1 s2 : State) (info : json) :
  setInstance E name false s = (Ok tt, s1) →
  getInstanceInformation E s1 = (Ok info, s2) →
  instance (self s2) = name
  ∧ remembered (self s2) = remembered (self s)
  ∧ info = instanceInfo (self s2)
  ∧ validated info
  ∧ ∃ loc d insts entry l,
      trace (world s2)
      = trace (world s)
        ++ [EvGetDoc (os_path_join (url (self s)) ["repoInfo.json"]);
            EvGetDoc (os_path_join (url (self s)) [loc; "instanceInfo.json"])]
      ∧ repoInfo (self s2) = JDict d
      ∧ dict_get d "instances" = Some insts
      ∧ py_getitem insts name = Ok entry
      ∧ py_getitem entry "location" = Ok l
      ∧ loc = match l with JStr x => x | _ => py_str E l end.
Proof.
  intros Hset Hget.
  assert (s1 = {| self := reset_instance name (self s); world := world s |}) as ->.
  { unfold setInstance, bind, assign, ret in Hset. by injection Hset as <-. }
  assert (fetch_frame (reset_instance name (self s)) (self s2)) as (Hname & _ & _ & Hrem & _).
  { eapply (keeps_run (on_self fetch_frame)) in Hget; [exact Hget|].
    apply setters_getInstanceInformation; [apply _ | done..]. }
  unfold getInstanceInformation in Hget.
  unfold bind at 1 in Hget. rewrite time_time_run in Hget.
  unfold bind at 1, get_self in Hget.
  cbn [self world reset_instance instanceInfo is_JNull] in Hget.
  rewrite orb_true_r in Hget.
  unfold bind at 1 in Hget. unfold bind at 1 in Hget.
  destruct (_getInstanceInformation E _) as [r s3] eqn:Hfetch.
  destruct (getInstanceInformation_returns _ _ _ _ Hfetch) as [b ->].
  destruct b; cbn in Hget; [|discriminate]. injection Hget as <- <-.
  apply getInstanceInformation_success in Hfetch as Hvalid. destruct Hvalid as [Hvalid _].
  apply (fetch_after_reset E name {| self := self s; world := with_tick (world s) |})
    in Hfetch as (loc & _ & Htrace & d & insts & entry & l & Hd & Hi & He & Hl & Hloc).
  split_and!; try done. by exists loc, d, insts, entry, l.
Qed.

(** X18.  When the version information is recorded and was checked at
    most 60 seconds ago, [_checkFilesToUpdate] plans from what is
    remembered: it makes no request, changes neither the object nor the file
    tree, and does not return [None]. *)
Theorem checkFilesToUpdate_within_a_minute (E : Env) (s s' : State)
    (o : outcome (option (pydict Z))) :
  clock E (tick (world s)) - lastChecked (self s) <= 60 →
  recorded (self s) →
  _checkFilesToUpdate E s = (o, s') →
  self s' = self s
  ∧ fs (world s') = fs (world s)
  ∧ trace (world s') = trace (world s)
  ∧ o ≠ Ok None.
Proof.
  intros Hfresh [Hf Hs] Hrun. destruct s as [u w]. cbn [self world] in *.
  unfold _checkFilesToUpdate, refresh_for_check in Hrun.
  unfold bind at 1 in Hrun. unfold bind at 1 in Hrun. rewrite time_time_run in Hrun.
  unfold bind at 1, get_self in Hrun. cbn [self world] in Hrun.
  destruct (Z.gtb_spec (clock E (tick w) - lastChecked u) 60) as [|_]; [lia|].
  destruct (newestFiles u) as [files|] eqn:Hfiles; [|done].
  destruct (newestSymlinks u) as [symlinks|]; [|done].
  cbn [is_none orb negb ret] in Hrun.
  unfold bind at 1, get_self in Hrun. cbn [self] in Hrun. rewrite Hfiles in Hrun.
  apply bind_run in Hrun as (op & s1 & Hplan & Hrun).
  apply (keeps_run eq) in Hplan as <-; [|apply keeps_plan_files; apply _].
  destruct op as [plan|e].
  - injection Hrun as <- <-. by split_and!.
  - destruct Hrun as [-> ->]. by split_and!.
Qed.

Lemma getRepositoryInformation_result_witness :
  Scenario.repo_doc
  = repoInfo (self (snd (getRepositoryInformation Scenario.E_old Scenario.s_fresh)))
  ∧ Scenario.repo_doc ≠ JNull.
Proof.
  destruct (getRepositoryInformation_result Scenario.E_old Scenario.s_fresh
              (snd (getRepositoryInformation Scenario.E_old Scenario.s_fresh))
              (Ok Scenario.repo_doc)) as (_ & Hi & Hn & _).
  - vm_compute. reflexivity.
  - by split.
Defined.

Lemma setInstance_then_info_witness :
  instance (self (snd (getInstanceInformation Scenario.E_old
                         (snd (setInstance Scenario.E_old "server" false
                                 Scenario.s_newer)))))
  = "server"
  ∧ validated Scenario.doc_old.
Proof.
  destruct (setInstance_then_info Scenario.E_old "server" Scenario.s_newer
              (snd (setInstance Scenario.E_old "server" false Scenario.s_newer))
              (snd (getInstanceInformation Scenario.E_old
                      (snd (setInstance Scenario.E_old "server" false
                              Scenario.s_newer))))
              Scenario.doc_old) as (Hn & _ & _ & Hv & _).
  - reflexivity.
  - vm_compute. reflexivity.
  - by split.
Defined.

Lemma checkFilesToUpdate_within_a_minute_witness :
  self (snd (_checkFilesToUpdate Scenario.E_old Scenario.s_synced))
  = self Scenario.s_synced
  ∧ fs (world (snd (_checkFilesToUpdate Scenario.E_old Scenario.s_synced)))
    = fs (world Scenario.s_synced)
  ∧ trace (world (snd (_checkFilesToUpdate Scenario.E_old Scenario.s_synced)))
    = trace (world Scenario.s_synced)
  ∧ fst (_checkFilesToUpdate Scenario.E_old Scenario.s_synced) ≠ Ok None.
Proof.
  apply (checkFilesToUpdate_within_a_minute Scenario.E_old Scenario.s_synced).
  - vm_compute. discriminate.
  - split; discriminate.
  - vm_compute. reflexivity.
Defined.
